(** * The message-understanding pipeline of the loan chat assistant

    A shallow embedding of [backend/services/nlpService.js] (class
    [NLPService]) and of the response generator of [backend/routes/chat.js]
    (contextual responses and pattern fallback), with the properties of the
    classification and response-selection pipeline stated over it.

    Conventions of the embedding.
    - A JavaScript string is a [string]; its characters are read as the code
      units U+0000..U+00FF, on which [toLowerCase] and the white-space class
      of regular expressions are the ones of ECMAScript.
    - A JavaScript number is an exact rational ([Q]), so the rounding of
      binary64 arithmetic is not modelled; counters that only ever hold
      small naturals are [nat].  Two sums that are equal as rationals can
      differ in their last bit, so the properties of the response scorer
      leave open which of several patterns with the same exact score is
      ranked first and whether a score equal to the threshold reaches it.
      Where the source can produce [NaN] (the division 0/0) the value is an
      [option Q], [None] standing for NaN.
    - A plain object used as a map is an association list in insertion order,
      which is the order of [Object.entries] for the keys met here.  The
      weight tables of the response scorer are looked up with own keys only:
      the two lower-case names inherited from [Object.prototype]
      (see [inheritedKey]) are kept out of pattern lists by [plainPatterns].
      The word counter of the fallback keyword extraction is such an object
      too; [plainMessage] keeps the inherited names out of a message.
    - A conversation history is the list of its message texts, the value of
      [msg.content || msg] for each entry.  A message object whose content
      is empty has no text and no counterpart in such a list, and the
      analyses that lower-case their entries throw on it: what is stated of
      the result of an analysis is stated of the calls that return.
    - The packages natural, compromise and string-similarity are outside the
      repository: the service is parameterised by the calls it makes to
      them, a call being a function of its arguments (and, for the TF-IDF
      index, of the index object, which a call may change). Diagnostic
      [console.log] calls are left out. *)

From Stdlib Require Import String Ascii List Bool Arith ZArith QArith Lia.
From Stdlib Require Import Lqa DecimalString.
From Stdlib Require Import Permutation Sorted.
Import ListNotations.

Local Close Scope Q_scope.
Local Open Scope string_scope.
Local Open Scope list_scope.
Local Open Scope nat_scope.

(** ** JavaScript primitives used by the service *)

Module JS.

(** [String.prototype.toLowerCase] on the code units U+0000..U+00FF:
    A-Z, and the Latin-1 capitals U+00C0..U+00DE except the multiplication
    sign U+00D7, move up by 32. *)
Definition lowerChar (c : ascii) : ascii :=
  let n := nat_of_ascii c in
  if ((65 <=? n) && (n <=? 90))
     || ((192 <=? n) && (n <=? 222) && negb (n =? 215))
  then ascii_of_nat (n + 32) else c.

Fixpoint toLowerCase (s : string) : string :=
  match s with
  | EmptyString => EmptyString
  | String c s' => String (lowerChar c) (toLowerCase s')
  end.

(** [s.startsWith(p)] *)
Fixpoint startsWith (s p : string) {struct p} : bool :=
  match p, s with
  | EmptyString, _ => true
  | String _ _, EmptyString => false
  | String a p', String b s' => Ascii.eqb a b && startsWith s' p'
  end.

(** [s.includes(sub)]: [sub] occurs in [s] as a substring. *)
Fixpoint includes (s sub : string) : bool :=
  startsWith s sub ||
  match s with
  | EmptyString => false
  | String _ s' => includes s' sub
  end.

(** The class [\s] of regular expressions, below U+0100. *)
Definition isSpace (c : ascii) : bool :=
  let n := nat_of_ascii c in
  ((9 <=? n) && (n <=? 13)) || (n =? 32) || (n =? 160).

(** [s.split(/[sep]+/)] for a character class [sep]: the pieces between the
    maximal runs of separators; a leading or trailing run leaves an empty
    piece, and the empty string splits into one empty piece. *)
Fixpoint splitRuns (sep : ascii -> bool) (s : string) : list string :=
  match s with
  | EmptyString => [EmptyString]
  | String c s' =>
      if sep c then
        match s' with
        | String c' _ => if sep c' then splitRuns sep s'
                         else EmptyString :: splitRuns sep s'
        | EmptyString => EmptyString :: splitRuns sep s'
        end
      else
        match splitRuns sep s' with
        | w :: ws => String c w :: ws
        | [] => [String c EmptyString]
        end
  end.

(** [s.split(/\s+/)] *)
Definition splitWhitespace (s : string) : list string := splitRuns isSpace s.

(** [arr.includes(x)] on an array of strings. *)
Definition arrayIncludes (arr : list string) (x : string) : bool :=
  existsb (String.eqb x) arr.

(** [arr.slice(-n)]: the last [n] elements. *)
Definition sliceLast {A} (n : nat) (l : list A) : list A :=
  skipn (length l - n) l.

(** [a > b] and [a >= b] on numbers. *)
Definition gtb (a b : Q) : bool := negb (Qle_bool a b).
Definition geb (a b : Q) : bool := Qle_bool b a.

(** A natural as a number. *)
Definition num (n : nat) : Q := inject_Z (Z.of_nat n).

(** [obj[key]] on an object used as a map: [None] is [undefined]. *)
Fixpoint get {V} (obj : list (string * V)) (key : string) : option V :=
  match obj with
  | [] => None
  | (k, v) :: rest => if String.eqb k key then Some v else get rest key
  end.

(** [obj[key] = v]: an existing key keeps its place, a new key goes last. *)
Fixpoint set {V} (obj : list (string * V)) (key : string) (v : V)
  : list (string * V) :=
  match obj with
  | [] => [(key, v)]
  | (k, w) :: rest =>
      if String.eqb k key then (k, v) :: rest else (k, w) :: set rest key v
  end.

(** [String(n)] for a natural number. *)
Definition numberToString (n : nat) : string :=
  NilEmpty.string_of_uint (Nat.to_uint n).

(** [Math.max(...values)] on naturals; the source never applies it to an
    empty array (where JavaScript gives -Infinity). *)
Definition mathMax (values : list nat) : nat := fold_right Nat.max 0 values.

(** [a > b] where either side may be [undefined]: a comparison with
    [undefined] is false. *)
Definition gtUndefined (a b : option nat) : bool :=
  match a, b with
  | Some x, Some y => y <? x
  | _, _ => false
  end.

(** [(obj[key] || 0) + 1] stored back under [key]. Where the source writes
    [obj[key] += 1] the key has been initialised just before. *)
Definition increment (obj : list (string * nat)) (key : string)
  : list (string * nat) :=
  set obj key (match get obj key with Some v => v | None => 0 end + 1).

(** The outcome of a call that may throw. *)
Inductive Outcome (A : Type) : Type :=
| Returns (a : A)
| Throws (error : string).
Arguments Returns {A} a.
Arguments Throws {A} error.

(** [arr.reduce(f)] without an initial value. *)
Definition reduce {A} (f : A -> A -> A) (arr : list A) : Outcome A :=
  match arr with
  | [] => Throws "TypeError: Reduce of empty array with no initial value"
  | a :: rest => Returns (fold_left f rest a)
  end.

(** Calls that may throw form a monad; [tryCatch] is [try { } catch { }]. *)
Class Monad (M : Type -> Type) := {
  ret : forall {A}, A -> M A;
  bind : forall {A B}, M A -> (A -> M B) -> M B
}.

#[export] Instance OutcomeMonad : Monad Outcome := {
  ret := fun A a => Returns a;
  bind := fun A B c k =>
    match c with
    | Returns a => k a
    | Throws e => Throws e
    end
}.

Notation "x <- c ;; k" := (bind c (fun x => k))
  (at level 61, c at next level, right associativity).

Definition tryCatch {A} (body : Outcome A) (handler : string -> Outcome A)
  : Outcome A :=
  match body with
  | Returns a => Returns a
  | Throws e => handler e
  end.

(** [value || []] *)
Definition orEmpty {A} (value : option (list A)) : list A :=
  match value with
  | Some l => l
  | None => []
  end.

(** [value || 0] for a number that may be undefined. *)
Definition orZero (value : option Q) : Q :=
  match value with
  | Some q => q
  | None => 0%Q
  end.

(** *** Regular expressions

    The fragment used by the service: literals, character classes,
    sequences, an optional group and a greedy bounded repetition of a
    character class, matched by backtracking. A continuation receives the
    rest of the subject and answers with the rest after the whole match. *)
Inductive Regex :=
| Eps
| Chr (c : ascii)
| Cls (p : ascii -> bool)
| Seq (r1 r2 : Regex)
| Opt (r : Regex)
| Rep (p : ascii -> bool) (min : nat) (max : option nat).

Fixpoint repeatClass (p : ascii -> bool) (min : nat) (max : option nat)
    (s : string) (k : string -> option string) {struct s} : option string :=
  let stop := if min =? 0 then k s else None in
  match max with
  | Some 0 => stop
  | _ =>
      match s with
      | String c s' =>
          if p c then
            match repeatClass p (pred min) (option_map pred max) s' k with
            | Some rest => Some rest
            | None => stop
            end
          else stop
      | EmptyString => stop
      end
  end.

Fixpoint matchHere (r : Regex) (s : string) (k : string -> option string)
  : option string :=
  match r with
  | Eps => k s
  | Chr c =>
      match s with
      | String c' s' => if Ascii.eqb c c' then k s' else None
      | EmptyString => None
      end
  | Cls p =>
      match s with
      | String c' s' => if p c' then k s' else None
      | EmptyString => None
      end
  | Seq r1 r2 => matchHere r1 s (fun s1 => matchHere r2 s1 k)
  | Opt r1 =>
      match matchHere r1 s k with
      | Some rest => Some rest
      | None => k s
      end
  | Rep p min max => repeatClass p min max s k
  end.

(** The text matched at the start of [s], if any. *)
Definition execAt (r : Regex) (s : string) : option string :=
  match matchHere r s Some with
  | Some rest => Some (substring 0 (String.length s - String.length rest) s)
  | None => None
  end.

(** The successive matches of a global regular expression; [skip] is the
    number of characters still covered by the previous match. *)
Fixpoint matchAllFrom (r : Regex) (s : string) (skip : nat) : list string :=
  match skip with
  | S skip' =>
      match s with
      | String _ s' => matchAllFrom r s' skip'
      | EmptyString => []
      end
  | 0 =>
      match execAt r s with
      | Some m =>
          m :: match s with
               | String _ s' => matchAllFrom r s' (String.length m - 1)
               | EmptyString => []
               end
      | None =>
          match s with
          | String _ s' => matchAllFrom r s' 0
          | EmptyString => []
          end
      end
  end.

(** [s.match(/r/g)]: the array of all matches, or [null]. *)
Definition stringMatch (s : string) (r : Regex) : option (list string) :=
  match matchAllFrom r s 0 with
  | [] => None
  | matches => Some matches
  end.

Definition inRange (lo hi : nat) (c : ascii) : bool :=
  let n := nat_of_ascii c in (lo <=? n) && (n <=? hi).

(** [\d], [[a-zA-Z]] and the word characters of [\b]. *)
Definition isDigit (c : ascii) : bool := inRange 48 57 c.
Definition isAlpha (c : ascii) : bool := inRange 65 90 c || inRange 97 122 c.
Definition isWordChar (c : ascii) : bool :=
  isAlpha c || isDigit c || Ascii.eqb c "_".

(** [/^word\b/i.test(s)] for a lower-case ASCII [word]: below U+0100 only
    the two ASCII cases of a letter match it, so the test is a prefix test
    on the lower-cased subject followed by a word boundary. *)
Definition testWordPrefix (word s : string) : bool :=
  startsWith (toLowerCase s) word
  && match String.get (String.length word) s with
     | Some c => negb (isWordChar c)
     | None => true
     end.

End JS.

Import JS.

(** ** The service: [backend/services/nlpService.js] *)

Module NLP.

(** *** Semantic context analysis *)

Record SemanticCategory := mkCategory {
  keywords : list string;
  context : string
}.

(** The table [semanticCategories] of [analyzeSemanticContext]. *)
Definition semanticCategories : list (string * SemanticCategory) := [
  ("loan_inquiry", mkCategory
     ["loan"; "borrow"; "money"; "amount"; "how much"; "get loan";
      "need money"; "financial help"]
     "user wants to know about loan options and amounts");
  ("application_process", mkCategory
     ["apply"; "application"; "process"; "how to apply"; "steps";
      "procedure"; "apply for loan"]
     "user wants to understand the application process");
  ("eligibility", mkCategory
     ["eligible"; "qualify"; "requirements"; "criteria"; "can i get";
      "am i eligible"; "qualification"]
     "user wants to check their eligibility");
  ("documents", mkCategory
     ["documents"; "papers"; "kyc"; "pan"; "aadhaar"; "bank statement";
      "salary slip"; "proof"]
     "user wants to know about required documents");
  ("repayment", mkCategory
     ["repay"; "payment"; "emi"; "installment"; "due date"; "pay back";
      "repayment"]
     "user wants to understand repayment terms");
  ("interest_charges", mkCategory
     ["interest"; "rate"; "charges"; "fees"; "cost"; "how much interest";
      "charges"]
     "user wants to know about interest rates and charges");
  ("company_info", mkCategory
     ["company"; "fundobaba"; "about"; "what is"; "legitimate"; "safe";
      "trust"]
     "user wants to know about the company");
  ("support_contact", mkCategory
     ["contact"; "support"; "help"; "phone"; "email"; "customer service";
      "human"]
     "user wants to contact support");
  ("technical_issues", mkCategory
     ["problem"; "issue"; "error"; "not working"; "technical"; "bug";
      "trouble"]
     "user is facing technical issues");
  ("loan_status", mkCategory
     ["status"; "track"; "check"; "approved"; "disbursed"; "pending";
      "rejected"]
     "user wants to check loan status")
].

(** [findRelatedTopics]: the adjacency table, keyed by a category that is
    detected again by a chain of substring tests. *)
Definition relatedTopicsTable : list (string * list string) := [
  ("loan_inquiry", ["application_process"; "eligibility"; "interest_charges"]);
  ("application_process", ["documents"; "eligibility"; "loan_inquiry"]);
  ("documents", ["kyc"; "application_process"; "eligibility"]);
  ("repayment", ["interest_charges"; "loan_inquiry"]);
  ("interest_charges", ["loan_inquiry"; "repayment"]);
  ("company_info", ["support_contact"; "loan_inquiry"])
].

Definition findRelatedTopics (message : string)
    (conversationHistory : list string) : list string :=
  let messageLower := toLowerCase message in
  let has := includes messageLower in
  let currentCategory :=
    if has "loan" || has "borrow" || has "money" then "loan_inquiry"
    else if has "apply" || has "process" || has "steps"
      then "application_process"
    else if has "documents" || has "papers" || has "kyc" then "documents"
    else if has "repay" || has "payment" || has "emi" then "repayment"
    else if has "interest" || has "rate" || has "charges"
      then "interest_charges"
    else if has "company" || has "fundobaba" || has "about"
      then "company_info"
    else "null" in
  match get relatedTopicsTable currentCategory with
  | Some topics => topics
  | None => []
  end.

Record SemanticContext := mkSemanticContext {
  category : option string;
  confidence : Q;
  contextText : string;
  relatedTopics : list string
}.

(** The inner [forEach] of [analyzeSemanticContext]: one point for every
    keyword of the category that the lower-cased message includes. *)
Definition keywordScore (messageLower : string) (kws : list string) : nat :=
  fold_left
    (fun score keyword =>
       if includes messageLower keyword then score + 1 else score)
    kws 0.

(** [score / data.keywords.length] *)
Definition categoryScore (messageLower : string) (data : SemanticCategory)
  : Q :=
  (num (keywordScore messageLower (keywords data))
   / num (length (keywords data)))%Q.

(** One turn of the [for ... of Object.entries(semanticCategories)] loop. *)
Definition categoryStep (messageLower : string)
    (best : option string * Q) (entry : string * SemanticCategory)
  : option string * Q :=
  let '(bestCategory, bestScore) := best in
  let '(category, data) := entry in
  let score := categoryScore messageLower data in
  if gtb score bestScore then (Some category, score)
  else (bestCategory, bestScore).

Definition analyzeSemanticContext (message : string)
    (conversationHistory : list string) : SemanticContext :=
  let messageLower := toLowerCase message in
  let '(bestCategory, bestScore) :=
    fold_left (categoryStep messageLower) semanticCategories (None, 0%Q) in
  {| category := bestCategory;
     confidence := bestScore;
     contextText :=
       match bestCategory with
       | Some c =>
           match get semanticCategories c with
           | Some data => context data
           | None => "" (* not reached: [c] is a key of the table *)
           end
       | None => "general inquiry"
       end;
     relatedTopics := findRelatedTopics message conversationHistory |}.

(** *** Sentiment *)

Record Sentiment := mkSentiment {
  score : Q;
  positive : Q;
  negative : Q;
  neutral : Q
}.

Definition positiveWords : list string :=
  ["good"; "great"; "excellent"; "amazing"; "wonderful"; "happy"; "thank";
   "thanks"; "appreciate"; "love"; "like"; "perfect"; "awesome"; "fantastic";
   "brilliant"; "outstanding"].

Definition negativeWords : list string :=
  ["bad"; "terrible"; "awful"; "horrible"; "sad"; "angry"; "frustrated";
   "disappointed"; "hate"; "dislike"; "worst"; "useless"; "stupid";
   "annoying"; "problem"; "issue"; "error"].

(** The two counting loops of [fallbackSentimentAnalysis]. *)
Definition countIncluded (messageLower : string) (words : list string)
  : nat :=
  fold_left
    (fun count word => if includes messageLower word then S count else count)
    words 0.

Definition fallbackSentimentAnalysis (message : string) : Sentiment :=
  let messageLower := toLowerCase message in
  let positiveCount := countIncluded messageLower positiveWords in
  let negativeCount := countIncluded messageLower negativeWords in
  let total := positiveCount + negativeCount in
  let score :=
    if 0 <? total
    then (inject_Z (Z.of_nat positiveCount - Z.of_nat negativeCount)
          / num total)%Q
    else 0%Q in
  {| score := score;
     positive := num positiveCount;
     negative := num negativeCount;
     neutral := if total =? 0 then 1%Q else 0%Q |}.

(** *** Conversation topic *)

Inductive ConversationTopic :=
| NewConversation
| Topic (primary : string * nat) (distribution : list (string * nat))
        (consistency : Q).

(** The counters [topics] start with six keys. *)
Definition initialTopics : list (string * nat) :=
  [("loan_inquiry", 0); ("application", 0); ("documents", 0);
   ("repayment", 0); ("support", 0); ("technical", 0)].

(** [String(entry)] for an entry [[key, value]] of [Object.entries]: the
    property name under which [topics[entry]] is looked up. *)
Definition entryToString (entry : string * nat) : string :=
  fst entry ++ "," ++ numberToString (snd entry).

Definition identifyConversationTopic (conversationHistory : list string)
  : Outcome ConversationTopic :=
  if length conversationHistory =? 0 then Returns NewConversation else
  let recentMessages := sliceLast 5 conversationHistory in
  let topics :=
    fold_left
      (fun topics content =>
         let context := analyzeSemanticContext content [] in
         match category context with
         | Some c => increment topics c
         | None => topics
         end)
      recentMessages initialTopics in
  match
    reduce
      (fun a b =>
         if gtUndefined (get topics (entryToString a))
                        (get topics (entryToString b))
         then a else b)
      topics
  with
  | Returns mainTopic =>
      Returns
        (Topic mainTopic topics
           (num (mathMax (map snd topics)) / num (length recentMessages))%Q)
  | Throws e => Throws e
  end.

(** *** User journey stage *)

(** The table [journeyStages] of [analyzeUserJourney]. *)
Definition journeyStages : list (string * list string) := [
  ("awareness", ["hello"; "hi"; "what is"; "about"; "company"]);
  ("interest", ["loan"; "amount"; "how much"; "interest"; "charges"]);
  ("consideration",
     ["apply"; "process"; "documents"; "eligibility"; "requirements"]);
  ("application", ["apply now"; "start application"; "begin process"]);
  ("post_application", ["status"; "track"; "approved"; "disbursed"]);
  ("support", ["help"; "contact"; "problem"; "issue"])
].

Definition determineUserStage (conversationHistory : list string)
    (journeyStages : list (string * list string)) : Outcome string :=
  let recentMessages := sliceLast 3 conversationHistory in
  let stageScores :=
    fold_left
      (fun stageScores '(stage, keywords) =>
         let stageScores := set stageScores stage 0 in
         fold_left
           (fun stageScores msg =>
              let content := toLowerCase msg in
              fold_left
                (fun stageScores keyword =>
                   if includes content keyword
                   then increment stageScores stage
                   else stageScores)
                keywords stageScores)
           recentMessages stageScores)
      journeyStages [] in
  match
    reduce
      (fun a b =>
         if gtUndefined (get stageScores (fst a)) (get stageScores (fst b))
         then a else b)
      stageScores
  with
  | Returns best => Returns (fst best)
  | Throws e => Throws e
  end.

(** *** Response scoring *)

(** Common words with lower weights. *)
Definition commonWords : list (string * Q) := [
  ("the", 0.1%Q); ("a", 0.1%Q); ("an", 0.1%Q); ("and", 0.1%Q); ("or", 0.1%Q);
  ("but", 0.1%Q); ("in", 0.1%Q); ("on", 0.1%Q); ("at", 0.1%Q); ("to", 0.1%Q);
  ("for", 0.1%Q); ("of", 0.1%Q); ("with", 0.1%Q); ("by", 0.1%Q);
  ("is", 0.2%Q); ("are", 0.2%Q); ("was", 0.2%Q); ("were", 0.2%Q);
  ("be", 0.2%Q); ("been", 0.2%Q); ("have", 0.2%Q); ("has", 0.2%Q);
  ("had", 0.2%Q); ("do", 0.2%Q); ("does", 0.2%Q); ("did", 0.2%Q);
  ("will", 0.2%Q); ("would", 0.2%Q); ("could", 0.2%Q); ("should", 0.2%Q);
  ("may", 0.2%Q); ("might", 0.2%Q); ("can", 0.2%Q); ("this", 0.3%Q);
  ("that", 0.3%Q); ("these", 0.3%Q); ("those", 0.3%Q); ("i", 0.3%Q);
  ("you", 0.3%Q); ("he", 0.3%Q); ("she", 0.3%Q); ("it", 0.3%Q);
  ("we", 0.3%Q); ("they", 0.3%Q); ("me", 0.3%Q); ("him", 0.3%Q);
  ("her", 0.3%Q); ("us", 0.3%Q); ("them", 0.3%Q); ("what", 0.4%Q);
  ("how", 0.4%Q); ("when", 0.4%Q); ("where", 0.4%Q); ("why", 0.4%Q);
  ("who", 0.4%Q); ("which", 0.4%Q)
].

(** Important keywords with higher weights. *)
Definition importantKeywords : list (string * Q) := [
  ("loan", 2.0%Q); ("borrow", 2.0%Q); ("money", 2.0%Q); ("amount", 2.0%Q);
  ("emi", 2.0%Q); ("installment", 2.0%Q); ("apply", 1.8%Q);
  ("application", 1.8%Q); ("process", 1.8%Q); ("steps", 1.8%Q);
  ("documents", 1.8%Q); ("papers", 1.8%Q); ("kyc", 1.8%Q); ("pan", 1.8%Q);
  ("aadhaar", 1.8%Q); ("bank statement", 1.8%Q); ("repay", 1.8%Q);
  ("payment", 1.8%Q); ("repayment", 1.8%Q); ("pay", 1.8%Q);
  ("interest", 1.8%Q); ("rate", 1.8%Q); ("charges", 1.8%Q); ("fees", 1.8%Q);
  ("eligible", 1.8%Q); ("eligibility", 1.8%Q); ("qualify", 1.8%Q);
  ("requirements", 1.8%Q); ("criteria", 1.8%Q); ("max", 1.8%Q);
  ("maximum", 1.8%Q); ("highest", 1.8%Q); ("min", 1.8%Q); ("minimum", 1.8%Q);
  ("lowest", 1.8%Q); ("salary", 1.8%Q); ("income", 1.8%Q);
  ("salary requirement", 1.8%Q); ("reloan", 1.8%Q); ("another loan", 1.8%Q);
  ("second loan", 1.8%Q); ("fundobaba", 1.5%Q); ("company", 1.5%Q);
  ("about", 1.5%Q); ("contact", 1.5%Q); ("support", 1.5%Q); ("help", 1.5%Q);
  ("phone", 1.5%Q); ("email", 1.5%Q); ("thank", 1.0%Q); ("thanks", 1.0%Q);
  ("appreciate", 1.0%Q); ("hello", 0.8%Q); ("hi", 0.8%Q); ("hey", 0.8%Q);
  ("good morning", 0.8%Q); ("good evening", 0.8%Q); ("bye", 0.8%Q);
  ("goodbye", 0.8%Q); ("see you", 0.8%Q)
].

(** The lower-case property names that every object inherits from
    [Object.prototype]; a lookup of one of them in a weight table does not
    yield a number. *)
Definition inheritedKey (word : string) : bool :=
  String.eqb word "constructor" || String.eqb word "__proto__".

(** No word of a pattern is an inherited property name. *)
Definition plainPatterns (responsePatterns : list string) : bool :=
  forallb
    (fun pattern =>
       forallb (fun word => negb (inheritedKey word))
               (splitWhitespace (toLowerCase pattern)))
    responsePatterns.

Module Score.
Record t := mk {
  pattern : string;
  score : Q;
  totalScore : Q;
  keywordCount : nat;
  index : nat
}.
End Score.

(** "Check for exact matches first". *)
Definition exactMatch (messageLower pattern : string) : Q * nat :=
  if includes messageLower (toLowerCase pattern) then (3.0%Q, 1) else (0%Q, 0).

(** "Check for word matches with weights": the body of the first
    [patternWords.forEach]. *)
Definition wordMatch (messageWords : list string) (acc : Q * nat)
    (word : string) : Q * nat :=
  let '(totalScore, keywordCount) := acc in
  if arrayIncludes messageWords word then
    match get importantKeywords word with
    | Some weight => ((totalScore + weight)%Q, S keywordCount)
    | None =>
        match get commonWords word with
        | Some weight => ((totalScore + weight)%Q, keywordCount)
        | None => ((totalScore + 1.0)%Q, S keywordCount)
        end
    end
  else acc.

(** "Check for partial matches": the body of the second
    [patternWords.forEach], with its inner [messageWords.forEach]. *)
Definition partialMatch (messageWords : list string) (totalScore : Q)
    (word : string) : Q :=
  fold_left
    (fun totalScore msgWord =>
       if includes msgWord word || includes word msgWord then
         match get importantKeywords word with
         | Some weight => (totalScore + weight * 0.7)%Q
         | None =>
             match get commonWords word with
             | None => (totalScore + 0.7)%Q
             | Some _ => totalScore
             end
         end
       else totalScore)
    messageWords totalScore.

(** "Bonus for question words if it's a question". *)
Definition questionBonus (messageLower : string) : bool :=
  includes messageLower "what" || includes messageLower "how"
  || includes messageLower "why" || includes messageLower "when"
  || includes messageLower "where" || includes messageLower "who"
  || includes messageLower "which" || includes messageLower "can"
  || includes messageLower "could" || includes messageLower "would"
  || includes messageLower "should".

(** The body of [responsePatterns.forEach((pattern, index) => ...)]. *)
Definition scorePattern (messageLower : string) (pattern : string)
    (index : nat) : Score.t :=
  let '(totalScore, keywordCount) := exactMatch messageLower pattern in
  let messageWords := splitWhitespace messageLower in
  let patternWords := splitWhitespace (toLowerCase pattern) in
  let '(totalScore, keywordCount) :=
    fold_left (wordMatch messageWords) patternWords
              (totalScore, keywordCount) in
  let totalScore :=
    fold_left (partialMatch messageWords) patternWords totalScore in
  let totalScore :=
    if questionBonus messageLower then (totalScore + 0.5)%Q
    else totalScore in
  let normalizedScore :=
    if 0 <? keywordCount then (totalScore / num keywordCount)%Q
    else totalScore in
  Score.mk pattern normalizedScore totalScore keywordCount index.

(** The entries pushed by the [forEach], in table order. *)
Fixpoint scoreFrom (messageLower : string) (responsePatterns : list string)
    (index : nat) : list Score.t :=
  match responsePatterns with
  | [] => []
  | pattern :: rest =>
      scorePattern messageLower pattern index
      :: scoreFrom messageLower rest (S index)
  end.

(** [scores.sort((a, b) => b.score - a.score)]: the sort is stable, so an
    entry goes in front of the entries it ties with or beats that came
    after it. *)
Fixpoint insertByScore (a : Score.t) (sorted : list Score.t) : list Score.t :=
  match sorted with
  | [] => [a]
  | b :: rest =>
      if Qle_bool (Score.score b - Score.score a) 0 then a :: b :: rest
      else b :: insertByScore a rest
  end.

Definition sortByScore (scores : list Score.t) : list Score.t :=
  fold_right insertByScore [] scores.

Definition calculateResponseScore (userMessage : string)
    (responsePatterns : list string) : list Score.t :=
  let messageLower := toLowerCase userMessage in
  sortByScore (scoreFrom messageLower responsePatterns 0).

Module Best.
Record t := mk {
  pattern : string;
  score : Q;
  confidence : Q;
  allScores : list Score.t
}.
End Best.

(** [Math.min(a, b)] *)
Definition mathMin (a b : Q) : Q := if Qle_bool a b then a else b.

(** [selectBestResponse]; [None] is [null]. *)
Definition selectBestResponse (userMessage : string)
    (responsePatterns : list string) (threshold : Q) : option Best.t :=
  let scores := calculateResponseScore userMessage responsePatterns in
  match scores with
  | first :: _ =>
      if geb (Score.score first) threshold then
        Some (Best.mk (Score.pattern first) (Score.score first)
                      (mathMin (Score.score first / 3.0) 1.0)%Q scores)
      else None
  | [] => None
  end.

(** *** The libraries behind the service

    The packages natural and compromise are not part of the repository;
    the service sees them through the calls below. *)

(** The TF-IDF index of natural. [tfidfs t terms] gives the arguments
    [(i, measure, key)] with which [t.tfidfs(terms, callback)] calls its
    callback, in order, and the index after the call (the index may keep
    weights it has computed). *)
Class TfIdfLibrary := {
  TfIdf : Type;
  newTfIdf : TfIdf;
  addDocument : TfIdf -> string -> string -> TfIdf;
  documentKeys : TfIdf -> list string;
  tfidfs : TfIdf -> string -> list (nat * Q * string) * TfIdf
}.

(** What the service relies on: documents keep the order and the keys they
    were added with, and the callback is called once per document with its
    key. *)
Class TfIdfLaws (L : TfIdfLibrary) : Prop := {
  documentKeys_new : documentKeys newTfIdf = [];
  documentKeys_add : forall t text key,
    documentKeys (addDocument t text key) = documentKeys t ++ [key];
  tfidfs_keys : forall t terms,
    map snd (fst (tfidfs t terms)) = documentKeys t;
  tfidfs_documents : forall t terms,
    documentKeys (snd (tfidfs t terms)) = documentKeys t
}.

(** The result of [doc.sentiment()], each field possibly undefined. *)
Record LibrarySentiment := mkLibrarySentiment {
  lib_score : option Q;
  lib_positive : option Q;
  lib_negative : option Q;
  lib_neutral : option Q
}.

(** The document object of compromise. A method that the installed version
    does not have is [None]; a call may throw; [.out('array')] may give
    [undefined]. *)
Class CompromiseLibrary := {
  Doc : Type;
  nlp : string -> Outcome Doc;
  doc_values : Doc -> Outcome (option (list string));
  doc_dates : Doc -> option (Outcome (option (list string)));
  doc_organizations : Doc -> option (Outcome (option (list string)));
  doc_places : Doc -> option (Outcome (option (list string)));
  doc_sentiment : Doc -> option (Outcome LibrarySentiment);
  doc_keywords : Doc -> option (Outcome (list string))
}.

(** *** Intent recognition *)

(** The table [intentTrainingData] of [initializeTrainingData]. *)
Definition trainingData : list (string * list string) := [
  ("loan_inquiry",
     ["how much loan can i get"; "what is the maximum loan amount";
      "loan amount range"; "borrow money"; "get loan"; "loan amount"]);
  ("application_process",
     ["how to apply"; "application process"; "apply for loan";
      "loan application steps"; "how do i apply"; "application procedure"]);
  ("eligibility",
     ["am i eligible"; "eligibility criteria"; "loan requirements";
      "qualify for loan"; "can i get loan"; "loan criteria"]);
  ("repayment",
     ["how to repay"; "repayment process"; "emi options"; "payment methods";
      "repay loan"; "due date"]);
  ("contact_support",
     ["contact support"; "help me"; "customer service"; "talk to human";
      "phone number"; "email support"]);
  ("greeting",
     ["hello"; "hi"; "hey"; "good morning"; "good evening"; "namaste"]);
  ("gratitude",
     ["thank you"; "thanks"; "appreciate it"; "thank you so much"]);
  ("farewell", ["bye"; "goodbye"; "see you"; "talk later"])
].

Module Intent.
Record t := mk {
  intent : string;
  confidence : Q;
  scores : list (string * Q)
}.
End Intent.

Module Entities.
Record t := mk {
  amounts : list string;
  dates : list string;
  contact_info : list string;
  documents : list string;
  organizations : list string;
  locations : list string
}.
Definition empty : t := mk [] [] [] [] [] [].
Definition setAmounts (e : t) (v : list string) : t :=
  mk v (dates e) (contact_info e) (documents e) (organizations e)
     (locations e).
Definition setDates (e : t) (v : list string) : t :=
  mk (amounts e) v (contact_info e) (documents e) (organizations e)
     (locations e).
Definition setContactInfo (e : t) (v : list string) : t :=
  mk (amounts e) (dates e) v (documents e) (organizations e) (locations e).
Definition setDocuments (e : t) (v : list string) : t :=
  mk (amounts e) (dates e) (contact_info e) v (organizations e)
     (locations e).
Definition setOrganizations (e : t) (v : list string) : t :=
  mk (amounts e) (dates e) (contact_info e) (documents e) v (locations e).
Definition setLocations (e : t) (v : list string) : t :=
  mk (amounts e) (dates e) (contact_info e) (documents e) (organizations e)
     v.
End Entities.

(** The fallback date patterns [/\d{1,2}\/\d{1,2}\/\d{4}/g],
    [/\d{1,2}-\d{1,2}-\d{4}/g] and [/\d{4}-\d{1,2}-\d{1,2}/g]. *)
Definition datePatterns : list Regex :=
  let d12 := Rep isDigit 1 (Some 2) in
  let d4 := Rep isDigit 4 (Some 4) in
  [Seq d12 (Seq (Chr "/") (Seq d12 (Seq (Chr "/") d4)));
   Seq d12 (Seq (Chr "-") (Seq d12 (Seq (Chr "-") d4)));
   Seq d4 (Seq (Chr "-") (Seq d12 (Seq (Chr "-") d12)))].

(** [/(\+91\s?)?[789]\d{9}/g] *)
Definition phonePattern : Regex :=
  Seq (Opt (Seq (Chr "+") (Seq (Chr "9") (Seq (Chr "1") (Opt (Cls isSpace))))))
      (Seq (Cls (inRange 55 57)) (Rep isDigit 9 (Some 9))).

(** [/[a-zA-Z0-9._%+-]+@[a-zA-Z0-9.-]+\.[a-zA-Z]{2,}/g] *)
Definition emailPattern : Regex :=
  let localChar c :=
    isAlpha c || isDigit c
    || existsb (Ascii.eqb c) ["."; "_"; "%"; "+"; "-"]%char in
  let domainChar c :=
    isAlpha c || isDigit c || existsb (Ascii.eqb c) ["."; "-"]%char in
  Seq (Rep localChar 1 None)
      (Seq (Chr "@")
           (Seq (Rep domainChar 1 None)
                (Seq (Chr ".") (Rep isAlpha 2 None)))).

Definition documentKeywords : list string :=
  ["pan"; "aadhaar"; "adhar"; "bank statement"; "salary slip"; "passport"].

Definition stopWords : list string :=
  ["the"; "a"; "an"; "and"; "or"; "but"; "in"; "on"; "at"; "to"; "for"; "of";
   "with"; "by"; "is"; "are"; "was"; "were"; "be"; "been"; "have"; "has";
   "had"; "do"; "does"; "did"; "will"; "would"; "could"; "should"; "may";
   "might"; "can"; "this"; "that"; "these"; "those"; "i"; "you"; "he"; "she";
   "it"; "we"; "they"; "me"; "him"; "her"; "us"; "them"; "what"; "how";
   "when"; "where"; "why"; "who"; "which"].

(** [.sort(([,a], [,b]) => b - a)], a stable sort by falling count. *)
Fixpoint insertByCount (a : string * nat) (sorted : list (string * nat))
  : list (string * nat) :=
  match sorted with
  | [] => [a]
  | b :: rest =>
      if snd b <=? snd a then a :: b :: rest
      else b :: insertByCount a rest
  end.

(** [/^[a-zA-Z]+$/.test(word)] *)
Definition allLetters (word : string) : bool :=
  negb (String.eqb word "")
  && forallb isAlpha (list_ascii_of_string word).

Definition fallbackKeywordExtraction (message : string) (maxKeywords : nat)
  : list string :=
  let words := splitWhitespace (toLowerCase message) in
  let filteredWords :=
    filter
      (fun word =>
         (2 <? String.length word) && negb (arrayIncludes stopWords word)
         && allLetters word)
      words in
  let wordCount := fold_left increment filteredWords [] in
  let sortedWords :=
    map fst (firstn maxKeywords (fold_right insertByCount [] wordCount)) in
  sortedWords.

(** *** Question type, urgency, complexity *)

(** The keys of [questionTypes], each with the pattern [/^key\b/i]. *)
Definition questionTypes : list string :=
  ["what"; "how"; "when"; "where"; "why"; "who"; "which"; "can"; "could";
   "would"; "should"; "is"; "are"; "do"; "does"].

Definition classifyQuestionType (message : string) : string :=
  match find (fun type => testWordPrefix type message) questionTypes with
  | Some type => type
  | None => "statement"
  end.

Module Urgency.
Record t := mk {
  score : Q;
  level : string
}.
End Urgency.

Definition urgentKeywords : list string :=
  ["urgent"; "emergency"; "asap"; "immediately"; "now"; "quick"; "fast";
   "hurry"].

Definition assessUrgency (message : string) (sentiment : Sentiment)
  : Urgency.t :=
  let messageLower := toLowerCase message in
  let urgencyScore :=
    fold_left
      (fun urgencyScore keyword =>
         if includes messageLower keyword then (urgencyScore + 1)%Q
         else urgencyScore)
      urgentKeywords 0%Q in
  let urgencyScore :=
    if gtb (-0.3) (score sentiment) then (urgencyScore + 0.5)%Q
    else urgencyScore in
  Urgency.mk (mathMin urgencyScore 1)
    (if gtb urgencyScore 0.7 then "high"
     else if gtb urgencyScore 0.3 then "medium" else "low").

Module Complexity.
Record t := mk {
  wordCount : nat;
  sentenceCount : nat;
  avgWordsPerSentence : Q;
  complexity : string
}.
End Complexity.

(** The class [[.!?]]. *)
Definition isSentenceEnd (c : ascii) : bool :=
  existsb (Ascii.eqb c) ["."; "!"; "?"]%char.

Definition assessComplexity (message : string) : Complexity.t :=
  let words := length (splitWhitespace message) in
  let sentences := length (splitRuns isSentenceEnd message) in
  let avgWordsPerSentence := (num words / num sentences)%Q in
  Complexity.mk words sentences avgWordsPerSentence
    (if gtb avgWordsPerSentence 15 then "high"
     else if gtb avgWordsPerSentence 10 then "medium" else "low").

(** *** User journey *)

(** [getJourneyStages()] *)
Definition getJourneyStages : list (string * list string) := [
  ("awareness", ["hello"; "hi"; "what is"; "about"; "company"]);
  ("interest", ["loan"; "amount"; "how much"; "interest"; "charges"]);
  ("consideration",
     ["apply"; "process"; "documents"; "eligibility"; "requirements"]);
  ("application", ["apply now"; "start application"; "begin process"]);
  ("post_application", ["status"; "track"; "approved"; "disbursed"]);
  ("support", ["help"; "contact"; "problem"; "issue"])
].

(** [allStages.indexOf(stage)], -1 when absent. *)
Fixpoint indexOf (arr : list string) (x : string) : Z :=
  match arr with
  | [] => (-1)%Z
  | y :: rest =>
      if String.eqb y x then 0%Z
      else let i := indexOf rest x in
           if (i <? 0)%Z then (-1)%Z else (i + 1)%Z
  end.

(** [indices.every((index, i) => i === 0 || index >= indices[i - 1])] *)
Fixpoint nonDecreasing (indices : list Z) : bool :=
  match indices with
  | a :: ((b :: _) as rest) => (a <=? b)%Z && nonDecreasing rest
  | _ => true
  end.

Definition assessDirection (recentStages allStages : list string) : string :=
  if length recentStages <? 2 then "neutral" else
  let stageIndices := map (indexOf allStages) recentStages in
  let isProgressing := nonDecreasing stageIndices in
  if isProgressing then "forward" else "backward".

(** [[...new Set(arr)]]: the first occurrence of every value. *)
Fixpoint unique (arr : list string) : list string :=
  match arr with
  | [] => []
  | x :: rest => x :: filter (fun y => negb (String.eqb y x)) (unique rest)
  end.

Inductive Progression :=
| Starting
| Progress (status : string) (stages : list string) (direction : string).

(** [arr.map(f)] for a function that may throw. *)
Fixpoint mapOutcome {A B} (f : A -> Outcome B) (arr : list A)
  : Outcome (list B) :=
  match arr with
  | [] => ret []
  | a :: rest =>
      b <- f a ;;
      bs <- mapOutcome f rest ;;
      ret (b :: bs)
  end.

Definition analyzeProgression (conversationHistory : list string)
  : Outcome Progression :=
  if length conversationHistory <? 2 then ret Starting else
  let stages :=
    ["awareness"; "interest"; "consideration"; "application";
     "post_application"] in
  recentStages <-
    mapOutcome (fun msg => determineUserStage [msg] getJourneyStages)
               (sliceLast 3 conversationHistory) ;;
  let uniqueStages := unique recentStages in
  let progression :=
    if 1 <? length uniqueStages then "progressing" else "stuck" in
  ret (Progress progression recentStages
                (assessDirection recentStages stages)).

Module Engagement.
Record t := mk {
  messageCount : nat;
  avgMessageLength : option Q;
  followUpQuestions : nat;
  engagement : string
}.
End Engagement.

(** [sum / count]; 0/0 is NaN. *)
Definition average (sum : Q) (count : nat) : option Q :=
  if count =? 0 then None else Some (sum / num count)%Q.

Definition calculateEngagement (conversationHistory : list string)
  : Engagement.t :=
  let messageCount := length conversationHistory in
  let avgMessageLength :=
    average
      (fold_left (fun sum msg => (sum + num (String.length msg))%Q)
                 conversationHistory 0%Q)
      messageCount in
  let followUpQuestions :=
    length
      (filter
         (fun msg => negb (String.eqb (classifyQuestionType msg) "statement"))
         (tl conversationHistory)) in
  Engagement.mk messageCount avgMessageLength followUpQuestions
    (if 5 <? messageCount then "high"
     else if 2 <? messageCount then "medium" else "low").

Module Needs.
Record t := mk {
  information : nat;
  guidance : nat;
  support : nat;
  clarification : nat;
  reassurance : nat
}.
End Needs.

Definition identifyUserNeeds (conversationHistory : list string) : Needs.t :=
  fold_left
    (fun needs msg =>
       let content := toLowerCase msg in
       let questionType := classifyQuestionType content in
       let '(Needs.mk i g s c r) := needs in
       if String.eqb questionType "what" || String.eqb questionType "how"
       then Needs.mk (i + 1) g s c r
       else if String.eqb questionType "can"
               || String.eqb questionType "could"
       then Needs.mk i (g + 1) s c r
       else if includes content "help" || includes content "support"
       then Needs.mk i g (s + 1) c r
       else if String.eqb questionType "why" || includes content "clarify"
       then Needs.mk i g s (c + 1) r
       else if includes content "safe" || includes content "trust"
               || includes content "legitimate"
       then Needs.mk i g s c (r + 1)
       else needs)
    conversationHistory (Needs.mk 0 0 0 0 0).

Inductive UserJourney :=
| NewUser
| Journey (stage : string) (progression : Progression)
          (engagement : Engagement.t) (needs : Needs.t).

Definition analyzeUserJourney (conversationHistory : list string)
  : Outcome UserJourney :=
  if length conversationHistory =? 0 then ret NewUser else
  userStage <- determineUserStage conversationHistory journeyStages ;;
  progression <- analyzeProgression conversationHistory ;;
  ret (Journey userStage progression
               (calculateEngagement conversationHistory)
               (identifyUserNeeds conversationHistory)).

Module Context.
Record t := mk {
  currentIntent : Intent.t;
  entities : Entities.t;
  sentiment : Sentiment;
  keywords : list string;
  conversationLength : nat;
  previousIntents : list Intent.t;
  isFollowUp : bool;
  userMood : string;
  semanticContext : SemanticContext;
  conversationTopic : ConversationTopic;
  userJourney : UserJourney;
  questionType : string;
  urgency : Urgency.t;
  complexity : Complexity.t
}.
End Context.

Section Service.

Context {natural : TfIdfLibrary} {compromise : CompromiseLibrary}.

(** The fields of the service object that its methods use. *)
Record NLPService := mkNLPService {
  tfidf : TfIdf;
  intentTrainingData : list (string * list string)
}.

(** The constructor with [initializeTrainingData]: every phrase of the
    table becomes a document keyed by its intent. *)
Definition newNLPService : NLPService :=
  let intentTrainingData := trainingData in
  let tfidf :=
    fold_left
      (fun tfidf '(intent, phrases) =>
         fold_left (fun tfidf phrase => addDocument tfidf phrase intent)
                   phrases tfidf)
      intentTrainingData newTfIdf in
  mkNLPService tfidf intentTrainingData.

(** A method of the service: it may throw, and it may leave the service
    object changed. *)
Definition Method (A : Type) : Type := NLPService -> Outcome A * NLPService.

#[export] Instance MethodMonad : Monad Method := {
  ret := fun A a this => (Returns a, this);
  bind := fun A B c k this =>
    match c this with
    | (Returns a, this') => k a this'
    | (Throws e, this') => (Throws e, this')
    end
}.

(** A call that does not touch the service object. *)
Definition pure {A} (c : Outcome A) : Method A := fun this => (c, this).

(** [arr.map(f)] for a method [f]. *)
Fixpoint mapMethod {A B} (f : A -> Method B) (arr : list A)
  : Method (list B) :=
  match arr with
  | [] => ret []
  | a :: rest =>
      b <- f a ;;
      bs <- mapMethod f rest ;;
      ret (b :: bs)
  end.

(** The callback of [tfidfs] in [recognizeIntent]. *)
Definition addMeasure (scores : list (string * Q))
    (call : nat * Q * string) : list (string * Q) :=
  let '(i, measure, key) := call in
  set scores key (orZero (get scores key) + measure)%Q.

(** One turn of the loop over [Object.entries(scores)]. *)
Definition bestIntentStep (best : string * Q) (entry : string * Q)
  : string * Q :=
  let '(bestIntent, bestScore) := best in
  let '(intent, score) := entry in
  if gtb score bestScore then (intent, score) else (bestIntent, bestScore).

Definition recognizeIntent (message : string) : Method Intent.t :=
  fun this =>
    let messageLower := toLowerCase message in
    let '(calls, tfidf') := tfidfs (tfidf this) messageLower in
    let scores := fold_left addMeasure calls [] in
    let '(bestIntent, bestScore) :=
      fold_left bestIntentStep scores ("general_inquiry", 0%Q) in
    (Returns (Intent.mk bestIntent bestScore scores),
     mkNLPService tfidf' (intentTrainingData this)).

Definition extractEntities (message : string) : Outcome Entities.t :=
  tryCatch
    (doc <- nlp message ;;
     let entities := Entities.empty in
     entities <-
       tryCatch
         (amounts <- doc_values doc ;;
          ret (Entities.setAmounts entities (orEmpty amounts)))
         (fun error => ret (Entities.setAmounts entities [])) ;;
     entities <-
       tryCatch
         (match doc_dates doc with
          | Some call =>
              dates <- call ;;
              ret (Entities.setDates entities (orEmpty dates))
          | None =>
              let foundDates :=
                fold_left
                  (fun foundDates pattern =>
                     match stringMatch message pattern with
                     | Some matches => foundDates ++ matches
                     | None => foundDates
                     end)
                  datePatterns [] in
              ret (Entities.setDates entities foundDates)
          end)
         (fun error => ret (Entities.setDates entities [])) ;;
     entities <-
       tryCatch
         (match doc_organizations doc with
          | Some call =>
              orgs <- call ;;
              ret (Entities.setOrganizations entities (orEmpty orgs))
          | None => ret (Entities.setOrganizations entities [])
          end)
         (fun error => ret (Entities.setOrganizations entities [])) ;;
     entities <-
       tryCatch
         (match doc_places doc with
          | Some call =>
              places <- call ;;
              ret (Entities.setLocations entities (orEmpty places))
          | None => ret (Entities.setLocations entities [])
          end)
         (fun error => ret (Entities.setLocations entities [])) ;;
     let entities :=
       fold_left
         (fun entities docType =>
            if includes (toLowerCase message) docType
            then Entities.setDocuments entities
                   (Entities.documents entities ++ [docType])
            else entities)
         documentKeywords entities in
     let phones := stringMatch message phonePattern in
     let emails := stringMatch message emailPattern in
     let entities :=
       match phones with
       | Some phones =>
           Entities.setContactInfo entities
             (Entities.contact_info entities ++ phones)
       | None => entities
       end in
     let entities :=
       match emails with
       | Some emails =>
           Entities.setContactInfo entities
             (Entities.contact_info entities ++ emails)
       | None => entities
       end in
     ret entities)
    (fun error => ret Entities.empty).

Definition analyzeSentiment (message : string) : Outcome Sentiment :=
  tryCatch
    (doc <- nlp message ;;
     match doc_sentiment doc with
     | Some call =>
         sentiment <- call ;;
         ret {| score := orZero (lib_score sentiment);
                positive := orZero (lib_positive sentiment);
                negative := orZero (lib_negative sentiment);
                neutral := orZero (lib_neutral sentiment) |}
     | None => ret (fallbackSentimentAnalysis message)
     end)
    (fun error => ret (fallbackSentimentAnalysis message)).

Definition extractKeywords (message : string) (maxKeywords : nat)
  : Outcome (list string) :=
  tryCatch
    (doc <- nlp message ;;
     match doc_keywords doc with
     | Some call =>
         keywords <- call ;;
         ret (firstn maxKeywords keywords)
     | None => ret (fallbackKeywordExtraction message maxKeywords)
     end)
    (fun error => ret (fallbackKeywordExtraction message maxKeywords)).

(** [analyzeUserMood]; its first parameter is not used. *)
Definition analyzeUserMood (sentiment : Sentiment)
    (conversationHistory : list string) : Outcome string :=
  recentSentiments <-
    mapOutcome analyzeSentiment (sliceLast 5 conversationHistory) ;;
  let avgSentiment :=
    average
      (fold_left (fun sum s => (sum + score s)%Q) recentSentiments 0%Q)
      (length recentSentiments) in
  match avgSentiment with
  | Some avg =>
      if gtb avg 0.3 then ret "positive"
      else if gtb (-0.3) avg then ret "negative"
      else ret "neutral"
  | None => ret "neutral"
  end.

Definition understandContext (message : string)
    (conversationHistory : list string) : Method Context.t :=
  intent <- recognizeIntent message ;;
  entities <- pure (extractEntities message) ;;
  sentiment <- pure (analyzeSentiment message) ;;
  keywords <- pure (extractKeywords message 5) ;;
  let semanticContext := analyzeSemanticContext message conversationHistory in
  previousIntents <-
    mapMethod recognizeIntent (sliceLast 3 conversationHistory) ;;
  userMood <- pure (analyzeUserMood sentiment conversationHistory) ;;
  conversationTopic <- pure (identifyConversationTopic conversationHistory) ;;
  userJourney <- pure (analyzeUserJourney conversationHistory) ;;
  ret (Context.mk intent entities sentiment keywords
         (length conversationHistory) previousIntents
         (0 <? length conversationHistory) userMood semanticContext
         conversationTopic userJourney (classifyQuestionType message)
         (assessUrgency message sentiment) (assessComplexity message)).

End Service.

(** *** Pattern matching

    [findBestMatch] and [findPatternMatch]. The similarity measure of the
    package string-similarity is a parameter. A pattern is a keyword or an
    array of keywords. *)

Class SimilarityLibrary := {
  compareTwoStrings : string -> string -> Q
}.

Definition hasWordBoundaryMatch (message keyword : string) : bool :=
  let words := splitWhitespace message in
  let keywordWords := splitWhitespace keyword in
  forallb
    (fun kw => existsb (fun word => includes word kw || includes kw word) words)
    keywordWords.

Inductive Pattern :=
| Keyword (keyword : string)
| Keywords (keywords : list string).

(** [Array.isArray(pattern) ? pattern : [pattern]] *)
Definition keywordsOf (pattern : Pattern) : list string :=
  match pattern with
  | Keyword keyword => [keyword]
  | Keywords keywords => keywords
  end.

(** The result of a match; [matched] is [null] when nothing matched, and
    [matchedVariation] is only set by [findPatternMatch]. *)
Module PatternMatch.
Record t := mk {
  matched : option Pattern;
  confidence : Q;
  matchedVariation : option string
}.
End PatternMatch.

Definition variations : list (string * list string) := [
  ("max loan",
     ["max loan"; "maximum loan"; "highest loan"; "loan range";
      "loan amount range"; "max amount"; "maximum amount"; "highest amount";
      "what max amount"; "what maximum amount"; "what highest amount";
      "max amount anyone can get"; "maximum amount anyone can get"]);
  ("min loan",
     ["min loan"; "minimum loan"; "lowest loan"; "minimum amount";
      "lowest amount"; "what min amount"; "what minimum amount"]);
  ("emi",
     ["emi"; "installment"; "monthly payment"; "partial payment";
      "monthly emi"; "installment payment"]);
  ("salary",
     ["salary"; "income"; "minimum salary"; "salary requirement";
      "income requirement"; "salary needed"; "income needed"]);
  ("repayment",
     ["dont repay"; "don't repay"; "not repay"; "miss payment";
      "late payment"; "default"; "what if not repay"; "don't pay"; "not pay";
      "repayment"; "repay"; "payment"]);
  ("criteria",
     ["criteria"; "eligibility criteria"; "loan criteria"; "requirements";
      "qualification"; "what needed"; "eligible"; "eligibility"]);
  ("reloan",
     ["reloan"; "re loan"; "another loan"; "second loan"; "next loan";
      "take another loan"; "how to take reloan"]);
  ("thank",
     ["thank"; "thank you so much"; "appreciate it"; "much appreciated";
      "thnx"; "thanks"]);
  ("understanding",
     ["got it"; "ok"; "okay"; "alright"; "understood"; "makes sense";
      "i see"; "gotcha"; "cool"; "sounds good"; "noted"; "copy that"]);
  ("closing",
     ["thats all"; "that's all"; "no further questions"; "that helps";
      "will check"; "will try that"; "ill get back"; "i'll get back";
      "talk later"]);
  ("help",
     ["help me"; "help"; "assist"; "support"])
].

(** The nested loops over the variations, left at the first variation that
    the message includes. *)
Fixpoint firstVariation (messageLower : string)
    (groups : list (string * list string)) : option (string * string) :=
  match groups with
  | [] => None
  | (pattern, patternVariations) :: rest =>
      match
        find (fun variation => includes messageLower (toLowerCase variation))
             patternVariations
      with
      | Some variation => Some (pattern, variation)
      | None => firstVariation messageLower rest
      end
  end.

Section Matching.

Context {similarity : SimilarityLibrary}.

(** The body of [keywords.forEach] in [findBestMatch]. *)
Definition matchKeyword (threshold : Q) (messageLower : string)
    (pattern : Pattern) (best : option Pattern * Q) (keyword : string)
  : option Pattern * Q :=
  let '(bestMatch, bestScore) := best in
  let keywordLower := toLowerCase keyword in
  if includes messageLower keywordLower then
    let score := 1.0%Q in
    if gtb score bestScore then (Some pattern, score)
    else (bestMatch, bestScore)
  else if hasWordBoundaryMatch messageLower keywordLower then
    let score := 0.9%Q in
    if gtb score bestScore then (Some pattern, score)
    else (bestMatch, bestScore)
  else
    let similarity := compareTwoStrings messageLower keywordLower in
    if gtb similarity bestScore && geb similarity threshold
    then (Some pattern, similarity)
    else (bestMatch, bestScore).

Definition findBestMatch (userMessage : string) (patterns : list Pattern)
    (threshold : Q) : PatternMatch.t :=
  let messageLower := toLowerCase userMessage in
  let '(bestMatch, bestScore) :=
    fold_left
      (fun best pattern =>
         fold_left (matchKeyword threshold messageLower pattern)
                   (keywordsOf pattern) best)
      patterns (None, 0%Q) in
  PatternMatch.mk bestMatch bestScore None.

Definition findPatternMatch (userMessage : string) (patterns : list Pattern)
  : PatternMatch.t :=
  let messageLower := toLowerCase userMessage in
  match firstVariation messageLower variations with
  | Some (pattern, variation) =>
      PatternMatch.mk (Some (Keyword pattern)) 0.95%Q (Some variation)
  | None => findBestMatch userMessage patterns 0.6%Q
  end.

End Matching.

(** *** Language detection *)

Definition hindiWords : list string :=
  ["namaste"; "dhanyavaad"; "kya"; "kaise"; "kahan"].

Definition englishWords : list string :=
  ["hello"; "thank"; "loan"; "apply"; "help"].

Definition detectLanguage (message : string) : string :=
  let hindiCount :=
    length (filter (fun word => includes (toLowerCase message) word)
                   hindiWords) in
  let englishCount :=
    length (filter (fun word => includes (toLowerCase message) word)
                   englishWords) in
  if englishCount <? hindiCount then "hindi"
  else if hindiCount <? englishCount then "english"
  else "mixed".

End NLP.

(** ** The pattern fallback of [backend/routes/chat.js] *)

Module Chat.

Import NLP.

Record ResponsePattern := mkResponsePattern {
  pattern : string;
  response : string
}.

(** The response texts, as the bytes of the source file. *)
Definition emiResponse : string :=
  "No, we currently don't offer EMI format. However, sometimes we do take payment in partial payments when approved by our team. For regular repayment, you need to pay the full amount on the due date.".

Definition loanAmountResponse : string :=
  "We offer loan amounts ranging from â‚¹5,000 to â‚¹1,00,000 (1 lakh). The exact amount you can borrow depends on your income, credit score, and repayment capacity.".

Definition minimumLoanResponse : string :=
  "The minimum loan amount we offer is â‚¹5,000.".

Definition salaryResponse : string :=
  "The minimum salary requirement to take a loan is â‚¹40,000 per month. This helps ensure you have sufficient income to repay the loan comfortably.".

Definition repaymentResponse : string :=
  "You are obliged to repay the loan. If you don't repay on time, your CIBIL score will decrease, which can affect your future loan applications. To repay, go to your dashboard and click on the repayment button to make the payment.".

Definition criteriaResponse : string :=
  "To get a loan from Fundobaba, you need:

â€¢ CIBIL score greater than 600
â€¢ Salary greater than â‚¹40,000 per month
â€¢ PAN and Aadhaar should be linked
â€¢ 3 months bank statement ready

Make sure you have all these documents handy before applying!".

Definition reloanResponse : string :=
  "To take a reloan:

1. Close your previous loan if you have any active loan
2. Go to your dashboard
3. Click on the reloan button to take the loan

That's it! You can take reloan multiple times if you need to.".

Definition gratitudeResponse : string :=
  "You're most welcome! I'm glad I could help you with Fundobaba's loan services. Feel free to reach out anytime if you have more questions about our quick pay-day loans or application process.".

Definition understandingResponse : string :=
  "Great! I'm glad that helps. Is there anything else you'd like to know about Fundobaba's loan services? I'm here to assist you with any questions about our quick pay-day loans, application process, or other services.".

Definition closingResponse : string :=
  "Perfect! I'm glad I could help you with Fundobaba's services. If you need any assistance with our quick pay-day loans in the future, feel free to reach out. Good luck with your application!".

Definition helpResponse : string :=
  "I'm here to help you with Fundobaba's quick pay-day loan services. How can I assist you today?".

(** The default response of [generatePatternBasedResponse]. *)
Definition defaultResponse : string :=
  "Thank you for your question! I'm here to help you with Fundobaba pay-day loans and services. Could you please be more specific about what you'd like to know? I can help with loan information, application process, terms and conditions, data privacy, regulatory compliance, or any other aspect of our services.".

Definition responsePatterns : list ResponsePattern := [
  mkResponsePattern "emi" emiResponse;
  mkResponsePattern "installment" emiResponse;
  mkResponsePattern "monthly payment" emiResponse;
  mkResponsePattern "max loan" loanAmountResponse;
  mkResponsePattern "maximum loan" loanAmountResponse;
  mkResponsePattern "highest loan" loanAmountResponse;
  mkResponsePattern "loan range" loanAmountResponse;
  mkResponsePattern "max amount" loanAmountResponse;
  mkResponsePattern "maximum amount" loanAmountResponse;
  mkResponsePattern "highest amount" loanAmountResponse;
  mkResponsePattern "min loan" minimumLoanResponse;
  mkResponsePattern "minimum loan" minimumLoanResponse;
  mkResponsePattern "lowest loan" minimumLoanResponse;
  mkResponsePattern "min amount" minimumLoanResponse;
  mkResponsePattern "minimum amount" minimumLoanResponse;
  mkResponsePattern "salary" salaryResponse;
  mkResponsePattern "income" salaryResponse;
  mkResponsePattern "minimum salary" salaryResponse;
  mkResponsePattern "salary requirement" salaryResponse;
  mkResponsePattern "income requirement" salaryResponse;
  mkResponsePattern "dont repay" repaymentResponse;
  mkResponsePattern "don't repay" repaymentResponse;
  mkResponsePattern "not repay" repaymentResponse;
  mkResponsePattern "miss payment" repaymentResponse;
  mkResponsePattern "late payment" repaymentResponse;
  mkResponsePattern "default" repaymentResponse;
  mkResponsePattern "criteria" criteriaResponse;
  mkResponsePattern "eligibility criteria" criteriaResponse;
  mkResponsePattern "loan criteria" criteriaResponse;
  mkResponsePattern "requirements" criteriaResponse;
  mkResponsePattern "qualification" criteriaResponse;
  mkResponsePattern "what needed" criteriaResponse;
  mkResponsePattern "eligible" criteriaResponse;
  mkResponsePattern "reloan" reloanResponse;
  mkResponsePattern "re loan" reloanResponse;
  mkResponsePattern "another loan" reloanResponse;
  mkResponsePattern "second loan" reloanResponse;
  mkResponsePattern "next loan" reloanResponse;
  mkResponsePattern "take another loan" reloanResponse;
  mkResponsePattern "how to take reloan" reloanResponse;
  mkResponsePattern "thank" gratitudeResponse;
  mkResponsePattern "thank you so much" gratitudeResponse;
  mkResponsePattern "appreciate it" gratitudeResponse;
  mkResponsePattern "much appreciated" gratitudeResponse;
  mkResponsePattern "thnx" gratitudeResponse;
  mkResponsePattern "thanks" gratitudeResponse;
  mkResponsePattern "got it" understandingResponse;
  mkResponsePattern "ok" understandingResponse;
  mkResponsePattern "okay" understandingResponse;
  mkResponsePattern "alright" understandingResponse;
  mkResponsePattern "understood" understandingResponse;
  mkResponsePattern "makes sense" understandingResponse;
  mkResponsePattern "i see" understandingResponse;
  mkResponsePattern "gotcha" understandingResponse;
  mkResponsePattern "cool" understandingResponse;
  mkResponsePattern "sounds good" understandingResponse;
  mkResponsePattern "noted" understandingResponse;
  mkResponsePattern "copy that" understandingResponse;
  mkResponsePattern "thats all" closingResponse;
  mkResponsePattern "that's all" closingResponse;
  mkResponsePattern "no further questions" closingResponse;
  mkResponsePattern "that helps" closingResponse;
  mkResponsePattern "will check" closingResponse;
  mkResponsePattern "will try that" closingResponse;
  mkResponsePattern "ill get back" closingResponse;
  mkResponsePattern "i'll get back" closingResponse;
  mkResponsePattern "talk later" closingResponse;
  mkResponsePattern "help me" helpResponse;
  mkResponsePattern "help" helpResponse;
  mkResponsePattern "assist" helpResponse;
  mkResponsePattern "support" helpResponse
].

(** [arr.find(p)]; [None] is [undefined]. *)
Definition arrayFind {A} (p : A -> bool) (arr : list A) : option A :=
  find p arr.

Definition generatePatternBasedResponse (userMessage : string)
  : Outcome string :=
  let patterns := map pattern responsePatterns in
  let bestMatch := selectBestResponse userMessage patterns 0.3%Q in
  match bestMatch with
  | Some bestMatch =>
      match
        arrayFind (fun rp => String.eqb (pattern rp) (Best.pattern bestMatch))
                  responsePatterns
      with
      | Some selectedResponse => Returns (response selectedResponse)
      | None =>
          Throws "TypeError: Cannot read properties of undefined"
      end
  | None => Returns defaultResponse
  end.

(** *** Contextual responses *)

(** The double quote, for the response texts that contain one. *)
Definition dquote : string := String (ascii_of_nat 34) EmptyString.

Definition whatFundobaba : string :=
  "Fundobaba is a leading digital lending platform backed by RBI-registered NBFC UY Fincorp. We specialize in quick pay-day loans that are fast, safe, and hassle-free. Our mission is to provide instant financial assistance when you need it most.".

Definition whatDocuments : string :=
  "For a Fundobaba loan, you only need:

â€¢ Mobile number
â€¢ PAN number
â€¢ Aadhaar number
â€¢ Last 3 months bank statement

That's it! We don't even need photos of your PAN or Aadhaar cards - just the numbers. We keep it super simple and hassle-free!".

Definition whatAmount : string :=
  "At Fundobaba, we offer pay-day loans ranging from â‚¹5,000 to â‚¹1,00,000 (1 lakh). The exact amount you can borrow depends on your income, credit history, and repayment capacity. Our quick assessment process helps determine the best loan amount for your needs.".

Definition whatInterest : string :=
  "Our pay-day loan interest rates are competitive and transparent. Rates typically range from 1% per month depending on the loan amount and tenure. We believe in complete transparency - all charges are clearly communicated upfront with no hidden fees.".

Definition whatProcess : string :=
  "Applying for a Fundobaba pay-day loan is incredibly simple and fast! Here's our streamlined process:

1. Enter your mobile number, PAN number, and Aadhaar number
2. Upload your last 3 months bank statement
3. Complete e-KYC verification
4. E-sign the transparent loan document showing all terms
5. Get loan disbursed in less than 5 minutes!

That's it! No complex paperwork, no document photos needed - just a few simple steps and you get your loan instantly!".

Definition howApply : string :=
  "To apply for a Fundobaba loan:

1. Visit fundobaba.com or download our mobile app
2. Click "
  ++ dquote
  ++ "Apply Now"
  ++ dquote
  ++ " and enter your PAN and mobile number
3. Verify OTP and complete your profile
4. Upload your 3-month bank statement
5. Complete e-KYC verification
6. E-sign the transparent loan document
7. Get instant approval and disbursal in under 5 minutes!

It's that simple! No complex paperwork or lengthy processes.".

Definition howMuch : string :=
  "You can borrow between â‚¹5,000 to â‚¹1,00,000 (1 lakh) from Fundobaba. The exact amount depends on your income, credit score, and repayment capacity. Our system will show you the maximum amount you're eligible for during the application process.".

Definition howLong : string :=
  "The complete application process takes just 5 minutes! Our e-KYC verification is instant, and once you e-sign the transparent loan document, your loan gets disbursed in less than 5 minutes. No waiting, no delays!".

Definition howRepay : string :=
  "Repaying your Fundobaba loan is easy:

1. Go to your dashboard in the app or website
2. Click on the "
  ++ dquote
  ++ "Repay"
  ++ dquote
  ++ " button
3. Choose your payment method (UPI, net banking, etc.)
4. Complete the payment

You can also repay early if you want to save on interest charges. The repayment date is clearly mentioned in your loan agreement.".

Definition canGetLoan : string :=
  "Yes, you can get a loan from Fundobaba if you meet our eligibility criteria:

â€¢ Age: 21-65 years
â€¢ Indian resident with valid ID
â€¢ Regular income source
â€¢ Active bank account
â€¢ Good credit history (we also consider first-time borrowers)

We have flexible eligibility criteria to help more people access quick loans.".

Definition canApply : string :=
  "Absolutely! You can apply for a Fundobaba loan right now. Our application process is 100% online and takes just 5 minutes. You can apply through our website or mobile app anytime, anywhere. No need to visit any office or meet anyone in person.".

Definition canRepayEarly : string :=
  "Yes, you can repay your loan early! Early repayment is encouraged and may have benefits like improved credit score. You can make early repayment through your dashboard using UPI, net banking, or other digital payment methods.".

Definition whyFundobaba : string :=
  "Fundobaba stands out because:

â€¢ Instant approval and disbursal in under 5 minutes
â€¢ Minimal documentation - just PAN, Aadhaar, and bank statement
â€¢ Transparent terms with no hidden charges
â€¢ Backed by RBI-registered NBFC UY Fincorp
â€¢ 24/7 digital platform
â€¢ Excellent customer support
â€¢ Loyalty points and referral rewards

We make borrowing simple, fast, and trustworthy!".

Definition whyPan : string :=
  "PAN and Aadhaar are required because:

â€¢ They are mandatory for KYC verification as per RBI regulations
â€¢ They help us verify your identity quickly and securely
â€¢ They are linked to your bank account for loan disbursal
â€¢ They ensure compliance with financial regulations
â€¢ They help prevent fraud and money laundering

This is standard practice for all financial institutions in India.".

Definition loanInquiryAwareness : string :=
  "Great question! Fundobaba offers quick pay-day loans ranging from â‚¹5,000 to â‚¹1,00,000. We're backed by RBI-registered NBFC UY Fincorp, so you can trust us completely. Our loans are designed to help you bridge financial gaps until your next paycheck. Would you like to know more about our application process?".

Definition loanInquiryUrgent : string :=
  "I understand you need quick financial assistance! Fundobaba is perfect for urgent needs - we can disburse loans in under 5 minutes once approved. Our application process is super fast and requires minimal documentation. Would you like to start your application now?".

Definition loanInquiryDefault : string :=
  "At Fundobaba, we offer pay-day loans ranging from â‚¹5,000 to â‚¹1,00,000 (1 lakh). The exact amount you can borrow depends on your income, credit score, and repayment capacity. Our quick assessment process helps determine the best loan amount for your needs.".

Definition applicationConsideration : string :=
  "Perfect! You're ready to apply. Our process is incredibly simple:

1. Enter your mobile number, PAN number, and Aadhaar number
2. Upload your last 3 months bank statement
3. Complete e-KYC verification
4. E-sign the transparent loan document showing all terms
5. Get loan disbursed in less than 5 minutes!

No complex paperwork, no document photos needed - just a few simple steps!".

Definition applicationDefault : string :=
  "Applying for a Fundobaba pay-day loan is incredibly simple and fast! Here's our streamlined process:

1. Enter your mobile number, PAN number, and Aadhaar number
2. Upload your last 3 months bank statement
3. Complete e-KYC verification
4. E-sign the transparent loan document showing all terms
5. Get loan disbursed in less than 5 minutes!

That's it! No complex paperwork, no document photos needed - just a few simple steps and you get your loan instantly!".

Definition eligibilityInterest : string :=
  "To qualify for a Fundobaba pay-day loan, you need:

â€¢ Age: 21-65 years
â€¢ Indian resident with valid ID
â€¢ Regular income source
â€¢ Active bank account
â€¢ Good credit history (we also consider first-time borrowers)

We have flexible eligibility criteria to help more people access quick loans. Would you like to check if you're eligible?".

Definition documentsConsideration : string :=
  "For your application, you'll need:

â€¢ Mobile number
â€¢ PAN number
â€¢ Aadhaar number
â€¢ Last 3 months bank statement

That's it! We don't even need photos of your PAN or Aadhaar cards - just the numbers. We keep it super simple and hassle-free!".

Definition documentsDefault : string :=
  "For a Fundobaba loan, you only need:

â€¢ Mobile number
â€¢ PAN number
â€¢ Aadhaar number
â€¢ Last 3 months bank statement

That's it! We don't even need photos of your PAN or Aadhaar cards - just the numbers. We keep it super simple and hassle-free!".

Definition repaymentPostApplication : string :=
  "To repay your loan:

1. Go to your dashboard in the app or website
2. Click on the "
  ++ dquote
  ++ "Repay"
  ++ dquote
  ++ " button
3. Choose your payment method (UPI, net banking, etc.)
4. Complete the payment

You can also repay early if you want to save on interest charges. The repayment date is clearly mentioned in your loan agreement.".

Definition repaymentDefault : string :=
  "We'll show you the repayment date of your loan on the loan document. And if you have received the loan, just visit your dashboard and check the repayment date of your loan. Click on the repayment button to make the repayment.".

Definition interestInterest : string :=
  "Our interest rates are competitive and transparent:

â€¢ Starting from 1% per month
â€¢ No hidden charges
â€¢ All fees clearly communicated upfront
â€¢ Transparent loan document shows all terms

We believe in complete transparency - you'll see exactly what you're paying before you sign.".

Definition interestDefault : string :=
  "Our pay-day loan interest rates are competitive and transparent. Rates typically range from 1% per month depending on the loan amount and tenure. We believe in complete transparency - all charges are clearly communicated upfront with no hidden fees.".

Definition companyAwareness : string :=
  "Fundobaba is a leading digital lending platform backed by RBI-registered NBFC UY Fincorp. We specialize in quick pay-day loans that are fast, safe, and hassle-free. Our mission is to provide instant financial assistance when you need it most. We're completely legitimate and regulated by RBI.".

Definition companyDefault : string :=
  "Fundobaba is a leading digital lending platform backed by RBI-registered NBFC UY Fincorp. We specialize in quick pay-day loans that are fast, safe, and hassle-free. Our mission is to provide instant financial assistance when you need it most.".

Definition supportUrgent : string :=
  "For urgent support, please call us immediately at +91 8882400700. Our support team is available from 09:00 AM to 05:30 PM (Monday to Saturday). For general queries, you can also email us at support@fundobaba.com.".

Definition supportDefault : string :=
  "Call Support: +91 8882400700
Email Support: support@fundobaba.com
For general queries: info@fundobaba.com
Customer Support Hours: 09:00 AM to 05:30 PM (Monday to Saturday)
Grievance Officer: Swati Aggarwal (+91-8655367146, grievance@fundobaba.com)

Corporate Office:
Vaman Techno Centre B-Wing, Ground Floor,
Marol Naka, Makwana Road
Off Andheri-Kurla Road, Andheri East,
Mumbai, 400059".

Definition technicalIssuesText : string :=
  "I'm sorry you're experiencing technical issues. Please try:

1. Refreshing the page or restarting the app
2. Clearing your browser cache
3. Checking your internet connection

If the problem persists, please contact our technical support at +91 8882400700 or email us at support@fundobaba.com. We'll help you resolve the issue quickly.".

Definition loanStatusText : string :=
  "You can check your loan status through your dashboard on the website or mobile app. Statuses include: Applied, Under Review, Approved, Disbursed, Active, and Closed. You can download your sanction letter and other loan documents from your dashboard.".

(** [userJourney.stage === stage]; the journey of an empty history is the
    string ['new_user'], which has no stage. *)
Definition stageIs (userJourney : UserJourney) (stage : string) : bool :=
  match userJourney with
  | NewUser => false
  | Journey s _ _ _ => String.eqb s stage
  end.

Definition handleWhatQuestions (userMessage : string)
    (semanticContext : SemanticContext) (userJourney : UserJourney)
  : option string :=
  let message := toLowerCase userMessage in
  if includes message "what is fundobaba" || includes message "what is this"
  then Some whatFundobaba
  else if includes message "what documents" || includes message "what papers"
          || includes message "what do i need"
  then Some whatDocuments
  else if includes message "what amount"
          || includes message "what loan amount"
          || includes message "how much can i get"
          || includes message "what max amount"
          || includes message "what maximum amount"
          || includes message "what highest amount"
  then Some whatAmount
  else if includes message "what interest" || includes message "what rate"
          || includes message "what charges"
  then Some whatInterest
  else if includes message "what is the process"
          || includes message "what are the steps"
  then Some whatProcess
  else None.

Definition handleHowQuestions (userMessage : string)
    (semanticContext : SemanticContext) (userJourney : UserJourney)
  : option string :=
  let message := toLowerCase userMessage in
  if includes message "how to apply" || includes message "how do i apply"
  then Some howApply
  else if includes message "how much"
          && (includes message "loan" || includes message "borrow")
  then Some howMuch
  else if includes message "how long"
          && (includes message "process" || includes message "time")
  then Some howLong
  else if includes message "how to repay" || includes message "how do i pay"
  then Some howRepay
  else None.

Definition handleCapabilityQuestions (userMessage : string)
    (semanticContext : SemanticContext) (userJourney : UserJourney)
  : option string :=
  let message := toLowerCase userMessage in
  if includes message "can i get" && includes message "loan"
  then Some canGetLoan
  else if includes message "can i apply" || includes message "can i borrow"
  then Some canApply
  else if includes message "can i repay early"
          || includes message "can i pay before"
  then Some canRepayEarly
  else None.

Definition handleWhyQuestions (userMessage : string)
    (semanticContext : SemanticContext) (userJourney : UserJourney)
  : option string :=
  let message := toLowerCase userMessage in
  if includes message "why fundobaba" || includes message "why choose"
  then Some whyFundobaba
  else if includes message "why pan" || includes message "why aadhaar"
  then Some whyPan
  else None.

Definition handleLoanInquiry (userMessage : string) (context : Context.t)
    (messageHistory : list string) : string :=
  let userJourney := Context.userJourney context in
  let urgency := Context.urgency context in
  if stageIs userJourney "awareness" then loanInquiryAwareness
  else if String.eqb (Urgency.level urgency) "high" then loanInquiryUrgent
  else loanInquiryDefault.

Definition handleApplicationProcess (userMessage : string)
    (context : Context.t) (messageHistory : list string) : string :=
  if stageIs (Context.userJourney context) "consideration"
  then applicationConsideration
  else applicationDefault.

Definition handleEligibility (userMessage : string) (context : Context.t)
    (messageHistory : list string) : string :=
  if stageIs (Context.userJourney context) "interest"
  then eligibilityInterest
  else criteriaResponse.

Definition handleDocuments (userMessage : string) (context : Context.t)
    (messageHistory : list string) : string :=
  if stageIs (Context.userJourney context) "consideration"
  then documentsConsideration
  else documentsDefault.

Definition handleRepayment (userMessage : string) (context : Context.t)
    (messageHistory : list string) : string :=
  if stageIs (Context.userJourney context) "post_application"
  then repaymentPostApplication
  else repaymentDefault.

Definition handleInterestCharges (userMessage : string) (context : Context.t)
    (messageHistory : list string) : string :=
  if stageIs (Context.userJourney context) "interest"
  then interestInterest
  else interestDefault.

Definition handleCompanyInfo (userMessage : string) (context : Context.t)
    (messageHistory : list string) : string :=
  if stageIs (Context.userJourney context) "awareness"
  then companyAwareness
  else companyDefault.

Definition handleSupportContact (userMessage : string) (context : Context.t)
    (messageHistory : list string) : string :=
  if String.eqb (Urgency.level (Context.urgency context)) "high"
  then supportUrgent
  else supportDefault.

Definition handleTechnicalIssues (userMessage : string) (context : Context.t)
    (messageHistory : list string) : string :=
  technicalIssuesText.

Definition handleLoanStatus (userMessage : string) (context : Context.t)
    (messageHistory : list string) : string :=
  loanStatusText.

(** [semanticContext.category === name] *)
Definition categoryIs (semanticContext : SemanticContext) (name : string)
  : bool :=
  match category semanticContext with
  | Some c => String.eqb c name
  | None => false
  end.

(** [generateContextualResponse]; [None] is [null]. *)
Definition generateContextualResponse (userMessage : string)
    (context : Context.t) (messageHistory : list string) : option string :=
  let semanticContext := Context.semanticContext context in
  let userJourney := Context.userJourney context in
  let questionType := Context.questionType context in
  if String.eqb questionType "what"
  then handleWhatQuestions userMessage semanticContext userJourney
  else if String.eqb questionType "how"
  then handleHowQuestions userMessage semanticContext userJourney
  else if String.eqb questionType "can" || String.eqb questionType "could"
  then handleCapabilityQuestions userMessage semanticContext userJourney
  else if String.eqb questionType "why"
  then handleWhyQuestions userMessage semanticContext userJourney
  else if categoryIs semanticContext "loan_inquiry"
  then Some (handleLoanInquiry userMessage context messageHistory)
  else if categoryIs semanticContext "application_process"
  then Some (handleApplicationProcess userMessage context messageHistory)
  else if categoryIs semanticContext "eligibility"
  then Some (handleEligibility userMessage context messageHistory)
  else if categoryIs semanticContext "documents"
  then Some (handleDocuments userMessage context messageHistory)
  else if categoryIs semanticContext "repayment"
  then Some (handleRepayment userMessage context messageHistory)
  else if categoryIs semanticContext "interest_charges"
  then Some (handleInterestCharges userMessage context messageHistory)
  else if categoryIs semanticContext "company_info"
  then Some (handleCompanyInfo userMessage context messageHistory)
  else if categoryIs semanticContext "support_contact"
  then Some (handleSupportContact userMessage context messageHistory)
  else if categoryIs semanticContext "technical_issues"
  then Some (handleTechnicalIssues userMessage context messageHistory)
  else if categoryIs semanticContext "loan_status"
  then Some (handleLoanStatus userMessage context messageHistory)
  else if includes (toLowerCase userMessage) "emi"
          || includes (toLowerCase userMessage) "installment"
          || includes (toLowerCase userMessage) "monthly payment"
  then Some emiResponse
  else None.

Section Route.

Context {natural : TfIdfLibrary} {compromise : CompromiseLibrary}.

(** [generateFundobabaResponse]: the contextual response when there is a
    non-empty one, else the pattern-based response. *)
Definition generateFundobabaResponse (userMessage : string)
    (messageHistory : list string) : Method string :=
  intent <- recognizeIntent userMessage ;;
  entities <- pure (extractEntities userMessage) ;;
  sentiment <- pure (analyzeSentiment userMessage) ;;
  context <- understandContext userMessage messageHistory ;;
  let response :=
    generateContextualResponse userMessage context messageHistory in
  match response with
  | Some response =>
      if String.eqb response "" then
        pure (generatePatternBasedResponse userMessage)
      else ret response
  | None => pure (generatePatternBasedResponse userMessage)
  end.

End Route.

End Chat.

(** ** Stand-ins for the libraries

    Small implementations of the two library interfaces, used to run the
    service on examples. The index scores a document by the number of query
    words it shares and counts the queries it has answered; the document
    parser has no [dates], [sentiment] or [keywords] method and its
    [values] call throws. *)

Module Reference.

Import NLP.

Record Index := mkIndex {
  docs : list (string * string);
  queries : nat
}.

Definition overlap (terms text : string) : Q :=
  num (length (filter (arrayIncludes (splitWhitespace text))
                      (splitWhitespace terms))).

Fixpoint callsFrom (terms : string) (docs : list (string * string))
    (i : nat) : list (nat * Q * string) :=
  match docs with
  | [] => []
  | (text, key) :: rest =>
      (i, overlap terms text, key) :: callsFrom terms rest (S i)
  end.

Definition index : TfIdfLibrary := {|
  TfIdf := Index;
  newTfIdf := mkIndex [] 0;
  addDocument := fun t text key => mkIndex (docs t ++ [(text, key)]) (queries t);
  documentKeys := fun t => map snd (docs t);
  tfidfs := fun t terms =>
    (callsFrom terms (docs t) 0, mkIndex (docs t) (S (queries t)))
|}.

Definition parser : CompromiseLibrary := {|
  Doc := string;
  nlp := fun message => Returns message;
  doc_values := fun _ =>
    Throws "TypeError: doc.values(...).toNumber is not a function";
  doc_dates := fun _ => None;
  doc_organizations := fun _ => Some (Returns None);
  doc_places := fun _ => Some (Returns (Some []));
  doc_sentiment := fun _ => None;
  doc_keywords := fun _ => None
|}.

(** A similarity that only recognises equal strings. *)
Definition similarity : SimilarityLibrary := {|
  compareTwoStrings := fun first second =>
    if String.eqb first second then 1%Q else 0%Q
|}.

End Reference.

(** ** Vocabulary of the specification *)

Import NLP Chat.

Module Spec.

Definition sumQ (l : list Q) : Q := fold_right Qplus 0%Q l.

(** The number of entries of a keyword table that occur in a lower-cased
    message (an entry declared twice counts twice). *)
Definition keywordHits (messageLower : string) (kws : list string) : nat :=
  length (filter (includes messageLower) kws).

(** Confidence of a category: keyword hits over the size of the table. *)
Definition categoryConfidence (message : string) (data : SemanticCategory)
  : Q :=
  (num (keywordHits (toLowerCase message) (keywords data))
   / num (length (keywords data)))%Q.

(** [x] is the first entry of [l] with the greatest value of [f]. *)
Definition FirstMax {A} (f : A -> Q) (l : list A) (x : A) : Prop :=
  exists before after,
    l = before ++ x :: after /\
    (forall y, In y before -> (f y < f x)%Q) /\
    (forall y, In y after -> (f y <= f x)%Q).

(** [x] is the last entry of [l] with the greatest value of [f]. *)
Definition LastMax {A} (f : A -> nat) (l : list A) (x : A) : Prop :=
  exists before after,
    l = before ++ x :: after /\
    (forall y, In y before -> f y <= f x) /\
    (forall y, In y after -> f y < f x).

(** [x] is the first entry of [l] with the greatest value of [f],
    for natural-valued [f]. *)
Definition FirstMaxNat {A} (f : A -> nat) (l : list A) (x : A) : Prop :=
  exists before after,
    l = before ++ x :: after /\
    (forall y, In y before -> f y < f x) /\
    (forall y, In y after -> f y <= f x).

(** The keyword hits of a journey stage over the last three messages. *)
Definition stageHits (history : list string) (entry : string * list string)
  : nat :=
  list_sum
    (map (fun msg => keywordHits (toLowerCase msg) (snd entry))
         (sliceLast 3 history)).

(** [stage] is the stage of the journey table with the most keyword hits,
    the later one of the table on a tie. *)
Definition StageIsLatestBest (history : list string) (stage : string)
  : Prop :=
  exists entry,
    fst entry = stage /\ LastMax (stageHits history) journeyStages entry.

(** [stage] is the stage of the journey table with the most keyword hits,
    the earlier one of the table on a tie. *)
Definition StageIsEarliestBest (history : list string) (stage : string)
  : Prop :=
  exists entry,
    fst entry = stage /\ FirstMaxNat (stageHits history) journeyStages entry.

(** How many of the last five messages the matcher puts in a category. *)
Definition categoryFrequency (history : list string) (name : string) : nat :=
  length
    (filter
       (fun msg =>
          match category (analyzeSemanticContext msg []) with
          | Some c => String.eqb c name
          | None => false
          end)
       (sliceLast 5 history)).

(** *** Response scoring *)

(** A message word and a pattern word match partially when one contains
    the other. *)
Definition partialPair (word msgWord : string) : bool :=
  includes msgWord word || includes word msgWord.

(** The number of message words that match a pattern word partially. *)
Definition partialHits (messageWords : list string) (word : string) : nat :=
  length (filter (partialPair word) messageWords).

(** What one partial match of a pattern word adds to the total score. *)
Definition partialWeight (word : string) : Q :=
  match get importantKeywords word with
  | Some weight => (weight * 0.7)%Q
  | None =>
      match get commonWords word with
      | None => 0.7%Q
      | Some _ => 0%Q
      end
  end.

(** What the exact word pass adds to the total score for a pattern word. *)
Definition wordGain (messageWords : list string) (word : string) : Q :=
  fst (wordMatch messageWords (0%Q, 0) word).

(** What the partial pass adds to the total score for a pattern word. *)
Definition partialGain (messageWords : list string) (word : string) : Q :=
  partialMatch messageWords 0%Q word.

(** A pattern shares a word with the message, exactly or partially. *)
Definition sharesWord (messageWords : list string) (pattern : string) : bool :=
  existsb
    (fun word => existsb (partialPair word) messageWords)
    (splitWhitespace (toLowerCase pattern)).

(** A keyword-free message: it has no interrogative, contains no pattern,
    and none of its words contains or is contained in a pattern word. *)
Definition keywordFree (message : string) (patterns : list string) : bool :=
  let messageLower := toLowerCase message in
  negb (questionBonus messageLower)
  && forallb
       (fun pattern =>
          negb (includes messageLower (toLowerCase pattern))
          && negb (sharesWord (splitWhitespace messageLower) pattern))
       patterns.

(** The patterns of the chat route. *)
Definition chatPatterns : list string := map Chat.pattern responsePatterns.

(** No key of the list contains a comma. *)
Definition commaFree (keys : list string) : Prop :=
  forall k, In k keys -> includes k "," = false.

(** The shape shared by the best-category and best-intent loops: keep the
    running best unless the new score is strictly greater. *)
Definition strictStep {A B} (key : A -> B) (f : A -> Q)
    (best : B * Q) (x : A) : B * Q :=
  if gtb (f x) (snd best) then (key x, f x) else best.

(** *** Entity extraction *)

(** The container that a guarded sub-extraction leaves: the result of the
    library call ([[]] for [undefined]), [fallback] when the library has no
    such method, and the empty container when the call throws. *)
Definition containerOf (call : option (Outcome (option (list string))))
    (fallback : list string) : list string :=
  match call with
  | None => fallback
  | Some (Returns value) => orEmpty value
  | Some (Throws _) => []
  end.

(** The matches of the three date patterns, pattern by pattern. *)
Definition regexDates (message : string) : list string :=
  flat_map (fun pattern => orEmpty (stringMatch message pattern))
           datePatterns.

(** *** Intent recognition *)

(** The intents in the order of the training table. *)
Definition intents : list string := map fst trainingData.

(** The keys of the documents that the constructor adds, in order. *)
Definition trainingKeys : list string :=
  flat_map (fun entry => map (fun _ => fst entry) (snd entry)) trainingData.

(** The aggregate score of an intent: the sum of the measures of the
    documents keyed by it. *)
Definition aggregateScore (calls : list (nat * Q * string)) (intent : string)
  : Q :=
  sumQ (map (fun call => snd (fst call))
            (filter (fun call => String.eqb (snd call) intent) calls)).

(** The keys of an object after an assignment to [key]. *)
Definition addKey (keys : list string) (key : string) : list string :=
  if arrayIncludes keys key then keys else keys ++ [key].

(** *** Further vocabulary *)

(** The question types that [generateContextualResponse] answers through a
    question handler. *)
Definition handledQuestion (questionType : string) : bool :=
  String.eqb questionType "what" || String.eqb questionType "how"
  || String.eqb questionType "can" || String.eqb questionType "could"
  || String.eqb questionType "why".

(** The answer of the question handler for a handled question type. *)
Definition questionHandler (questionType userMessage : string)
    (context : Context.t) : option string :=
  let semanticContext := Context.semanticContext context in
  let userJourney := Context.userJourney context in
  if String.eqb questionType "what"
  then handleWhatQuestions userMessage semanticContext userJourney
  else if String.eqb questionType "how"
  then handleHowQuestions userMessage semanticContext userJourney
  else if String.eqb questionType "can" || String.eqb questionType "could"
  then handleCapabilityQuestions userMessage semanticContext userJourney
  else handleWhyQuestions userMessage semanticContext userJourney.

(** All elements of a list are equal. *)
Definition allEqual (l : list string) : Prop :=
  forall x y, In x l -> In y l -> x = y.

(** The strings that a regular expression of the fragment matches. *)
Inductive Matches : Regex -> string -> Prop :=
| MatchesEps : Matches Eps ""
| MatchesChr c : Matches (Chr c) (String c "")
| MatchesCls (p : ascii -> bool) c :
    p c = true -> Matches (Cls p) (String c "")
| MatchesSeq r1 r2 s1 s2 :
    Matches r1 s1 -> Matches r2 s2 ->
    Matches (Seq r1 r2) (String.append s1 s2)
| MatchesOptNone r : Matches (Opt r) ""
| MatchesOptSome r s : Matches r s -> Matches (Opt r) s
| MatchesRep (p : ascii -> bool) min max s :
    forallb p (list_ascii_of_string s) = true ->
    min <= String.length s ->
    (forall m, max = Some m -> String.length s <= m) ->
    Matches (Rep p min max) s.

(** A mobile number as [phonePattern] accepts it: an optional [+91] with an
    optional white space, a digit from 7 to 9 and nine more digits. *)
Definition phoneShape (s : string) : Prop :=
  exists prefix d rest,
    s = String.append prefix (String d rest) /\
    (prefix = "" \/ prefix = "+91" \/
     exists c,
       isSpace c = true /\ prefix = String.append "+91" (String c "")) /\
    inRange 55 57 d = true /\
    String.length rest = 9 /\
    forallb isDigit (list_ascii_of_string rest) = true.

(** The number of times a word occurs in a list of words. *)
Definition occurrences (words : list string) (word : string) : nat :=
  count_occ string_dec words word.

(** The words that [fallbackKeywordExtraction] counts. *)
Definition keywordCandidates (message : string) : list string :=
  filter
    (fun word =>
       (2 <? String.length word) && negb (arrayIncludes stopWords word)
       && allLetters word)
    (splitWhitespace (toLowerCase message)).

(** A method that returns on every service object, with a result that
    satisfies [P]. *)
Definition Returning {natural : TfIdfLibrary} {A} (c : Method A)
    (P : A -> Prop) : Prop :=
  forall this, exists a this', c this = (Returns a, this') /\ P a.

(** The counter of an object of counters, 0 for a key that is not there. *)
Definition counter (obj : list (string * nat)) (key : string) : nat :=
  match get obj key with
  | Some v => v
  | None => 0
  end.

(** What a keyword of a pattern guarantees for the confidence [c] that
    [findBestMatch] reports. *)
Definition keywordFloor {similarity : SimilarityLibrary} (threshold : Q)
    (messageLower keyword : string) (c : Q) : Prop :=
  (includes messageLower (toLowerCase keyword) = true -> (1 <= c)%Q) /\
  (hasWordBoundaryMatch messageLower (toLowerCase keyword) = true ->
   (0.9 <= c)%Q) /\
  (includes messageLower (toLowerCase keyword) = false ->
   hasWordBoundaryMatch messageLower (toLowerCase keyword) = false ->
   (threshold <= compareTwoStrings messageLower (toLowerCase keyword))%Q ->
   (compareTwoStrings messageLower (toLowerCase keyword) <= c)%Q).

(** The context of a first message when the parser offers none of the
    optional methods: no intent, no entities, the fallback sentiment. *)
Definition fallbackContext (message : string) : Context.t :=
  let sentiment := fallbackSentimentAnalysis message in
  Context.mk (Intent.mk "general_inquiry" 0%Q []) Entities.empty sentiment
    (fallbackKeywordExtraction message 5) 0 [] false "neutral"
    (analyzeSemanticContext message []) NewConversation NewUser
    (classifyQuestionType message) (assessUrgency message sentiment)
    (assessComplexity message).

(** No word of the message is an inherited property name: the counters of
    [fallbackKeywordExtraction] are looked up with own keys only. *)
Definition plainMessage (message : string) : bool :=
  forallb (fun word => negb (inheritedKey word))
          (splitWhitespace (toLowerCase message)).

(** The normalized score of a pattern for a lower-cased message. *)
Definition patternScore (messageLower pattern : string) : Q :=
  Score.score (scorePattern messageLower pattern 0).

(** An answer of the pattern fallback of the chat route: the generic text,
    or the response of a table row whose pattern reaches the threshold 0.3
    and has the greatest score of all patterns of the table. *)
Definition PatternAnswer (message response : string) : Prop :=
  let messageLower := toLowerCase message in
  response = defaultResponse \/
  exists row,
    In row responsePatterns /\
    response = Chat.response row /\
    (0.3 <= patternScore messageLower (pattern row))%Q /\
    forall other,
      In other responsePatterns ->
      (patternScore messageLower (pattern other)
       <= patternScore messageLower (pattern row))%Q.

End Spec.

(** * Properties *)

Import NLP Chat Spec.

Example splitWhitespace_ex1 :
  splitWhitespace "i need  a loan" = ["i"; "need"; "a"; "loan"].
Proof. reflexivity. Qed.

Example splitWhitespace_ex2 : splitWhitespace "" = [""].
Proof. reflexivity. Qed.

Example splitWhitespace_ex3 : splitWhitespace " a " = [""; "a"; ""].
Proof. reflexivity. Qed.

Example includes_ex1 : includes "what is the loan amount" "loan" = true.
Proof. reflexivity. Qed.

Example toLowerCase_ex1 : toLowerCase "Thank YOU" = "thank you".
Proof. reflexivity. Qed.

Example classifyQuestionType_ex1 :
  classifyQuestionType "What documents do I need?" = "what".
Proof. vm_compute. reflexivity. Qed.

Example classifyQuestionType_ex2 :
  classifyQuestionType "does it cost anything" = "does" /\
  classifyQuestionType "Whatever works" = "statement".
Proof. split; vm_compute; reflexivity. Qed.

Example analyzeSemanticContext_ex1 :
  category (analyzeSemanticContext "What documents do I need?" [])
  = Some "documents".
Proof. vm_compute. reflexivity. Qed.

Example analyzeSemanticContext_ex2 :
  let r := analyzeSemanticContext "I want to apply for a loan" [] in
  category r = Some "application_process" /\ (confidence r == 1 # 7)%Q.
Proof. split; vm_compute; reflexivity. Qed.

Example stringMatch_ex1 :
  stringMatch "call me at 9876543210 or email a@b.com" phonePattern
    = Some ["9876543210"] /\
  stringMatch "call me at 9876543210 or email a@b.com" emailPattern
    = Some ["a@b.com"].
Proof. split; vm_compute; reflexivity. Qed.

Example stringMatch_ex2 :
  stringMatch "due 99/99/9999, paid 1-2-2024" (nth 0 datePatterns Eps)
    = Some ["99/99/9999"] /\
  stringMatch "due 99/99/9999, paid 1-2-2024" (nth 1 datePatterns Eps)
    = Some ["1-2-2024"] /\
  stringMatch "due 99/99/9999, paid 1-2-2024" (nth 2 datePatterns Eps)
    = None.
Proof. repeat split; vm_compute; reflexivity. Qed.

Example extractEntities_ex1 :
  exists e,
    @extractEntities Reference.parser
      "call me at 9876543210 or email a@b.com" = Returns e /\
    Entities.contact_info e = ["9876543210"; "a@b.com"] /\
    Entities.amounts e = [].
Proof. eexists. split; [vm_compute; reflexivity|]. split; reflexivity. Qed.

Example calculateResponseScore_ex1 :
  map (fun e => (Score.pattern e, Qred (Score.score e), Score.keywordCount e))
      (calculateResponseScore "thank you so much" ["thanks"; "thank";
                                                   "thank you so much"])
  = [("thank", (47 # 20)%Q, 2); ("thank you so much", (21 # 10)%Q, 4);
     ("thanks", (7 # 10)%Q, 0)].
Proof. vm_compute. reflexivity. Qed.

(** ** Generic facts about the loops of the service *)

Lemma gtb_true_iff (a b : Q) : gtb a b = true <-> (b < a)%Q.
Proof.
  unfold gtb. rewrite negb_true_iff, <- not_true_iff_false, Qle_bool_iff.
  split; [apply Qnot_le_lt | apply Qlt_not_le].
Qed.

Lemma gtb_false_iff (a b : Q) : gtb a b = false <-> (a <= b)%Q.
Proof.
  unfold gtb. rewrite negb_false_iff. apply Qle_bool_iff.
Qed.

Section StrictMaxLoop.

Context {A B : Type} (key : A -> B) (f : A -> Q).

Lemma strict_loop_spec (l : list A) (b0 : B) (s0 : Q) :
  (fold_left (strictStep key f) l (b0, s0) = (b0, s0) /\
   forall x, In x l -> (f x <= s0)%Q)
  \/
  (exists x, fold_left (strictStep key f) l (b0, s0) = (key x, f x) /\
             (s0 < f x)%Q /\ FirstMax f l x).
Proof.
  revert b0 s0. induction l as [|a l IH]; intros b0 s0; simpl.
  - left. split; [reflexivity | intros x []].
  - change (strictStep key f (b0, s0) a)
      with (if gtb (f a) s0 then (key a, f a) else (b0, s0)).
    destruct (gtb (f a) s0) eqn:E.
    + apply gtb_true_iff in E.
      destruct (IH (key a) (f a)) as [[Hr Hall] | (x & Hr & Hlt & Hmax)].
      * right. exists a. split; [exact Hr|]. split; [exact E|].
        exists [], l. split; [reflexivity|]. split; [intros y []|exact Hall].
      * right. exists x. split; [exact Hr|].
        split; [apply Qlt_trans with (f a); assumption|].
        destruct Hmax as (l1 & l2 & -> & H1 & H2).
        exists (a :: l1), l2. split; [reflexivity|]. split; [|exact H2].
        intros y [<- | Hy]; [exact Hlt | apply H1, Hy].
    + apply gtb_false_iff in E.
      destruct (IH b0 s0) as [[Hr Hall] | (x & Hr & Hlt & Hmax)].
      * left. split; [exact Hr|]. intros y [<- | Hy]; [exact E | apply Hall, Hy].
      * right. exists x. split; [exact Hr|]. split; [exact Hlt|].
        destruct Hmax as (l1 & l2 & -> & H1 & H2).
        exists (a :: l1), l2. split; [reflexivity|]. split; [|exact H2].
        intros y [<- | Hy]; [|apply H1, Hy].
        apply Qle_lt_trans with s0; assumption.
Qed.

End StrictMaxLoop.

Lemma get_split {V} (l1 l2 : list (string * V)) k v :
  NoDup (map fst (l1 ++ (k, v) :: l2)) -> get (l1 ++ (k, v) :: l2) k = Some v.
Proof.
  induction l1 as [|[k' v'] l1 IH]; simpl; intros Hnd.
  - now rewrite String.eqb_refl.
  - inversion Hnd as [|? ? Hnotin Hnd']; subst.
    destruct (String.eqb_spec k' k) as [->|_].
    + exfalso. apply Hnotin. rewrite map_app. apply in_or_app. right. now left.
    + apply IH, Hnd'.
Qed.

Lemma count_fold_filter (p : string -> bool) (step : nat -> string -> nat)
    (l : list string) (n : nat) :
  (forall c w, step c w = if p w then S c else c) ->
  fold_left step l n = length (filter p l) + n.
Proof.
  intros Hstep. revert n.
  induction l as [|w l IH]; intros n; simpl; [reflexivity|].
  rewrite IH, Hstep. destruct (p w); simpl; lia.
Qed.

Lemma num_nonneg (n : nat) : (0 <= num n)%Q.
Proof. unfold num, Qle. simpl. lia. Qed.

Lemma num_div_nonneg (a b : nat) : (0 <= num a / num b)%Q.
Proof.
  destruct b as [|b].
  - unfold Qle, Qdiv, Qmult, Qinv, num. simpl. lia.
  - apply Qle_shift_div_l.
    + unfold num, Qlt. simpl. lia.
    + rewrite Qmult_0_l. apply num_nonneg.
Qed.

(** ** Semantic category matcher *)

Lemma keywordScore_hits (messageLower : string) (kws : list string) :
  keywordScore messageLower kws = keywordHits messageLower kws.
Proof.
  unfold keywordScore, keywordHits.
  rewrite (count_fold_filter (includes messageLower)); [lia|].
  intros c w. destruct (includes messageLower w); lia.
Qed.

Lemma categoryScore_confidence (message : string) (data : SemanticCategory) :
  categoryScore (toLowerCase message) data = categoryConfidence message data.
Proof.
  unfold categoryScore, categoryConfidence. now rewrite keywordScore_hits.
Qed.

Lemma categoryStep_strict (messageLower : string) best entry :
  categoryStep messageLower best entry =
  strictStep (fun e => Some (fst e))
             (fun e => categoryScore messageLower (snd e)) best entry.
Proof. destruct best, entry. reflexivity. Qed.

Lemma semanticCategories_nodup : NoDup (map fst semanticCategories).
Proof.
  simpl. repeat (constructor; [simpl; intuition discriminate|]). constructor.
Qed.

(** The loop of [analyzeSemanticContext], in terms of the confidence of
    the specification. *)
Lemma best_category_loop (message : string) :
  let conf := fun e : string * SemanticCategory =>
                categoryConfidence message (snd e) in
  (fold_left (categoryStep (toLowerCase message)) semanticCategories
             (None, 0%Q) = (None, 0%Q) /\
   forall e, In e semanticCategories -> (conf e <= 0)%Q)
  \/
  (exists x,
     fold_left (categoryStep (toLowerCase message)) semanticCategories
               (None, 0%Q) = (Some (fst x), conf x) /\
     (0 < conf x)%Q /\ FirstMax conf semanticCategories x).
Proof.
  intros conf.
  assert (Hloop : forall l b,
    fold_left (categoryStep (toLowerCase message)) l b
    = fold_left (strictStep (fun e => Some (fst e)) conf) l b).
  { induction l as [|e l IH]; intros b; simpl; [reflexivity|].
    rewrite IH. f_equal. rewrite categoryStep_strict.
    unfold strictStep, conf. now rewrite categoryScore_confidence. }
  rewrite Hloop.
  apply (strict_loop_spec (fun e => Some (fst e)) conf).
Qed.


(** ** Sentiment *)

Lemma countIncluded_hits (messageLower : string) (words : list string) :
  countIncluded messageLower words = keywordHits messageLower words.
Proof.
  unfold countIncluded, keywordHits.
  rewrite (count_fold_filter (includes messageLower)); [lia | reflexivity].
Qed.

(** C8. The fallback sentiment score is (positive hits - negative hits) over
    (positive hits + negative hits), and 0 without hits; it is positive on
    "thank you so much, this is great" and negative on
    "this is terrible and useless". *)
Theorem fallbackSentimentAnalysis_score :
  (forall message : string,
     let p := keywordHits (toLowerCase message) positiveWords in
     let n := keywordHits (toLowerCase message) negativeWords in
     score (fallbackSentimentAnalysis message) =
       if p + n =? 0 then 0%Q
       else (inject_Z (Z.of_nat p - Z.of_nat n) / num (p + n))%Q) /\
  (0 < score (fallbackSentimentAnalysis "thank you so much, this is great"))%Q
  /\
  (score (fallbackSentimentAnalysis "this is terrible and useless") < 0)%Q.
Proof.
  split; [|split; vm_compute; reflexivity].
  intros message p n. unfold fallbackSentimentAnalysis. cbn [score].
  rewrite !countIncluded_hits. fold p n.
  destruct (p + n) as [|t] eqn:E; reflexivity.
Qed.

(** ** User journey stage *)

Section ObjectAsMap.

Context {V : Type}.

Lemma set_new_key (obj : list (string * V)) (key : string) (v : V) :
  ~ In key (map fst obj) -> set obj key v = obj ++ [(key, v)].
Proof.
  induction obj as [|[k w] obj IH]; simpl; intros Hnotin; [reflexivity|].
  destruct (String.eqb_spec k key) as [->|_]; [tauto|].
  rewrite IH; [reflexivity | tauto].
Qed.

Lemma get_last_key (obj : list (string * V)) (key : string) (v : V) :
  ~ In key (map fst obj) -> get (obj ++ [(key, v)]) key = Some v.
Proof.
  induction obj as [|[k w] obj IH]; simpl; intros Hnotin.
  - now rewrite String.eqb_refl.
  - destruct (String.eqb_spec k key) as [->|_]; [tauto|]. apply IH. tauto.
Qed.

Lemma set_last_key (obj : list (string * V)) (key : string) (v w : V) :
  ~ In key (map fst obj) ->
  set (obj ++ [(key, v)]) key w = obj ++ [(key, w)].
Proof.
  induction obj as [|[k u] obj IH]; simpl; intros Hnotin.
  - now rewrite String.eqb_refl.
  - destruct (String.eqb_spec k key) as [->|_]; [tauto|].
    rewrite IH; [reflexivity | tauto].
Qed.

Lemma get_in_nodup (obj : list (string * V)) (e : string * V) :
  NoDup (map fst obj) -> In e obj -> get obj (fst e) = Some (snd e).
Proof.
  intros Hnd Hin. apply in_split in Hin as (l1 & l2 & ->).
  destruct e as [k v]. now apply get_split.
Qed.

End ObjectAsMap.

Lemma increment_last_key (obj : list (string * nat)) (key : string) (v : nat) :
  ~ In key (map fst obj) ->
  increment (obj ++ [(key, v)]) key = obj ++ [(key, v + 1)].
Proof.
  intros Hnotin. unfold increment.
  now rewrite get_last_key, set_last_key.
Qed.

Section LastMaxReduce.

Context {A : Type} (f : A -> nat) (look : A -> option nat).

Let pick (a b : A) : A := if gtUndefined (look a) (look b) then a else b.

Lemma reduce_last_max (l : list A) (a : A) :
  (forall x, In x (a :: l) -> look x = Some (f x)) ->
  LastMax f (a :: l) (fold_left pick l a).
Proof.
  revert a. induction l as [|b l IH]; intros a Hlook; simpl.
  - exists [], []. repeat split; intros y [].
  - assert (Ha : look a = Some (f a)) by (apply Hlook; now left).
    assert (Hb : look b = Some (f b)) by (apply Hlook; right; now left).
    assert (Hl : forall x, In x l -> look x = Some (f x))
      by (intros x Hx; apply Hlook; right; now right).
    unfold pick at 2. rewrite Ha, Hb. simpl.
    destruct (Nat.ltb_spec (f b) (f a)) as [Hlt | Hge].
    + destruct (IH a) as (before & after & Heq & Hbef & Haft).
      { intros x [<- | Hx]; [exact Ha | apply Hl, Hx]. }
      remember (fold_left pick l a) as r eqn:Er. clear Er.
      destruct before as [|a' before]; simpl in Heq.
      * injection Heq as Hr Hafter. subst r after. exists [], (b :: l).
        split; [reflexivity|]. split; [intros y []|].
        intros y [<- | Hy]; [exact Hlt | apply Haft, Hy].
      * injection Heq as Ha' Hafter. subst a' l.
        exists (a :: b :: before), after.
        split; [reflexivity|]. split; [|exact Haft].
        assert (Hale : f a <= f r) by (apply Hbef; now left).
        intros y [<- | [<- | Hy]]; [exact Hale | lia | apply Hbef; now right].
    + destruct (IH b) as (before & after & Heq & Hbef & Haft).
      { intros x [<- | Hx]; [exact Hb | apply Hl, Hx]. }
      remember (fold_left pick l b) as r eqn:Er. clear Er.
      exists (a :: before), after. split; [simpl; now rewrite <- Heq|].
      split; [|exact Haft].
      assert (Hble : f b <= f r).
      { destruct before as [|b' before]; simpl in Heq.
        - injection Heq as Hr _. rewrite <- Hr. lia.
        - injection Heq as Hb' _. subst b'. apply Hbef. now left. }
      intros y [<- | Hy]; [lia | apply Hbef, Hy].
Qed.

End LastMaxReduce.

Section StageScores.

Variable recentMessages : list string.

Let hits (keywords : list string) : nat :=
  list_sum (map (fun msg => keywordHits (toLowerCase msg) keywords)
                recentMessages).

(** The three nested loops of [determineUserStage] for one stage whose
    counter is the last entry of [stageScores]. *)
Lemma stage_keywords_loop (obj : list (string * nat)) stage v content kws :
  ~ In stage (map fst obj) ->
  fold_left
    (fun stageScores keyword =>
       if includes content keyword then increment stageScores stage
       else stageScores)
    kws (obj ++ [(stage, v)])
  = obj ++ [(stage, v + keywordHits content kws)].
Proof.
  intros Hnotin. unfold keywordHits. revert v.
  induction kws as [|kw kws IH]; intros v; simpl.
  - now rewrite Nat.add_0_r.
  - destruct (includes content kw); simpl.
    + rewrite increment_last_key by assumption. rewrite IH. do 3 f_equal. lia.
    + apply IH.
Qed.

Lemma stage_messages_loop (obj : list (string * nat)) stage kws
    (msgs : list string) v :
  ~ In stage (map fst obj) ->
  fold_left
    (fun stageScores msg =>
       fold_left
         (fun stageScores keyword =>
            if includes (toLowerCase msg) keyword
            then increment stageScores stage
            else stageScores)
         kws stageScores)
    msgs (obj ++ [(stage, v)])
  = obj ++ [(stage,
             v + list_sum
                   (map (fun msg => keywordHits (toLowerCase msg) kws) msgs))].
Proof.
  intros Hnotin. revert v.
  induction msgs as [|msg msgs IH]; intros v; simpl.
  - now rewrite Nat.add_0_r.
  - rewrite stage_keywords_loop by assumption. rewrite IH.
    do 3 f_equal. lia.
Qed.

Lemma stage_table_loop (table : list (string * list string))
    (obj : list (string * nat)) :
  NoDup (map fst obj ++ map fst table) ->
  fold_left
    (fun stageScores '(stage, keywords) =>
       fold_left
         (fun stageScores msg =>
            fold_left
              (fun stageScores keyword =>
                 if includes (toLowerCase msg) keyword
                 then increment stageScores stage
                 else stageScores)
              keywords stageScores)
         recentMessages (set stageScores stage 0))
    table obj
  = obj ++ map (fun e => (fst e, hits (snd e))) table.
Proof.
  revert obj. induction table as [|[stage kws] table IH]; intros obj Hnd.
  - simpl. now rewrite app_nil_r.
  - assert (Hnotin : ~ In stage (map fst obj)).
    { simpl in Hnd. apply NoDup_remove_2 in Hnd. intros Hin. apply Hnd.
      apply in_or_app. now left. }
    cbn [fold_left].
    rewrite set_new_key by assumption.
    rewrite stage_messages_loop by assumption.
    rewrite IH.
    + rewrite <- app_assoc. reflexivity.
    + rewrite map_app, <- app_assoc. exact Hnd.
Qed.

End StageScores.

Lemma LastMax_map {A B} (g : A -> B) (f : B -> nat) (l : list A) (r : B) :
  LastMax f (map g l) r ->
  exists e, r = g e /\ LastMax (fun x => f (g x)) l e.
Proof.
  intros (before & after & Heq & Hbef & Haft).
  apply map_eq_app in Heq as (l1 & l2' & -> & <- & Heq).
  apply map_eq_cons in Heq as (e & l2 & -> & <- & <-).
  exists e. split; [reflexivity|]. exists l1, l2. split; [reflexivity|].
  split; intros y Hy; [apply Hbef | apply Haft]; now apply in_map.
Qed.

Lemma determineUserStage_spec (history : list string)
    (table : list (string * list string)) :
  NoDup (map fst table) -> table <> [] ->
  exists entry,
    determineUserStage history table = Returns (fst entry) /\
    LastMax (stageHits history) table entry.
Proof.
  intros Hnd Hne. unfold determineUserStage. cbv zeta.
  rewrite (stage_table_loop (sliceLast 3 history) table []) by exact Hnd.
  cbn [app].
  set (scores := map _ table).
  assert (Hkeys : map fst scores = map fst table).
  { unfold scores. rewrite map_map. reflexivity. }
  destruct scores as [|a rest] eqn:Escores.
  { destruct table; [congruence | discriminate]. }
  cbn [reduce].
  pose proof (reduce_last_max snd
                (fun e : string * nat => get (a :: rest) (fst e)) rest a)
    as Hmax.
  cbv zeta in Hmax.
  destruct Hmax as (before & after & Heq & Hbef & Haft).
  { intros x Hx. apply get_in_nodup; [now rewrite Hkeys | exact Hx]. }
  remember (fold_left _ rest a) as r eqn:Er. clear Er.
  assert (Hlast : LastMax snd (map (fun e : string * list string =>
             (fst e, list_sum (map (fun msg : string =>
                keywordHits (toLowerCase msg) (snd e))
                (sliceLast 3 history)))) table) r).
  { fold scores. rewrite Escores. exists before, after. now repeat split. }
  apply LastMax_map in Hlast as (entry & -> & Hentry).
  exists entry. split; [reflexivity | exact Hentry].
Qed.

Lemma journeyStages_nodup : NoDup (map fst journeyStages).
Proof.
  simpl. repeat (constructor; [simpl; intuition discriminate|]). constructor.
Qed.

(** C7, as the code has it. For every history the journey stage is the stage
    of the table with the most keyword hits over the last three messages;
    on a tie the stage declared later wins. *)
Theorem determineUserStage_latest_best (history : list string) :
  exists stage,
    determineUserStage history journeyStages = Returns stage /\
    StageIsLatestBest history stage.
Proof.
  destruct (determineUserStage_spec history journeyStages)
    as (entry & Hr & Hmax).
  - exact journeyStages_nodup.
  - discriminate.
  - exists (fst entry). split; [exact Hr|]. exists entry. now split.
Qed.

(** C7, as stated, fails: on the one-message history "hello loan" the
    stages awareness and interest both have one hit and the later one,
    interest, is returned. *)
Lemma determineUserStage_not_earliest_best :
  exists stage,
    determineUserStage ["hello loan"] journeyStages = Returns stage /\
    ~ StageIsEarliestBest ["hello loan"] stage.
Proof.
  exists "interest". split; [vm_compute; reflexivity|].
  intros ([name kws] & Hname & before & after & Heq & Hbef & _).
  simpl in Hname. subst name.
  destruct before as [|e0 before]; [discriminate Heq|].
  injection Heq as <- Heq.
  specialize (Hbef _ (or_introl eq_refl)).
  destruct before as [|e1 before].
  - injection Heq as <- _. vm_compute in Hbef. lia.
  - injection Heq as _ Heq.
    repeat (destruct before as [|? before];
            [discriminate Heq | injection Heq as _ Heq]).
    destruct before; discriminate Heq.
Qed.

(** ** Conversation topic *)

Lemma includes_comma_app (a b : string) : includes (a ++ "," ++ b) "," = true.
Proof.
  induction a as [|c a IH]; [reflexivity|].
  cbn [String.append includes] in *. rewrite IH. apply orb_true_r.
Qed.

Lemma get_some_in {V} (obj : list (string * V)) key v :
  get obj key = Some v -> In key (map fst obj).
Proof.
  induction obj as [|[k w] obj IH]; simpl; [discriminate|].
  destruct (String.eqb_spec k key) as [->|_]; [now left|].
  intros H. right. now apply IH.
Qed.

Lemma set_keys {V} (obj : list (string * V)) key v x :
  In x (map fst (set obj key v)) -> x = key \/ In x (map fst obj).
Proof.
  induction obj as [|[k w] obj IH]; simpl.
  - intros [<- | []]. now left.
  - destruct (String.eqb_spec k key) as [->|_]; simpl.
    + intros [<- | Hx]; [right; now left | right; now right].
    + intros [<- | Hx]; [right; now left|].
      destruct (IH Hx) as [-> | Hin]; [now left | right; now right].
Qed.

Lemma set_not_nil {V} (obj : list (string * V)) key v : set obj key v <> [].
Proof.
  destruct obj as [|[k w] obj]; simpl; [discriminate|].
  destruct (String.eqb k key); discriminate.
Qed.

Lemma category_in_table (message : string) (history : list string) c :
  category (analyzeSemanticContext message history) = Some c ->
  In c (map fst semanticCategories).
Proof.
  unfold analyzeSemanticContext.
  destruct (best_category_loop message)
    as [[-> _] | (x & -> & _ & Hmax)]; cbn [category]; [discriminate|].
  intros [= <-]. destruct Hmax as (l1 & l2 & -> & _).
  rewrite map_app. apply in_or_app. right. now left.
Qed.

Lemma topics_comma_free (msgs : list string) (topics : list (string * nat)) :
  commaFree (map fst topics) -> topics <> [] ->
  let topics' :=
    fold_left
      (fun topics content =>
         match category (analyzeSemanticContext content []) with
         | Some c => increment topics c
         | None => topics
         end)
      msgs topics in
  commaFree (map fst topics') /\ topics' <> [].
Proof.
  revert topics. induction msgs as [|msg msgs IH]; intros topics Hfree Hne.
  - now split.
  - cbn [fold_left]. apply IH.
    + destruct (category _) as [c|] eqn:Ec; [|exact Hfree].
      intros k Hk. apply set_keys in Hk as [-> | Hk]; [|apply Hfree, Hk].
      apply category_in_table in Ec. simpl in Ec.
      repeat (destruct Ec as [<- | Ec]; [reflexivity|]). destruct Ec.
    + destruct (category _) as [c|]; [apply set_not_nil | exact Hne].
Qed.

Lemma fold_left_keep_right {A} (l : list A) (a d : A) :
  fold_left (fun _ b => b) l a = last (a :: l) d.
Proof.
  revert a. induction l as [|b l IH]; intros a; [reflexivity|].
  cbn [fold_left]. rewrite IH. reflexivity.
Qed.

(** The comparison [topics[a] > topics[b]] of the reduction looks the
    counters up under the text of a whole entry, finds nothing, and so
    always keeps the right-hand entry: the primary topic of a non-empty
    history is the last entry of the distribution, whatever the counts. *)
Lemma identifyConversationTopic_primary_is_last (history : list string) :
  history <> [] ->
  exists distribution consistency,
    identifyConversationTopic history =
      Returns (Topic (last distribution ("", 0)) distribution consistency).
Proof.
  intros Hne. unfold identifyConversationTopic.
  destruct history as [|m history]; [congruence|].
  cbn [length Nat.eqb]. cbv zeta.
  destruct (topics_comma_free (sliceLast 5 (m :: history)) initialTopics)
    as [Hfree Hne'].
  { intros k Hk. simpl in Hk.
    repeat (destruct Hk as [<- | Hk]; [reflexivity|]). destruct Hk. }
  { discriminate. }
  cbv zeta in Hfree, Hne'.
  remember (fold_left _ (sliceLast 5 (m :: history)) initialTopics)
    as topics eqn:Et. clear Et.
  assert (Hget : forall e : string * nat, get topics (entryToString e) = None).
  { intros e. destruct (get topics (entryToString e)) eqn:Eg; [|reflexivity].
    apply get_some_in, Hfree in Eg. unfold entryToString in Eg.
    now rewrite includes_comma_app in Eg. }
  destruct topics as [|a rest]; [congruence|].
  cbn [reduce].
  assert (Hfold : forall l x,
    fold_left
      (fun a0 b : string * nat =>
         if gtUndefined (get (a :: rest) (entryToString a0))
                        (get (a :: rest) (entryToString b))
         then a0 else b) l x
    = fold_left (fun _ b => b) l x).
  { induction l as [|b l IHl]; intros x; [reflexivity|].
    cbn [fold_left]. rewrite !Hget. apply IHl. }
  rewrite Hfold, (fold_left_keep_right rest a ("", 0)).
  eexists _, _. reflexivity.
Qed.

(** C3. The primary topic is meant to be the most frequent semantic
    category of the last five messages; the code does not return it. In the
    three-message history below the category loan_inquiry occurs twice and
    every other category at most once, yet the primary topic is the entry
    of the last key of the counter table, [("technical", 0)]. *)
Theorem identifyConversationTopic_primary_not_most_frequent :
  let history :=
    ["I need a loan"; "what is the loan amount"; "which documents"] in
  identifyConversationTopic history =
    Returns
      (Topic ("technical", 0)
         [("loan_inquiry", 2); ("application", 0); ("documents", 1);
          ("repayment", 0); ("support", 0); ("technical", 0)]
         (2 # 3)%Q) /\
  categoryFrequency history "loan_inquiry" = 2 /\
  (forall name,
     name <> "loan_inquiry" -> categoryFrequency history name < 2).
Proof.
  intros history. split; [vm_compute; reflexivity|].
  split; [vm_compute; reflexivity|].
  intros name Hname. unfold categoryFrequency, history.
  change (sliceLast 5 ?l) with l.
  assert (H1 : category (analyzeSemanticContext "I need a loan" [])
               = Some "loan_inquiry") by (vm_compute; reflexivity).
  assert (H2 : category (analyzeSemanticContext "what is the loan amount" [])
               = Some "loan_inquiry") by (vm_compute; reflexivity).
  assert (H3 : category (analyzeSemanticContext "which documents" [])
               = Some "documents") by (vm_compute; reflexivity).
  cbn [filter]. rewrite H1, H2, H3.
  destruct (String.eqb_spec "loan_inquiry" name) as [<-|_]; [congruence|].
  destruct (String.eqb "documents" name); simpl; lia.
Qed.

(** ** Response scoring *)

Lemma startsWith_refl (s : string) : startsWith s s = true.
Proof.
  induction s as [|c s IH]; [reflexivity|].
  simpl. now rewrite Ascii.eqb_refl.
Qed.

Lemma includes_refl (s : string) : includes s s = true.
Proof. destruct s; simpl; [reflexivity|]. now rewrite Ascii.eqb_refl, startsWith_refl. Qed.

Lemma arrayIncludes_In (arr : list string) (x : string) :
  arrayIncludes arr x = true <-> In x arr.
Proof.
  unfold arrayIncludes. rewrite existsb_exists. split.
  - intros (y & Hy & Heq). apply String.eqb_eq in Heq. now subst.
  - intros Hin. exists x. split; [exact Hin | apply String.eqb_refl].
Qed.

Lemma arrayIncludes_partial (messageWords : list string) (word : string) :
  arrayIncludes messageWords word = true ->
  existsb (partialPair word) messageWords = true.
Proof.
  rewrite arrayIncludes_In, existsb_exists. intros Hin.
  exists word. split; [exact Hin|].
  unfold partialPair. now rewrite includes_refl.
Qed.

Lemma num_S (n : nat) : (num (S n) == num n + 1)%Q.
Proof.
  unfold num. rewrite Nat2Z.inj_succ, <- Z.add_1_r, inject_Z_plus. reflexivity.
Qed.

Lemma num_pos (n : nat) : (0 < num (S n))%Q.
Proof. unfold num, Qlt. simpl. lia. Qed.

(** The partial pass adds [partialWeight word] once per matching message
    word. *)
Lemma partialMatch_sum (messageWords : list string) (word : string) (t : Q) :
  (partialMatch messageWords t word
   == t + partialWeight word * num (partialHits messageWords word))%Q.
Proof.
  unfold partialMatch, partialHits. revert t.
  induction messageWords as [|m ms IH]; intros t; cbn [fold_left filter].
  - change (num (length [])) with 0%Q. lra.
  - fold (partialPair word m). destruct (partialPair word m).
    + cbn [length]. rewrite IH, num_S. unfold partialWeight.
      destruct (get importantKeywords word) as [w|];
        [|destruct (get commonWords word)]; lra.
    + apply IH.
Qed.

Lemma partialGain_hits (messageWords : list string) (word : string) :
  (partialGain messageWords word
   == partialWeight word * num (partialHits messageWords word))%Q.
Proof. unfold partialGain. rewrite partialMatch_sum. lra. Qed.

Lemma sumQ_cons (x : Q) (l : list Q) : sumQ (x :: l) = (x + sumQ l)%Q.
Proof. reflexivity. Qed.

Lemma partial_pass_sum (messageWords patternWords : list string) (t : Q) :
  (fold_left (partialMatch messageWords) patternWords t
   == t + sumQ (map (partialGain messageWords) patternWords))%Q.
Proof.
  revert t. induction patternWords as [|w ws IH]; intros t;
    cbn [fold_left map].
  - change (sumQ []) with 0%Q. lra.
  - rewrite sumQ_cons, IH, partialMatch_sum, partialGain_hits. lra.
Qed.

Lemma wordMatch_gain (messageWords : list string) (word : string)
    (t : Q) (k : nat) :
  (fst (wordMatch messageWords (t, k) word)
   == t + wordGain messageWords word)%Q /\
  k <= snd (wordMatch messageWords (t, k) word) <= S k.
Proof.
  unfold wordGain, wordMatch.
  destruct (arrayIncludes messageWords word);
    [destruct (get importantKeywords word);
       [|destruct (get commonWords word)]|];
    simpl; split; try lra; lia.
Qed.

Lemma word_pass_sum (messageWords patternWords : list string)
    (t : Q) (k : nat) :
  let r := fold_left (wordMatch messageWords) patternWords (t, k) in
  (fst r == t + sumQ (map (wordGain messageWords) patternWords))%Q /\
  k <= snd r <= k + length patternWords.
Proof.
  revert t k. induction patternWords as [|w ws IH]; intros t k;
    cbv zeta in *; cbn [fold_left map length fst snd];
    [change (sumQ []) with 0%Q | rewrite sumQ_cons].
  - split; [lra | lia].
  - destruct (wordMatch messageWords (t, k) w) as [t' k'] eqn:E.
    destruct (wordMatch_gain messageWords w t k) as [Ht Hk].
    rewrite E in Ht, Hk. simpl in Ht, Hk.
    destruct (IH t' k') as [Ht' Hk']. split.
    + lra.
    + lia.
Qed.

Lemma get_some_In {V} (obj : list (string * V)) key v :
  get obj key = Some v -> In (key, v) obj.
Proof.
  induction obj as [|[k w] obj IH]; simpl; [discriminate|].
  destruct (String.eqb_spec k key) as [->|_].
  - intros [= ->]. now left.
  - intros H. right. now apply IH.
Qed.

Lemma importantKeywords_pos (word : string) (weight : Q) :
  get importantKeywords word = Some weight -> (0 < weight)%Q.
Proof.
  intros H. apply get_some_In in H.
  assert (F : forallb (fun e => gtb (snd e) 0) importantKeywords = true)
    by (vm_compute; reflexivity).
  rewrite forallb_forall in F. apply F in H. now apply gtb_true_iff in H.
Qed.

Lemma commonWords_pos (word : string) (weight : Q) :
  get commonWords word = Some weight -> (0 < weight)%Q.
Proof.
  intros H. apply get_some_In in H.
  assert (F : forallb (fun e => gtb (snd e) 0) commonWords = true)
    by (vm_compute; reflexivity).
  rewrite forallb_forall in F. apply F in H. now apply gtb_true_iff in H.
Qed.

Lemma partialWeight_nonneg (word : string) : (0 <= partialWeight word)%Q.
Proof.
  unfold partialWeight.
  destruct (get importantKeywords word) as [w|] eqn:E.
  - apply importantKeywords_pos in E. lra.
  - destruct (get commonWords word); lra.
Qed.

Lemma partialGain_nonneg (messageWords : list string) (word : string) :
  (0 <= partialGain messageWords word)%Q.
Proof.
  rewrite partialGain_hits.
  apply Qmult_le_0_compat; [apply partialWeight_nonneg | apply num_nonneg].
Qed.

Lemma wordGain_nonneg (messageWords : list string) (word : string) :
  (0 <= wordGain messageWords word)%Q.
Proof.
  unfold wordGain, wordMatch.
  destruct (arrayIncludes messageWords word); [|simpl; lra].
  destruct (get importantKeywords word) as [w|] eqn:E.
  - apply importantKeywords_pos in E. simpl. lra.
  - destruct (get commonWords word) as [w|] eqn:E'; simpl; [|lra].
    apply commonWords_pos in E'. lra.
Qed.

Lemma sumQ_nonneg (f : string -> Q) (l : list string) :
  (forall x, 0 <= f x)%Q -> (0 <= sumQ (map f l))%Q.
Proof.
  intros Hf. induction l as [|x l IH]; cbn [map].
  - change (sumQ []) with 0%Q. lra.
  - rewrite sumQ_cons. specialize (Hf x). lra.
Qed.

(** The total score of a pattern is the exact-substring bonus, plus what
    the two passes add for each pattern word, plus the question bonus. *)
Lemma totalScore_decomposition (messageLower pattern : string) (index : nat) :
  let messageWords := splitWhitespace messageLower in
  let patternWords := splitWhitespace (toLowerCase pattern) in
  (Score.totalScore (scorePattern messageLower pattern index)
   == fst (exactMatch messageLower pattern)
      + sumQ (map (wordGain messageWords) patternWords)
      + sumQ (map (partialGain messageWords) patternWords)
      + (if questionBonus messageLower then 0.5 else 0))%Q.
Proof.
  intros messageWords patternWords. unfold scorePattern.
  destruct (exactMatch messageLower pattern) as [t0 k0].
  fold messageWords patternWords.
  destruct (word_pass_sum messageWords patternWords t0 k0) as [Ht _].
  cbv zeta in Ht.
  destruct (fold_left (wordMatch messageWords) patternWords (t0, k0))
    as [t1 k1].
  cbn [Score.totalScore fst] in *.
  pose proof (partial_pass_sum messageWords patternWords t1) as Hp.
  destruct (questionBonus messageLower); lra.
Qed.

(** C10, as the code has it. A pattern word that is a whole word of the
    message and an important keyword (in a pattern without inherited
    property names) gets its weight from the exact word pass and 0.7 times its weight from the partial pass once for every
    message word that contains it or is contained in it; the word itself is
    one of these, so the two passes add at least 1.7 times the weight to the
    total score, and exactly that when no other message word matches. *)
Theorem exact_keyword_counted_in_both_passes
    (message pattern : string) (index : nat) (word : string) (weight : Q) :
  let messageLower := toLowerCase message in
  let messageWords := splitWhitespace messageLower in
  let patternWords := splitWhitespace (toLowerCase pattern) in
  plainPatterns [pattern] = true ->
  In word patternWords ->
  In word messageWords ->
  get importantKeywords word = Some weight ->
  (Score.totalScore (scorePattern messageLower pattern index)
   == fst (exactMatch messageLower pattern)
      + sumQ (map (wordGain messageWords) patternWords)
      + sumQ (map (partialGain messageWords) patternWords)
      + (if questionBonus messageLower then 0.5 else 0))%Q /\
  (wordGain messageWords word == weight)%Q /\
  1 <= partialHits messageWords word /\
  (partialGain messageWords word
   == 0.7 * weight * num (partialHits messageWords word))%Q /\
  (1.7 * weight
   <= wordGain messageWords word + partialGain messageWords word)%Q /\
  (partialHits messageWords word = 1 ->
   (wordGain messageWords word + partialGain messageWords word
    == 1.7 * weight)%Q).
Proof.
  intros messageLower messageWords patternWords _ _ Hin Hw.
  pose proof (importantKeywords_pos _ _ Hw) as Hpos.
  assert (Hgain : (wordGain messageWords word == weight)%Q).
  { unfold wordGain, wordMatch.
    rewrite (proj2 (arrayIncludes_In _ _) Hin), Hw. simpl. lra. }
  assert (Hhits : 1 <= partialHits messageWords word).
  { unfold partialHits.
    assert (Hf : In word (filter (partialPair word) messageWords)).
    { apply filter_In. split; [exact Hin|].
      unfold partialPair. now rewrite includes_refl. }
    destruct (filter (partialPair word) messageWords); [destruct Hf|].
    simpl. lia. }
  assert (Hpart : (partialGain messageWords word
     == 0.7 * weight * num (partialHits messageWords word))%Q).
  { rewrite partialGain_hits. unfold partialWeight. rewrite Hw. lra. }
  split; [apply totalScore_decomposition|].
  split; [exact Hgain|]. split; [exact Hhits|]. split; [exact Hpart|].
  split.
  - rewrite Hgain, Hpart.
    destruct (partialHits messageWords word) as [|n]; [lia|].
    rewrite num_S. pose proof (num_nonneg n) as Hn. nra.
  - intros H1. rewrite Hgain, Hpart, H1. change (num 1) with 1%Q. lra.
Qed.

(** C10 at the message "I need a loan" and the pattern "loan": the keyword
    loan (weight 2.0) adds 2.0 + 0.7 * 2.0 * 2 = 4.8. *)
Lemma exact_keyword_counted_in_both_passes_witness :
  let messageWords := splitWhitespace (toLowerCase "I need a loan") in
  (wordGain messageWords "loan" == 2.0)%Q /\
  partialHits messageWords "loan" = 2 /\
  (1.7 * 2.0 <= wordGain messageWords "loan"
                + partialGain messageWords "loan")%Q.
Proof.
  pose proof (exact_keyword_counted_in_both_passes
                "I need a loan" "loan" 0 "loan" 2.0%Q) as H.
  cbv zeta in H.
  destruct H as (_ & Hg & _ & _ & Hsum & _).
  - vm_compute; reflexivity.
  - now left.
  - vm_compute. tauto.
  - vm_compute; reflexivity.
  - split; [exact Hg|]. split; [vm_compute; reflexivity | exact Hsum].
Defined.

(** C10, as stated, fails: in the message "a loan" the article is contained
    in the keyword too, and the keyword loan adds 2.0 + 1.4 + 1.4 = 4.8 to
    the total score of the pattern "loan", not 1.7 * 2.0 = 3.4. *)
Lemma exact_keyword_not_1_7_times_weight :
  let messageWords := splitWhitespace (toLowerCase "a loan") in
  In "loan" messageWords /\
  get importantKeywords "loan" = Some 2.0%Q /\
  (wordGain messageWords "loan" + partialGain messageWords "loan" == 4.8)%Q /\
  ~ (wordGain messageWords "loan" + partialGain messageWords "loan"
     == 1.7 * 2.0)%Q /\
  (Score.totalScore (scorePattern (toLowerCase "a loan") "loan" 0)
   == 3.0 + 4.8)%Q.
Proof.
  cbv zeta. split; [vm_compute; tauto|]. split; [vm_compute; reflexivity|].
  split; [vm_compute; reflexivity|]. split; [|vm_compute; reflexivity].
  intros H. vm_compute in H. discriminate H.
Qed.

(** *** Selection *)

Lemma insertByScore_In (a x : Score.t) (sorted : list Score.t) :
  In x (insertByScore a sorted) -> x = a \/ In x sorted.
Proof.
  induction sorted as [|b rest IH]; cbn [insertByScore].
  - intros [<- | []]. now left.
  - destruct (Qle_bool _ _).
    + intros [<- | Hx]; [now left | now right].
    + intros [<- | Hx]; [right; now left|].
      destruct (IH Hx) as [-> | Hin]; [now left | right; now right].
Qed.

Lemma sortByScore_In (x : Score.t) (scores : list Score.t) :
  In x (sortByScore scores) -> In x scores.
Proof.
  induction scores as [|a scores IH]; cbn [sortByScore fold_right];
    [intros []|].
  intros Hx. apply insertByScore_In in Hx as [-> | Hx];
    [now left | right; now apply IH].
Qed.

Lemma scoreFrom_In (messageLower : string) (patterns : list string)
    (index : nat) (e : Score.t) :
  In e (scoreFrom messageLower patterns index) ->
  exists pattern i, In pattern patterns /\
                    e = scorePattern messageLower pattern i.
Proof.
  revert index. induction patterns as [|p ps IH]; intros index;
    cbn [scoreFrom]; [intros []|].
  intros [<- | He].
  - exists p, index. split; [now left | reflexivity].
  - destruct (IH _ He) as (q & i & Hq & ->). exists q, i.
    split; [now right | reflexivity].
Qed.

Lemma scoreFrom_pattern_In (messageLower : string) (patterns : list string)
    (index : nat) (pattern : string) :
  In pattern patterns ->
  exists i, In (scorePattern messageLower pattern i)
               (scoreFrom messageLower patterns index).
Proof.
  revert index. induction patterns as [|p ps IH]; intros index;
    cbn [scoreFrom]; [intros []|].
  intros [-> | Hin].
  - exists index. now left.
  - destruct (IH (S index) Hin) as (i & Hi). exists i. now right.
Qed.

Lemma FirstMax_all {A} (f : A -> Q) (l : list A) (x y : A) :
  FirstMax f l x -> In y l -> (f y <= f x)%Q.
Proof.
  intros (before & after & -> & Hb & Ha) Hy.
  apply in_app_or in Hy as [Hy | [<- | Hy]].
  - apply Qlt_le_weak, Hb, Hy.
  - apply Qle_refl.
  - apply Ha, Hy.
Qed.

(** The head of the sorted array is the first entry, in table order, with
    the greatest normalized score. *)
Lemma sortByScore_head (scores : list Score.t) :
  scores <> [] ->
  exists first rest,
    sortByScore scores = first :: rest /\ FirstMax Score.score scores first.
Proof.
  induction scores as [|a scores IH]; [congruence|]. intros _.
  cbn [sortByScore fold_right]. fold (sortByScore scores).
  destruct scores as [|b scores].
  - exists a, []. split; [reflexivity|].
    exists [], []. repeat split; intros y [].
  - destruct IH as (x & rest & Hs & Hmax); [discriminate|].
    rewrite Hs. cbn [insertByScore].
    destruct (Qle_bool (Score.score x - Score.score a) 0) eqn:E.
    + apply Qle_bool_iff in E.
      exists a, (x :: rest). split; [reflexivity|].
      exists [], (b :: scores). split; [reflexivity|].
      split; [intros y []|]. intros y Hy.
      pose proof (FirstMax_all _ _ _ _ Hmax Hy). lra.
    + assert (Hlt : (Score.score a < Score.score x)%Q).
      { apply Qnot_le_lt. intros Hle.
        assert (Qle_bool (Score.score x - Score.score a) 0 = true)
          by (apply Qle_bool_iff; lra).
        congruence. }
      exists x, (insertByScore a rest). split; [reflexivity|].
      destruct Hmax as (before & after & Heq & Hb & Ha).
      exists (a :: before), after. split; [now rewrite Heq|].
      split; [|exact Ha]. intros y [<- | Hy]; [exact Hlt | apply Hb, Hy].
Qed.

Lemma fold_left_fixed {A B} (f : A -> B -> A) (l : list B) (a : A) :
  (forall x, In x l -> f a x = a) -> fold_left f l a = a.
Proof.
  induction l as [|x l IH]; intros H; cbn [fold_left]; [reflexivity|].
  rewrite (H x (or_introl eq_refl)). apply IH.
  intros y Hy. apply H. now right.
Qed.

(** A pattern that shares nothing with the message scores zero. *)
Lemma scorePattern_nothing_shared (messageLower pattern : string)
    (index : nat) :
  questionBonus messageLower = false ->
  includes messageLower (toLowerCase pattern) = false ->
  sharesWord (splitWhitespace messageLower) pattern = false ->
  Score.score (scorePattern messageLower pattern index) = 0%Q.
Proof.
  intros Hq Hexact Hshare. unfold scorePattern, exactMatch.
  rewrite Hexact, Hq.
  set (messageWords := splitWhitespace messageLower) in *.
  set (patternWords := splitWhitespace (toLowerCase pattern)) in *.
  assert (Hpair : forall w m, In w patternWords -> In m messageWords ->
                              partialPair w m = false).
  { intros w m Hw Hm. destruct (partialPair w m) eqn:E; [|reflexivity].
    unfold sharesWord in Hshare. fold patternWords in Hshare.
    enough (existsb (fun word => existsb (partialPair word) messageWords)
                    patternWords = true) by congruence.
    apply existsb_exists. exists w. split; [exact Hw|].
    apply existsb_exists. exists m. now split. }
  rewrite (fold_left_fixed (wordMatch messageWords)).
  - rewrite (fold_left_fixed (partialMatch messageWords)); [reflexivity|].
    intros w Hw. unfold partialMatch. apply fold_left_fixed.
    intros m Hm. fold (partialPair w m). now rewrite Hpair.
  - intros w Hw. unfold wordMatch.
    destruct (arrayIncludes messageWords w) eqn:E; [|reflexivity].
    apply arrayIncludes_In in E. specialize (Hpair w w Hw E).
    unfold partialPair in Hpair. now rewrite includes_refl in Hpair.
Qed.

Lemma selectBestResponse_keyword_free (message : string)
    (patterns : list string) (threshold : Q) :
  keywordFree message patterns = true -> (0 < threshold)%Q ->
  selectBestResponse message patterns threshold = None.
Proof.
  intros Hfree Hpos. unfold keywordFree in Hfree. cbv zeta in Hfree.
  apply andb_true_iff in Hfree as [Hq Hall].
  apply negb_true_iff in Hq. rewrite forallb_forall in Hall.
  unfold selectBestResponse, calculateResponseScore. cbv zeta.
  destruct (sortByScore _) as [|first rest] eqn:Es; [reflexivity|].
  assert (Hin : In first (sortByScore
                  (scoreFrom (toLowerCase message) patterns 0)))
    by (rewrite Es; now left).
  apply sortByScore_In, scoreFrom_In in Hin as (p & i & Hp & ->).
  apply Hall in Hp. apply andb_true_iff in Hp as [He Hs].
  apply negb_true_iff in He, Hs.
  rewrite scorePattern_nothing_shared by assumption.
  unfold geb. destruct (Qle_bool threshold 0) eqn:E; [|reflexivity].
  apply Qle_bool_iff in E. lra.
Qed.

(** C2, as the code has it. For a keyword-free message (no interrogative,
    no pattern as a substring, no word that contains or is contained in a
    pattern word) [selectBestResponse] returns null at every threshold above
    zero, and with the patterns of the chat route the caller answers with
    the default response. *)
Theorem keyword_free_message_gets_default_response
    (message : string) (patterns : list string) (threshold : Q) :
  keywordFree message patterns = true ->
  (0 < threshold)%Q ->
  selectBestResponse message patterns threshold = None /\
  (patterns = chatPatterns ->
   generatePatternBasedResponse message = Returns defaultResponse).
Proof.
  intros Hfree Hpos. split.
  - now apply selectBestResponse_keyword_free.
  - intros ->. unfold generatePatternBasedResponse. cbv zeta.
    fold chatPatterns.
    rewrite selectBestResponse_keyword_free; [reflexivity | exact Hfree|].
    reflexivity.
Qed.

(** C2 at the message "xyz" and the threshold of the chat route. *)
Lemma keyword_free_message_gets_default_response_witness :
  keywordFree "xyz" chatPatterns = true /\
  (0 < 0.3)%Q /\
  selectBestResponse "xyz" chatPatterns 0.3 = None /\
  generatePatternBasedResponse "xyz" = Returns defaultResponse.
Proof.
  assert (Hfree : keywordFree "xyz" chatPatterns = true)
    by (vm_compute; reflexivity).
  assert (Hpos : (0 < 0.3)%Q) by reflexivity.
  destruct (keyword_free_message_gets_default_response
              "xyz" chatPatterns 0.3%Q Hfree Hpos) as [Hnone Hdefault].
  exact (conj Hfree (conj Hpos (conj Hnone (Hdefault eq_refl)))).
Defined.

(** C2, as stated, fails for the empty message: its only word, the empty
    string, is contained in every pattern word, so every pattern with a
    weighted word scores through the partial pass; at the threshold of the
    chat route the pattern "take another loan" (score 2.8) is selected and
    the caller answers with the reloan response. *)
Lemma empty_message_selects_a_pattern :
  (0 < 0.3)%Q /\
  (exists best,
     selectBestResponse "" chatPatterns 0.3 = Some best /\
     Best.pattern best = "take another loan" /\
     (Best.score best == 2.8)%Q) /\
  generatePatternBasedResponse "" = Returns reloanResponse /\
  reloanResponse <> defaultResponse.
Proof.
  split; [reflexivity|]. split.
  - eexists. split; [vm_compute; reflexivity|]. split; reflexivity.
  - split; [vm_compute; reflexivity | discriminate].
Qed.

Lemma num_le (a b : nat) : a <= b -> (num a <= num b)%Q.
Proof. intros H. unfold num, Qle. simpl. lia. Qed.

(** The score of a pattern that the message contains: the bonus of 3.0 is
    in the total, and the exact match and at most every pattern word count
    as keywords. *)
Lemma scorePattern_exact (messageLower pattern : string) (index : nat) :
  includes messageLower (toLowerCase pattern) = true ->
  let e := scorePattern messageLower pattern index in
  let n := length (splitWhitespace (toLowerCase pattern)) in
  (3.0 <= Score.totalScore e)%Q /\
  1 <= Score.keywordCount e <= 1 + n /\
  (Score.score e == Score.totalScore e / num (Score.keywordCount e))%Q /\
  (3.0 / num (1 + n) <= Score.score e)%Q.
Proof.
  intros Hexact e n.
  pose proof (totalScore_decomposition messageLower pattern index) as Hdec.
  cbv zeta in Hdec. fold e in Hdec.
  set (messageWords := splitWhitespace messageLower) in *.
  set (patternWords := splitWhitespace (toLowerCase pattern)) in *.
  pose proof (sumQ_nonneg (wordGain messageWords) patternWords
                (wordGain_nonneg messageWords)) as Hw.
  pose proof (sumQ_nonneg (partialGain messageWords) patternWords
                (partialGain_nonneg messageWords)) as Hp.
  assert (Htotal : (3.0 <= Score.totalScore e)%Q).
  { unfold exactMatch in Hdec. rewrite Hexact in Hdec. cbn [fst] in Hdec.
    destruct (questionBonus messageLower); lra. }
  assert (Hk : 1 <= Score.keywordCount e <= 1 + n /\
               (Score.score e
                == Score.totalScore e / num (Score.keywordCount e))%Q).
  { subst e. unfold scorePattern, exactMatch. rewrite Hexact.
    fold messageWords patternWords.
    destruct (word_pass_sum messageWords patternWords 3.0%Q 1) as [_ Hcount].
    cbv zeta in Hcount.
    destruct (fold_left (wordMatch messageWords) patternWords (3.0%Q, 1))
      as [t1 k1].
    cbn [Score.keywordCount Score.score Score.totalScore snd] in *.
    fold n in Hcount. split; [lia|].
    destruct k1 as [|k1]; [lia|]. reflexivity. }
  destruct Hk as [Hk Hscore].
  split; [exact Htotal|]. split; [exact Hk|]. split; [exact Hscore|].
  rewrite Hscore.
  destruct (Score.keywordCount e) as [|k]; [lia|].
  pose proof (num_pos k) as Hkpos.
  pose proof (num_pos n) as Hnpos. change (S n) with (1 + n) in Hnpos.
  assert (Hkn : (num (S k) <= num (1 + n))%Q) by (apply num_le; lia).
  apply Qle_shift_div_l; [exact Hkpos|].
  apply Qle_trans with 3.0%Q; [|exact Htotal].
  unfold Qdiv. rewrite <- Qmult_assoc.
  setoid_replace 3.0%Q with (3.0 * 1)%Q at 2 by ring.
  apply Qmult_le_l; [reflexivity|].
  rewrite Qmult_comm. apply Qle_shift_div_r; [exact Hnpos|]. lra.
Qed.

(** C1, as the code has it. A pattern that the message contains has a
    total score of at least 3.0 and a normalized score of at least 3.0
    divided by one more than its number of words; at a threshold up to that
    bound [selectBestResponse] returns a pattern whose normalized score is
    the greatest of all patterns, whether the message contains that pattern
    or not. Which of several patterns with the same exact score is returned
    depends on the rounding of the sums and is left open. *)
Theorem exact_substring_pattern_score_bound
    (message : string) (patterns : list string) (pattern : string)
    (threshold : Q) :
  let messageLower := toLowerCase message in
  let n := length (splitWhitespace (toLowerCase pattern)) in
  plainPatterns patterns = true ->
  In pattern patterns ->
  includes messageLower (toLowerCase pattern) = true ->
  (threshold <= 3.0 / num (1 + n))%Q ->
  (forall index,
     let e := scorePattern messageLower pattern index in
     (3.0 <= Score.totalScore e)%Q /\
     1 <= Score.keywordCount e <= 1 + n /\
     (Score.score e == Score.totalScore e / num (Score.keywordCount e))%Q /\
     (3.0 / num (1 + n) <= Score.score e)%Q) /\
  (exists best entry,
     selectBestResponse message patterns threshold = Some best /\
     Best.pattern best = Score.pattern entry /\
     Best.score best = Score.score entry /\
     In entry (scoreFrom messageLower patterns 0) /\
     (forall e,
        In e (scoreFrom messageLower patterns 0) ->
        (Score.score e <= Score.score entry)%Q) /\
     (3.0 / num (1 + n) <= Best.score best)%Q).
Proof.
  intros messageLower n _ Hin Hexact Hthreshold.
  split; [intros index; now apply scorePattern_exact|].
  destruct (scoreFrom_pattern_In messageLower patterns 0 pattern Hin)
    as (i & Hi).
  destruct (sortByScore_head (scoreFrom messageLower patterns 0))
    as (first & rest & Hsort & Hmax).
  { intros Hnil. rewrite Hnil in Hi. destruct Hi. }
  pose proof (FirstMax_all _ _ _ _ Hmax Hi) as Hle.
  destruct (scorePattern_exact messageLower pattern i Hexact)
    as (_ & _ & _ & Hbound).
  cbv zeta in Hbound. fold n in Hbound.
  unfold selectBestResponse, calculateResponseScore. cbv zeta.
  fold messageLower. rewrite Hsort.
  assert (Hge : geb (Score.score first) threshold = true)
    by (apply Qle_bool_iff; lra).
  rewrite Hge. eexists _, first. split; [reflexivity|].
  cbn [Best.pattern Best.score].
  split; [reflexivity|]. split; [reflexivity|]. split.
  { destruct Hmax as (before & after & -> & _).
    apply in_or_app. right. now left. }
  split; [intros e He; exact (FirstMax_all _ _ _ _ Hmax He) | lra].
Qed.

(** C1 at the message "i am ok", the patterns of the chat route, the
    contained pattern "ok" and the threshold of the chat route. *)
Lemma exact_substring_pattern_score_bound_witness :
  plainPatterns chatPatterns = true /\
  In "ok" chatPatterns /\
  includes (toLowerCase "i am ok") (toLowerCase "ok") = true /\
  (3.0 / num 2 <= Score.score (scorePattern (toLowerCase "i am ok") "ok" 0))%Q
  /\
  (exists best,
     selectBestResponse "i am ok" chatPatterns 0.3 = Some best /\
     (3.0 / num 2 <= Best.score best)%Q).
Proof.
  assert (Hplain : plainPatterns chatPatterns = true)
    by (vm_compute; reflexivity).
  assert (Hin : In "ok" chatPatterns)
    by (apply arrayIncludes_In; vm_compute; reflexivity).
  assert (Hexact : includes (toLowerCase "i am ok") (toLowerCase "ok") = true)
    by (vm_compute; reflexivity).
  assert (Hthreshold : (0.3 <= 3.0 / num 2)%Q) by (vm_compute; discriminate).
  destruct (exact_substring_pattern_score_bound
              "i am ok" chatPatterns "ok" 0.3%Q Hplain Hin Hexact Hthreshold)
    as [Hscore (best & entry & Hbest & _ & _ & _ & _ & Hbound)].
  refine (conj Hplain (conj Hin (conj Hexact (conj _ _)))).
  - exact (proj2 (proj2 (proj2 (Hscore 0)))).
  - exists best. exact (conj Hbest Hbound).
Defined.

(** C1, as stated, fails: the message "i am ok" contains the pattern "ok"
    (normalized score 2.35, below 3.0), and the pattern selected at the
    threshold of the chat route is "maximum amount" (score 2.66), which the
    message does not contain. *)
Lemma exact_substring_pattern_not_preferred :
  In "ok" chatPatterns /\
  includes (toLowerCase "i am ok") (toLowerCase "ok") = true /\
  (Score.score (scorePattern (toLowerCase "i am ok") "ok" 0) == 2.35)%Q /\
  (exists best,
     selectBestResponse "i am ok" chatPatterns 0.3 = Some best /\
     Best.pattern best = "maximum amount" /\
     (Best.score best == 2.66)%Q /\
     includes (toLowerCase "i am ok") (toLowerCase (Best.pattern best))
       = false).
Proof.
  split; [apply arrayIncludes_In; vm_compute; reflexivity|].
  split; [vm_compute; reflexivity|]. split; [vm_compute; reflexivity|].
  eexists. split; [vm_compute; reflexivity|].
  split; [reflexivity|]. split; reflexivity.
Qed.

(** ** Intent recognition *)

Section ObjectUpdates.

Context {V : Type}.

Lemma get_set (obj : list (string * V)) (key key' : string) (v : V) :
  get (set obj key v) key' = if String.eqb key key' then Some v
                             else get obj key'.
Proof.
  induction obj as [|[k w] obj IH]; simpl.
  - destruct (String.eqb key key'); reflexivity.
  - destruct (String.eqb_spec k key) as [->|Hk]; simpl.
    + destruct (String.eqb key key'); reflexivity.
    + destruct (String.eqb_spec k key') as [->|Hk'].
      * destruct (String.eqb_spec key key') as [->|_]; [congruence|].
        reflexivity.
      * apply IH.
Qed.

Lemma set_addKey (obj : list (string * V)) (key : string) (v : V) :
  map fst (set obj key v) = addKey (map fst obj) key.
Proof.
  unfold addKey, arrayIncludes.
  induction obj as [|[k w] obj IH]; simpl; [reflexivity|].
  rewrite (String.eqb_sym key k).
  destruct (String.eqb k key); simpl; [reflexivity|].
  rewrite IH. destruct (existsb (String.eqb key) (map fst obj)); reflexivity.
Qed.

End ObjectUpdates.

Lemma addMeasure_keys (calls : list (nat * Q * string))
    (scores : list (string * Q)) :
  map fst (fold_left addMeasure calls scores)
  = fold_left addKey (map snd calls) (map fst scores).
Proof.
  revert scores. induction calls as [|[[i m] k] calls IH]; intros scores;
    [reflexivity|].
  cbn [fold_left map snd]. rewrite IH. f_equal.
  unfold addMeasure. apply set_addKey.
Qed.

Lemma aggregateScore_cons (i : nat) (m : Q) (k : string)
    (calls : list (nat * Q * string)) (intent : string) :
  (aggregateScore ((i, m, k) :: calls) intent
   == (if String.eqb k intent then m else 0) + aggregateScore calls intent)%Q.
Proof.
  unfold aggregateScore. cbn [filter snd].
  destruct (String.eqb k intent); cbn [map fst snd].
  - rewrite sumQ_cons. lra.
  - lra.
Qed.

Lemma addMeasure_values (calls : list (nat * Q * string))
    (scores : list (string * Q)) (intent : string) :
  (orZero (get (fold_left addMeasure calls scores) intent)
   == orZero (get scores intent) + aggregateScore calls intent)%Q.
Proof.
  revert scores. induction calls as [|[[i m] k] calls IH]; intros scores.
  - cbn [fold_left]. change (aggregateScore [] intent) with 0%Q. lra.
  - cbn [fold_left]. rewrite IH, aggregateScore_cons.
    unfold addMeasure. rewrite get_set.
    destruct (String.eqb_spec k intent) as [->|_]; cbn [orZero]; lra.
Qed.

Lemma trainingKeys_intents : fold_left addKey trainingKeys [] = intents.
Proof. vm_compute. reflexivity. Qed.

Lemma intents_nodup : NoDup intents.
Proof.
  unfold intents. simpl.
  repeat (constructor; [simpl; intuition discriminate|]). constructor.
Qed.

Lemma bestIntentStep_strict (best entry : string * Q) :
  bestIntentStep best entry = strictStep fst snd best entry.
Proof. destruct best, entry. reflexivity. Qed.

Lemma FirstMax_scores (scores : list (string * Q)) (agg : string -> Q)
    (x : string * Q) :
  (forall e, In e scores -> (snd e == agg (fst e))%Q) ->
  FirstMax snd scores x -> FirstMax agg (map fst scores) (fst x).
Proof.
  intros Hagg (before & after & -> & Hb & Ha).
  exists (map fst before), (map fst after).
  split; [now rewrite map_app|].
  assert (Hx : (snd x == agg (fst x))%Q)
    by (apply Hagg, in_or_app; right; now left).
  split; intros y Hy; apply in_map_iff in Hy as (e & <- & He).
  - rewrite <- Hx, <- (Hagg e) by (apply in_or_app; now left).
    apply Hb, He.
  - rewrite <- Hx, <- (Hagg e) by (apply in_or_app; right; now right).
    apply Ha, He.
Qed.

Section IntentRecognition.

Context {natural : TfIdfLibrary} {laws : TfIdfLaws natural}.

Lemma newNLPService_keys : documentKeys (tfidf newNLPService) = trainingKeys.
Proof.
  unfold newNLPService. cbv zeta. cbn [tfidf].
  assert (Hinner : forall phrases intent t,
    documentKeys
      (fold_left (fun tfidf phrase => addDocument tfidf phrase intent)
                 phrases t)
    = documentKeys t ++ map (fun _ => intent) phrases).
  { induction phrases as [|ph phrases IH]; intros intent t; cbn [fold_left map].
    - now rewrite app_nil_r.
    - rewrite IH, documentKeys_add, <- app_assoc. reflexivity. }
  assert (Houter : forall table t,
    documentKeys
      (fold_left
         (fun tfidf '(intent, phrases) =>
            fold_left (fun tfidf phrase => addDocument tfidf phrase intent)
                      phrases tfidf)
         table t)
    = documentKeys t
      ++ flat_map (fun entry => map (fun _ => fst entry) (snd entry)) table).
  { induction table as [|[intent phrases] table IH]; intros t;
      cbn [fold_left flat_map fst snd].
    - now rewrite app_nil_r.
    - rewrite IH, Hinner, <- app_assoc. reflexivity. }
  rewrite Houter, documentKeys_new. reflexivity.
Qed.


End IntentRecognition.

(** ** Entity extraction *)

Lemma documents_loop (p : string -> bool) (l : list string)
    (e : Entities.t) :
  fold_left
    (fun entities docType =>
       if p docType
       then Entities.setDocuments entities
              (Entities.documents entities ++ [docType])
       else entities)
    l e
  = Entities.setDocuments e (Entities.documents e ++ filter p l).
Proof.
  revert e. induction l as [|d l IH]; intros e; cbn [fold_left filter].
  - rewrite app_nil_r. now destruct e.
  - destruct (p d).
    + rewrite IH. destruct e. unfold Entities.setDocuments.
      cbn [Entities.documents Entities.amounts Entities.dates
           Entities.contact_info Entities.organizations Entities.locations].
      now rewrite <- app_assoc.
    + apply IH.
Qed.

Lemma date_patterns_loop (message : string) (patterns : list Regex)
    (found : list string) :
  fold_left
    (fun foundDates pattern =>
       match stringMatch message pattern with
       | Some matches => foundDates ++ matches
       | None => foundDates
       end)
    patterns found
  = found ++ flat_map (fun pattern => orEmpty (stringMatch message pattern))
                      patterns.
Proof.
  revert found. induction patterns as [|r rs IH]; intros found;
    cbn [fold_left flat_map].
  - now rewrite app_nil_r.
  - rewrite IH. destruct (stringMatch message r); cbn [orEmpty].
    + now rewrite <- app_assoc.
    + reflexivity.
Qed.

Lemma bind_returns {A B} (a : A) (k : A -> Outcome B) :
  bind (Returns a) k = k a.
Proof. reflexivity. Qed.

Lemma guarded_call (call : Outcome (option (list string)))
    (update : list string -> Entities.t) :
  tryCatch (value <- call ;; ret (update (orEmpty value)))
           (fun error => ret (update []))
  = Returns (update (containerOf (Some call) [])).
Proof. destruct call as [[v|] | e]; reflexivity. Qed.

Lemma guarded_method (method : option (Outcome (option (list string))))
    (fallback : list string) (update : list string -> Entities.t) :
  tryCatch
    match method with
    | Some call => value <- call ;; ret (update (orEmpty value))
    | None => ret (update fallback)
    end
    (fun error => ret (update []))
  = Returns (update (containerOf method fallback)).
Proof. destruct method as [[[v|] | e] |]; reflexivity. Qed.

(** C9. [extractEntities] returns a record of the six containers for every
    text and never throws. When the text parses, each container is decided
    by its own sub-extraction alone: a guarded library call that throws
    leaves its container empty and the others keep their results. When the
    parser itself throws, all six containers are empty. *)
Theorem extractEntities_never_throws
    {compromise : CompromiseLibrary} (message : string) :
  exists entities,
    extractEntities message = Returns entities /\
    match nlp message with
    | Throws _ => entities = Entities.empty
    | Returns doc =>
        Entities.amounts entities = containerOf (Some (doc_values doc)) [] /\
        Entities.dates entities
          = containerOf (doc_dates doc) (regexDates message) /\
        Entities.organizations entities
          = containerOf (doc_organizations doc) [] /\
        Entities.locations entities = containerOf (doc_places doc) [] /\
        Entities.documents entities
          = filter (includes (toLowerCase message)) documentKeywords /\
        Entities.contact_info entities
          = orEmpty (stringMatch message phonePattern)
            ++ orEmpty (stringMatch message emailPattern)
    end.
Proof.
  unfold extractEntities.
  destruct (nlp message) as [doc | error];
    [|eexists; split; reflexivity].
  rewrite bind_returns. cbv zeta.
  rewrite date_patterns_loop. fold (regexDates message). cbn [app].
  rewrite (guarded_call (doc_values doc) (Entities.setAmounts Entities.empty)).
  rewrite bind_returns.
  set (e1 := Entities.setAmounts _ _).
  rewrite (guarded_method (doc_dates doc) (regexDates message)
             (Entities.setDates e1)).
  rewrite bind_returns.
  set (e2 := Entities.setDates _ _).
  rewrite (guarded_method (doc_organizations doc) []
             (Entities.setOrganizations e2)).
  rewrite bind_returns.
  set (e3 := Entities.setOrganizations _ _).
  rewrite (guarded_method (doc_places doc) [] (Entities.setLocations e3)).
  rewrite bind_returns.
  rewrite documents_loop.
  eexists. split; [reflexivity|].
  subst e1 e2 e3.
  destruct (stringMatch message phonePattern) as [phones|];
    destruct (stringMatch message emailPattern) as [emails|];
    cbn [Entities.amounts Entities.dates Entities.contact_info
         Entities.documents Entities.organizations Entities.locations
         Entities.setAmounts Entities.setDates Entities.setContactInfo
         Entities.setDocuments Entities.setOrganizations
         Entities.setLocations Entities.empty app orEmpty];
    rewrite ?app_nil_r; repeat split; reflexivity.
Qed.

(** ** The stand-in index *)

Lemma reference_index_calls (terms : string) (docs : list (string * string))
    (i : nat) :
  map snd (Reference.callsFrom terms docs i) = map snd docs.
Proof.
  revert i. induction docs as [|[text key] docs IH]; intros i; simpl;
    [reflexivity|].
  now rewrite IH.
Qed.

Lemma reference_index_laws : TfIdfLaws Reference.index.
Proof.
  split.
  - reflexivity.
  - intros t text key. simpl. now rewrite map_app.
  - intros t terms. simpl. apply reference_index_calls.
  - reflexivity.
Qed.


(** * Further properties of the service *)

(** ** Lower-casing *)

Lemma lowerChar_idempotent (c : ascii) : lowerChar (lowerChar c) = lowerChar c.
Proof.
  destruct c as [[] [] [] [] [] [] [] []]; vm_compute; reflexivity.
Qed.

Lemma isWordChar_lowerChar (c : ascii) :
  isWordChar (lowerChar c) = isWordChar c.
Proof.
  destruct c as [[] [] [] [] [] [] [] []]; vm_compute; reflexivity.
Qed.

Lemma toLowerCase_idempotent (s : string) :
  toLowerCase (toLowerCase s) = toLowerCase s.
Proof.
  induction s as [|c s IH]; [reflexivity|].
  cbn [toLowerCase]. now rewrite lowerChar_idempotent, IH.
Qed.

Lemma toLowerCase_get (s : string) (n : nat) :
  String.get n (toLowerCase s) = option_map lowerChar (String.get n s).
Proof.
  revert n. induction s as [|c s IH]; intros n; [reflexivity|].
  destruct n as [|n]; [reflexivity|]. cbn [toLowerCase String.get]. apply IH.
Qed.

(** ** Question type *)

Lemma testWordPrefix_lower (word s : string) :
  testWordPrefix word (toLowerCase s) = testWordPrefix word s.
Proof.
  unfold testWordPrefix. rewrite toLowerCase_idempotent, toLowerCase_get.
  destruct (String.get (String.length word) s) as [c|]; cbn [option_map];
    [|reflexivity].
  now rewrite isWordChar_lowerChar.
Qed.

Lemma classifyQuestionType_lower (message : string) :
  classifyQuestionType (toLowerCase message) = classifyQuestionType message.
Proof.
  unfold classifyQuestionType.
  assert (Hfind : forall l,
    find (fun type => testWordPrefix type (toLowerCase message)) l
    = find (fun type => testWordPrefix type message) l).
  { induction l as [|t l IH]; cbn [find]; [reflexivity|].
    now rewrite testWordPrefix_lower, IH. }
  now rewrite Hfind.
Qed.

(** X1. The question type does not depend on the case of the message; it is
    "statement" or one of the fifteen question words, and then the
    lower-cased message starts with that word. *)
Theorem classifyQuestionType_case_insensitive (message : string) :
  classifyQuestionType (toLowerCase message) = classifyQuestionType message /\
  (classifyQuestionType message = "statement" \/
   (In (classifyQuestionType message) questionTypes /\
    startsWith (toLowerCase message) (classifyQuestionType message) = true)).
Proof.
  split; [apply classifyQuestionType_lower|].
  - unfold classifyQuestionType.
    destruct (find _ questionTypes) as [t|] eqn:E; [|now left].
    right. apply find_some in E as [Hin Htest]. split; [exact Hin|].
    unfold testWordPrefix in Htest. now apply andb_true_iff in Htest.
Qed.

(** ** Case of the message *)

(** X2. The classifiers that lower-case the message first give the same result
    for a message and for its lower-case form. *)
Theorem classifiers_ignore_case (message : string) :
  (forall history,
     analyzeSemanticContext (toLowerCase message) history
     = analyzeSemanticContext message history) /\
  fallbackSentimentAnalysis (toLowerCase message)
  = fallbackSentimentAnalysis message /\
  (forall sentiment,
     assessUrgency (toLowerCase message) sentiment
     = assessUrgency message sentiment) /\
  (forall patterns threshold,
     selectBestResponse (toLowerCase message) patterns threshold
     = selectBestResponse message patterns threshold) /\
  (forall maxKeywords,
     fallbackKeywordExtraction (toLowerCase message) maxKeywords
     = fallbackKeywordExtraction message maxKeywords) /\
  detectLanguage (toLowerCase message) = detectLanguage message /\
  generatePatternBasedResponse (toLowerCase message)
  = generatePatternBasedResponse message.
Proof.
  assert (Hselect : forall patterns threshold,
     selectBestResponse (toLowerCase message) patterns threshold
     = selectBestResponse message patterns threshold).
  { intros patterns threshold.
    unfold selectBestResponse, calculateResponseScore.
    now rewrite toLowerCase_idempotent. }
  repeat split.
  - intros history.
    unfold analyzeSemanticContext, findRelatedTopics.
    now rewrite toLowerCase_idempotent.
  - unfold fallbackSentimentAnalysis. now rewrite toLowerCase_idempotent.
  - intros sentiment. unfold assessUrgency.
    now rewrite toLowerCase_idempotent.
  - exact Hselect.
  - intros maxKeywords. unfold fallbackKeywordExtraction.
    now rewrite toLowerCase_idempotent.
  - unfold detectLanguage. now rewrite toLowerCase_idempotent.
  - unfold generatePatternBasedResponse. now rewrite Hselect.
Qed.

(** ** Sentiment, urgency and complexity *)

Lemma num_lt (a b : nat) : a < b <-> (num a < num b)%Q.
Proof. unfold num. rewrite <- Zlt_Qlt. lia. Qed.

Lemma num_eq (a b : nat) : a = b <-> (num a == num b)%Q.
Proof. unfold num. rewrite inject_Z_injective. lia. Qed.

Lemma num_add (a b : nat) : (num (a + b) == num a + num b)%Q.
Proof. unfold num. now rewrite Nat2Z.inj_add, inject_Z_plus. Qed.

Lemma num_sub (a b : nat) :
  (inject_Z (Z.of_nat a - Z.of_nat b) == num a - num b)%Q.
Proof.
  unfold num, Qminus. now rewrite <- inject_Z_opp, <- inject_Z_plus.
Qed.

Lemma Qdiv_between (a d : Q) :
  (0 < d)%Q -> (- d <= a <= d)%Q -> (-1 <= a / d <= 1)%Q.
Proof.
  intros Hd [Hlo Hhi]. split.
  - apply Qle_shift_div_l; [exact Hd | lra].
  - apply Qle_shift_div_r; [exact Hd | lra].
Qed.

Lemma Qdiv_pos_iff (a d : Q) : (0 < d)%Q -> (0 < a / d <-> 0 < a)%Q.
Proof.
  intros Hd. split; intros H.
  - assert (Heq : (a == a / d * d)%Q) by (field; lra).
    rewrite Heq. now apply Qmult_lt_0_compat.
  - apply Qlt_shift_div_l; [exact Hd | lra].
Qed.

Lemma Qdiv_neg_iff (a d : Q) : (0 < d)%Q -> (a / d < 0 <-> a < 0)%Q.
Proof.
  intros Hd. split; intros H.
  - assert (Heq : (a == a / d * d)%Q) by (field; lra).
    rewrite Heq. nra.
  - apply Qlt_shift_div_r; [exact Hd | lra].
Qed.

(** X3. The fallback sentiment score lies between -1 and 1; it is positive
    exactly when more positive than negative words occur in the message and
    negative exactly when more negative ones occur, and the message counts
    as neutral exactly when none of the listed words occurs. *)
Theorem fallbackSentimentAnalysis_bounds (message : string) :
  let sentiment := fallbackSentimentAnalysis message in
  let p := keywordHits (toLowerCase message) positiveWords in
  let n := keywordHits (toLowerCase message) negativeWords in
  (-1 <= score sentiment <= 1)%Q /\
  ((0 < score sentiment)%Q <-> n < p) /\
  ((score sentiment < 0)%Q <-> p < n) /\
  positive sentiment = num p /\
  negative sentiment = num n /\
  (neutral sentiment = 1%Q <-> p = 0 /\ n = 0) /\
  (neutral sentiment = 0%Q <-> 0 < p + n).
Proof.
  intros sentiment p n. subst sentiment.
  unfold fallbackSentimentAnalysis. cbn [score positive negative neutral].
  rewrite !countIncluded_hits. fold p n.
  destruct (p + n) as [|t] eqn:E.
  - cbn [Nat.ltb Nat.leb Nat.eqb].
    repeat split; try lra; try lia; try reflexivity; try discriminate;
      intros H; try (exfalso; lra); try lia.
  - change (0 <? S t) with true. change (S t =? 0) with false.
    cbv iota.
    assert (Hd : (0 < num (S t))%Q) by apply num_pos.
    assert (Hsum : (num (S t) == num p + num n)%Q)
      by (rewrite <- E; apply num_add).
    pose proof (num_nonneg p) as Hp. pose proof (num_nonneg n) as Hn.
    repeat split; try reflexivity; try discriminate; try lia.
    + apply Qdiv_between; [exact Hd|]. rewrite num_sub. lra.
    + apply Qdiv_between; [exact Hd|]. rewrite num_sub. lra.
    + intros H. apply Qdiv_pos_iff in H; [|exact Hd].
      rewrite num_sub in H. apply num_lt. lra.
    + intros H. apply Qdiv_pos_iff; [exact Hd|]. rewrite num_sub.
      apply num_lt in H. lra.
    + intros H. apply Qdiv_neg_iff in H; [|exact Hd].
      rewrite num_sub in H. apply num_lt. lra.
    + intros H. apply Qdiv_neg_iff; [exact Hd|]. rewrite num_sub.
      apply num_lt in H. lra.
Qed.

Lemma urgency_loop (messageLower : string) (kws : list string) (q : Q) :
  (fold_left
     (fun urgencyScore keyword =>
        if includes messageLower keyword then (urgencyScore + 1)%Q
        else urgencyScore)
     kws q
   == q + num (keywordHits messageLower kws))%Q.
Proof.
  unfold keywordHits. revert q.
  induction kws as [|k kws IH]; intros q; cbn [fold_left filter].
  - cbn [length]. change (num 0) with 0%Q. lra.
  - rewrite IH. destruct (includes messageLower k); cbn [length].
    + rewrite num_S. lra.
    + lra.
Qed.

Lemma mathMin_spec (a b : Q) :
  (a <= b /\ mathMin a b = a)%Q \/ (b < a /\ mathMin a b = b)%Q.
Proof.
  unfold mathMin. destruct (Qle_bool a b) eqn:E.
  - left. split; [now apply Qle_bool_iff | reflexivity].
  - right. split; [|reflexivity].
    apply Qnot_le_lt. intros H. apply Qle_bool_iff in H. congruence.
Qed.

(** X4. The urgency level is "high" exactly when the message contains one of the
    urgent keywords, "medium" exactly when it contains none and the given
    sentiment score is below -0.3, and "low" otherwise; the urgency score
    lies between 0 and 1 and is 1 for every message of level "high". *)
Theorem assessUrgency_levels (message : string) (sentiment : Sentiment) :
  let urgency := assessUrgency message sentiment in
  let hits := keywordHits (toLowerCase message) urgentKeywords in
  (Urgency.level urgency = "high" <-> 0 < hits) /\
  (Urgency.level urgency = "medium" <->
     hits = 0 /\ (score sentiment < -0.3)%Q) /\
  (Urgency.level urgency = "low" <->
     hits = 0 /\ (-0.3 <= score sentiment)%Q) /\
  (0 <= Urgency.score urgency <= 1)%Q /\
  (Urgency.level urgency = "high" -> (Urgency.score urgency == 1)%Q).
Proof.
  intros urgency hits. subst urgency. unfold assessUrgency.
  cbn [Urgency.level Urgency.score].
  pose proof (urgency_loop (toLowerCase message) urgentKeywords 0) as Hloop.
  fold hits in Hloop.
  set (u0 := fold_left _ urgentKeywords 0%Q) in *.
  set (u := if gtb (-0.3) (score sentiment) then (u0 + 0.5)%Q else u0).
  pose proof (num_nonneg hits) as Hnn.
  assert (Hone : 0 < hits -> (1 <= num hits)%Q).
  { intros H. change 1%Q with (num 1). apply num_le. lia. }
  assert (Hzero : hits = 0 -> (num hits == 0)%Q).
  { intros ->. reflexivity. }
  assert (Hu : ((score sentiment < -0.3)%Q /\ (u == num hits + 0.5)%Q)
               \/ ((-0.3 <= score sentiment)%Q /\ (u == num hits)%Q)).
  { subst u. destruct (gtb (-0.3) (score sentiment)) eqn:E.
    - left. apply gtb_true_iff in E. split; [exact E | lra].
    - right. apply gtb_false_iff in E. split; [exact E | lra]. }
  destruct (mathMin_spec u 1) as [[Hle ->]|[Hlt ->]];
    (destruct (gtb u 0.7) eqn:E1;
     [apply gtb_true_iff in E1
     |apply gtb_false_iff in E1;
      destruct (gtb u 0.3) eqn:E2;
      [apply gtb_true_iff in E2 | apply gtb_false_iff in E2]]);
    (destruct (Nat.eq_dec hits 0) as [Hh|Hh];
     [pose proof (Hzero Hh) | assert (0 < hits) as Hh' by lia;
                              pose proof (Hone Hh')]);
    destruct Hu as [[Hs Hu]|[Hs Hu]];
    try (exfalso; lra);
    repeat split; try discriminate; try lia; try lra;
    try (intros [? ?]; try lia; lra); try (intros; lra).
Qed.

Lemma splitRuns_not_nil (sep : ascii -> bool) (s : string) :
  1 <= length (splitRuns sep s).
Proof.
  induction s as [|c s IH]; cbn [splitRuns]; [cbn; lia|].
  destruct (sep c).
  - destruct s as [|c' s']; [cbn; lia|].
    destruct (sep c'); [exact IH | cbn [length]; lia].
  - destruct (splitRuns sep s); cbn [length] in *; lia.
Qed.

(** X5. A message always has at least one word and one sentence (also the empty
    message); a message of at most 10 words is never more than "low" in
    complexity, and complexity "high" takes more than 15 words. *)
Theorem assessComplexity_bounds (message : string) :
  let c := assessComplexity message in
  1 <= Complexity.wordCount c /\
  1 <= Complexity.sentenceCount c /\
  (0 < Complexity.avgWordsPerSentence c
   <= num (Complexity.wordCount c))%Q /\
  (Complexity.wordCount c <= 10 -> Complexity.complexity c = "low") /\
  (Complexity.complexity c = "medium" -> 10 < Complexity.wordCount c) /\
  (Complexity.complexity c = "high" -> 15 < Complexity.wordCount c).
Proof.
  intros c. subst c. unfold assessComplexity.
  cbn [Complexity.wordCount Complexity.sentenceCount
       Complexity.avgWordsPerSentence Complexity.complexity].
  pose proof (splitRuns_not_nil isSpace message) as Hw.
  pose proof (splitRuns_not_nil isSentenceEnd message) as Hs.
  fold (splitWhitespace message) in Hw.
  set (w := length (splitWhitespace message)) in *.
  set (s := length (splitRuns isSentenceEnd message)) in *.
  assert (Hw1 : (1 <= num w)%Q) by (change 1%Q with (num 1); now apply num_le).
  assert (Hs1 : (1 <= num s)%Q) by (change 1%Q with (num 1); now apply num_le).
  assert (Havg : (0 < num w / num s <= num w)%Q).
  { split.
    - apply Qlt_shift_div_l; lra.
    - apply Qle_shift_div_r; [lra|]. nra. }
  assert (Hten : w <= 10 -> (num w <= 10)%Q).
  { intros H. change 10%Q with (num 10). now apply num_le. }
  assert (Hgt : forall k, (num k < num w)%Q -> k < w).
  { intros k H. now apply num_lt. }
  split; [exact Hw|]. split; [exact Hs|]. split; [exact Havg|].
  destruct (gtb (num w / num s) 15) eqn:E1;
    [apply gtb_true_iff in E1
    |apply gtb_false_iff in E1;
     destruct (gtb (num w / num s) 10) eqn:E2;
     [apply gtb_true_iff in E2 | apply gtb_false_iff in E2]].
  - repeat split; try discriminate.
    + intros H. apply Hten in H. lra.
    + intros _. apply Hgt. change (num 15) with 15%Q. lra.
  - repeat split; try discriminate.
    + intros H. apply Hten in H. lra.
    + intros _. apply Hgt. change (num 10) with 10%Q. lra.
  - repeat split; discriminate.
Qed.

(** ** Guarded library calls *)

Lemma analyzeSentiment_returns {compromise : CompromiseLibrary}
    (message : string) :
  exists sentiment, analyzeSentiment message = Returns sentiment.
Proof.
  unfold analyzeSentiment.
  destruct (nlp message) as [doc|error]; [|eexists; reflexivity].
  rewrite bind_returns.
  destruct (doc_sentiment doc) as [[s|e]|]; eexists; reflexivity.
Qed.

(** X6. The sentiment analysis never throws: it gives the library's figures
    (an undefined one read as 0) when the parser has a sentiment method and
    the call succeeds, and the word-list fallback in every other case. *)
Theorem analyzeSentiment_never_throws {compromise : CompromiseLibrary}
    (message : string) :
  exists sentiment,
    analyzeSentiment message = Returns sentiment /\
    match nlp message with
    | Returns doc =>
        match doc_sentiment doc with
        | Some (Returns s) =>
            sentiment = {| score := orZero (lib_score s);
                           positive := orZero (lib_positive s);
                           negative := orZero (lib_negative s);
                           neutral := orZero (lib_neutral s) |}
        | _ => sentiment = fallbackSentimentAnalysis message
        end
    | Throws _ => sentiment = fallbackSentimentAnalysis message
    end.
Proof.
  unfold analyzeSentiment.
  destruct (nlp message) as [doc|error]; [|eexists; split; reflexivity].
  rewrite bind_returns.
  destruct (doc_sentiment doc) as [[s|e]|]; eexists; split; reflexivity.
Qed.

Lemma fallbackKeywordExtraction_length (message : string) (maxKeywords : nat) :
  length (fallbackKeywordExtraction message maxKeywords) <= maxKeywords.
Proof.
  unfold fallbackKeywordExtraction. rewrite length_map, length_firstn. lia.
Qed.

Lemma extractKeywords_returns {compromise : CompromiseLibrary}
    (message : string) (maxKeywords : nat) :
  exists keywords, extractKeywords message maxKeywords = Returns keywords.
Proof.
  unfold extractKeywords.
  destruct (nlp message) as [doc|error]; [|eexists; reflexivity].
  rewrite bind_returns.
  destruct (doc_keywords doc) as [[ks|e]|]; eexists; reflexivity.
Qed.

(** X7. The keyword extraction never throws and never returns more than
    [maxKeywords] keywords: the first ones of the library's list when the
    parser has a keywords method and the call succeeds; in every other
    case, for a message without a word that names an inherited property,
    the keywords of the fallback extraction. *)
Theorem extractKeywords_never_throws {compromise : CompromiseLibrary}
    (message : string) (maxKeywords : nat) :
  exists keywords,
    extractKeywords message maxKeywords = Returns keywords /\
    length keywords <= maxKeywords /\
    match nlp message with
    | Returns doc =>
        match doc_keywords doc with
        | Some (Returns found) => keywords = firstn maxKeywords found
        | _ =>
            plainMessage message = true ->
            keywords = fallbackKeywordExtraction message maxKeywords
        end
    | Throws _ =>
        plainMessage message = true ->
        keywords = fallbackKeywordExtraction message maxKeywords
    end.
Proof.
  unfold extractKeywords.
  pose proof (fallbackKeywordExtraction_length message maxKeywords) as Hlen.
  destruct (nlp message) as [doc|error];
    [|eexists; repeat split; [exact Hlen]].
  rewrite bind_returns.
  destruct (doc_keywords doc) as [[ks|e]|]; eexists;
    (split; [reflexivity|]); (split; [|reflexivity]); try exact Hlen.
  rewrite length_firstn. lia.
Qed.

Lemma mapOutcome_returns {A B} (f : A -> Outcome B) (arr : list A) :
  (forall a, In a arr -> exists b, f a = Returns b) ->
  exists bs,
    mapOutcome f arr = Returns bs /\
    Forall2 (fun a b => f a = Returns b) arr bs.
Proof.
  induction arr as [|a arr IH]; intros Hf.
  - exists []. split; [reflexivity | constructor].
  - destruct (Hf a (or_introl eq_refl)) as [b Hb].
    destruct IH as (bs & Hbs & Hall).
    { intros x Hx. apply Hf. now right. }
    exists (b :: bs). split.
    + cbn [mapOutcome]. rewrite Hb, bind_returns, Hbs. reflexivity.
    + now constructor.
Qed.

Lemma analyzeUserMood_returns {compromise : CompromiseLibrary}
    (sentiment : Sentiment) (history : list string) :
  exists mood,
    analyzeUserMood sentiment history = Returns mood /\
    In mood ["positive"; "negative"; "neutral"] /\
    (history = [] -> mood = "neutral").
Proof.
  unfold analyzeUserMood.
  destruct (mapOutcome_returns analyzeSentiment (sliceLast 5 history))
    as (sentiments & -> & Hall).
  { intros a _. apply analyzeSentiment_returns. }
  rewrite bind_returns. cbv zeta.
  assert (Hnil : history = [] -> sentiments = []).
  { intros ->. now inversion Hall. }
  unfold average.
  destruct sentiments as [|s sentiments].
  - cbn [length Nat.eqb]. eexists. split; [reflexivity|].
    split; [cbn; tauto | reflexivity].
  - cbn [length Nat.eqb].
    match goal with |- context [gtb ?a 0.3] => destruct (gtb a 0.3) end;
      [|match goal with |- context [gtb (-0.3) ?a] =>
          destruct (gtb (-0.3) a) end];
      (eexists; split; [reflexivity|]; split; [cbn; tauto|]);
      intros H; apply Hnil in H; discriminate.
Qed.

(** X8. The mood of the empty history, where the average is 0/0, is
    "neutral". A mood that is returned is "positive", "negative" or
    "neutral", and the first argument, the sentiment of the current message,
    has no influence on the answer. *)
Theorem analyzeUserMood_answers {compromise : CompromiseLibrary}
    (sentiment : Sentiment) (history : list string) :
  (history = [] -> analyzeUserMood sentiment history = Returns "neutral") /\
  (forall mood,
     analyzeUserMood sentiment history = Returns mood ->
     In mood ["positive"; "negative"; "neutral"]) /\
  (forall sentiment',
     analyzeUserMood sentiment' history
     = analyzeUserMood sentiment history).
Proof.
  destruct (analyzeUserMood_returns sentiment history)
    as (mood & Hmood & Hin & Hnil).
  split; [intros H; rewrite Hmood, (Hnil H); reflexivity|].
  split; [intros mood' H; rewrite Hmood in H; injection H as <-; exact Hin|].
  intros sentiment'. reflexivity.
Qed.

(** ** User needs, progression and journey *)

Lemma needs_loop (history : list string) (i g s c r : nat) :
  let needs :=
    fold_left
      (fun needs msg =>
         let content := toLowerCase msg in
         let questionType := classifyQuestionType content in
         let '(Needs.mk i g s c r) := needs in
         if String.eqb questionType "what" || String.eqb questionType "how"
         then Needs.mk (i + 1) g s c r
         else if String.eqb questionType "can"
                 || String.eqb questionType "could"
         then Needs.mk i (g + 1) s c r
         else if includes content "help" || includes content "support"
         then Needs.mk i g (s + 1) c r
         else if String.eqb questionType "why" || includes content "clarify"
         then Needs.mk i g s (c + 1) r
         else if includes content "safe" || includes content "trust"
                 || includes content "legitimate"
         then Needs.mk i g s c (r + 1)
         else needs)
      history (Needs.mk i g s c r) in
  Needs.information needs
  = i + length
          (filter
             (fun msg =>
                String.eqb (classifyQuestionType msg) "what"
                || String.eqb (classifyQuestionType msg) "how")
             history) /\
  Needs.guidance needs
  = g + length
          (filter
             (fun msg =>
                String.eqb (classifyQuestionType msg) "can"
                || String.eqb (classifyQuestionType msg) "could")
             history) /\
  Needs.information needs + Needs.guidance needs + Needs.support needs
  + Needs.clarification needs + Needs.reassurance needs
  <= i + g + s + c + r + length history /\
  s <= Needs.support needs /\
  c <= Needs.clarification needs /\
  r <= Needs.reassurance needs.
Proof.
  cbv zeta. revert i g s c r.
  induction history as [|msg history IH]; intros i g s c r.
  - cbn [fold_left filter length Needs.information Needs.guidance
         Needs.support Needs.clarification Needs.reassurance].
    repeat split; lia.
  - cbn [fold_left filter length].
    rewrite classifyQuestionType_lower.
    destruct (String.eqb (classifyQuestionType msg) "what"
              || String.eqb (classifyQuestionType msg) "how") eqn:E1.
    { destruct (IH (i + 1) g s c r) as (H1 & H2 & H3 & H4 & H5 & H6).
      assert (E2 : String.eqb (classifyQuestionType msg) "can"
                   || String.eqb (classifyQuestionType msg) "could" = false).
      { apply orb_true_iff in E1 as [E1|E1]; apply String.eqb_eq in E1;
          rewrite E1; reflexivity. }
      rewrite E2. cbn [length]. repeat split; lia. }
    destruct (String.eqb (classifyQuestionType msg) "can"
              || String.eqb (classifyQuestionType msg) "could") eqn:E2.
    { destruct (IH i (g + 1) s c r) as (H1 & H2 & H3 & H4 & H5 & H6).
      cbn [length]. repeat split; lia. }
    destruct (includes (toLowerCase msg) "help"
              || includes (toLowerCase msg) "support").
    { destruct (IH i g (s + 1) c r) as (H1 & H2 & H3 & H4 & H5 & H6).
      repeat split; lia. }
    destruct (String.eqb (classifyQuestionType msg) "why"
              || includes (toLowerCase msg) "clarify").
    { destruct (IH i g s (c + 1) r) as (H1 & H2 & H3 & H4 & H5 & H6).
      repeat split; lia. }
    destruct (includes (toLowerCase msg) "safe"
              || includes (toLowerCase msg) "trust"
              || includes (toLowerCase msg) "legitimate").
    { destruct (IH i g s c (r + 1)) as (H1 & H2 & H3 & H4 & H5 & H6).
      repeat split; lia. }
    destruct (IH i g s c r) as (H1 & H2 & H3 & H4 & H5 & H6).
    repeat split; lia.
Qed.

(** X9. Every message of the history adds to at most one of the five needs, so
    the five counters add up to at most the number of messages; the need
    for information counts exactly the messages that open with "what" or
    "how", and the need for guidance those that open with "can" or
    "could", whatever else these messages contain. *)
Theorem identifyUserNeeds_counts (history : list string) :
  let needs := identifyUserNeeds history in
  Needs.information needs + Needs.guidance needs + Needs.support needs
  + Needs.clarification needs + Needs.reassurance needs
  <= length history /\
  Needs.information needs
  = length
      (filter
         (fun msg =>
            String.eqb (classifyQuestionType msg) "what"
            || String.eqb (classifyQuestionType msg) "how")
         history) /\
  Needs.guidance needs
  = length
      (filter
         (fun msg =>
            String.eqb (classifyQuestionType msg) "can"
            || String.eqb (classifyQuestionType msg) "could")
         history).
Proof.
  intros needs. subst needs. unfold identifyUserNeeds.
  destruct (needs_loop history 0 0 0 0 0) as (H1 & H2 & H3 & _).
  cbv zeta in H1, H2, H3. repeat split; [lia | exact H1 | exact H2].
Qed.

Lemma unique_In (l : list string) (y : string) : In y (unique l) <-> In y l.
Proof.
  induction l as [|x l IH]; [reflexivity|].
  cbn [unique]. split.
  - intros [<-|H]; [now left|].
    apply filter_In in H as [H _]. right. now apply IH.
  - intros [<-|H]; [now left|].
    destruct (String.eqb_spec y x) as [->|Hne]; [now left|].
    right. apply filter_In. split; [now apply IH|].
    apply negb_true_iff. now apply String.eqb_neq.
Qed.

Lemma unique_single (l : list string) :
  length (unique l) <= 1 <-> allEqual l.
Proof.
  destruct l as [|x l].
  - split; [intros _ a b [] | cbn; lia].
  - cbn [unique length].
    set (others := filter (fun y => negb (String.eqb y x)) (unique l)).
    assert (Hothers : forall y, In y others <-> In y l /\ y <> x).
    { intros y. unfold others. rewrite filter_In, unique_In, negb_true_iff.
      now rewrite String.eqb_neq. }
    split.
    + intros H.
      assert (Hnil : others = []) by (destruct others; [easy | cbn in H; lia]).
      assert (Hall : forall y, In y (x :: l) -> y = x).
      { intros y [<-|Hy]; [reflexivity|].
        destruct (string_dec y x) as [->|Hne]; [reflexivity|].
        assert (Hin : In y others) by now apply Hothers.
        rewrite Hnil in Hin. destruct Hin. }
      intros a b Ha Hb. now rewrite (Hall a Ha), (Hall b Hb).
    + intros Hall. destruct others as [|y rest] eqn:E; [cbn; lia|].
      assert (Hin : In y (y :: rest)) by now left.
      apply Hothers in Hin as [Hin Hne]. exfalso. apply Hne.
      apply Hall; [now right | now left].
Qed.

Lemma length_sliceLast {A} (n : nat) (l : list A) :
  length (sliceLast n l) = Nat.min n (length l).
Proof. unfold sliceLast. rewrite length_skipn. lia. Qed.

Lemma getJourneyStages_nodup : NoDup (map fst getJourneyStages).
Proof. exact journeyStages_nodup. Qed.

Lemma recent_stages (history : list string) :
  exists stages,
    mapOutcome (fun msg => determineUserStage [msg] getJourneyStages)
               (sliceLast 3 history) = Returns stages /\
    Forall2
      (fun msg stage =>
         determineUserStage [msg] getJourneyStages = Returns stage)
      (sliceLast 3 history) stages.
Proof.
  apply mapOutcome_returns. intros msg _.
  destruct (determineUserStage_spec [msg] getJourneyStages)
    as (entry & Hr & _).
  - exact getJourneyStages_nodup.
  - discriminate.
  - now exists (fst entry).
Qed.

Lemma nonDecreasing_constant (allStages stages : list string) :
  allEqual stages -> nonDecreasing (map (indexOf allStages) stages) = true.
Proof.
  induction stages as [|a stages IH]; intros Heq; [reflexivity|].
  destruct stages as [|b stages]; [reflexivity|].
  change (nonDecreasing (map (indexOf allStages) (a :: b :: stages)))
    with ((indexOf allStages a <=? indexOf allStages b)%Z
          && nonDecreasing (map (indexOf allStages) (b :: stages))).
  rewrite IH.
  - rewrite (Heq a b); [|now left | right; now left].
    now rewrite Z.leb_refl.
  - intros x y Hx Hy. apply Heq; now right.
Qed.

Lemma analyzeProgression_returns (history : list string) :
  exists progression, analyzeProgression history = Returns progression.
Proof.
  unfold analyzeProgression.
  destruct (length history <? 2); [now eexists|].
  destruct (recent_stages history) as (stages & -> & _).
  rewrite bind_returns. now eexists.
Qed.

Lemma analyzeProgression_cases (history : list string) :
  (length history < 2 /\ analyzeProgression history = Returns Starting) \/
  (2 <= length history /\
   exists status stages direction,
     analyzeProgression history
     = Returns (Progress status stages direction) /\
     Forall2
       (fun msg stage =>
          determineUserStage [msg] getJourneyStages = Returns stage)
       (sliceLast 3 history) stages /\
     length stages = Nat.min 3 (length history) /\
     (status = "stuck" <-> allEqual stages) /\
     (status = "progressing" <-> ~ allEqual stages) /\
     (direction = "forward" \/ direction = "backward") /\
     (status = "stuck" -> direction = "forward")).
Proof.
  unfold analyzeProgression.
  destruct (Nat.ltb_spec (length history) 2) as [Hlt|Hge];
    [left; now split|].
  right. split; [exact Hge|].
  destruct (recent_stages history) as (stages & -> & Hall).
  rewrite bind_returns. cbv zeta.
  assert (Hlen : length stages = Nat.min 3 (length history)).
  { rewrite <- (Forall2_length Hall). apply length_sliceLast. }
  eexists _, stages, _. split; [reflexivity|].
  split; [exact Hall|]. split; [exact Hlen|].
  pose proof (unique_single stages) as Huniq.
  repeat split.
  - destruct (Nat.ltb_spec 1 (length (unique stages))) as [H1|H1];
      [discriminate | intros _; now apply Huniq].
  - intros H. apply Huniq in H.
    destruct (Nat.ltb_spec 1 (length (unique stages))); [lia | reflexivity].
  - destruct (Nat.ltb_spec 1 (length (unique stages))) as [H1|H1];
      [|discriminate].
    intros _ H. apply Huniq in H. lia.
  - intros H.
    destruct (Nat.ltb_spec 1 (length (unique stages))) as [H1|H1];
      [reflexivity|].
    exfalso. apply H. now apply Huniq.
  - unfold assessDirection.
    destruct (Nat.ltb_spec (length stages) 2) as [H2|H2]; [lia|].
    destruct (nonDecreasing _); [now left | now right].
  - destruct (Nat.ltb_spec 1 (length (unique stages))) as [H1|H1];
      [discriminate|].
    intros _. unfold assessDirection.
    destruct (Nat.ltb_spec (length stages) 2) as [H2|H2]; [lia|].
    rewrite nonDecreasing_constant; [reflexivity | now apply Huniq].
Qed.

(** X10. A history of fewer than two messages is "starting". A progression
    that is returned for a longer history lists the stage of each of the
    last three messages taken alone; its status is "stuck" when these
    stages are all the same and "progressing" when they are not, and its
    direction is "forward" or "backward", never "neutral"; a stuck
    conversation always has the direction "forward". *)
Theorem analyzeProgression_status (history : list string) :
  (length history < 2 -> analyzeProgression history = Returns Starting) /\
  (forall status stages direction,
     analyzeProgression history
     = Returns (Progress status stages direction) ->
     2 <= length history /\
     Forall2
       (fun msg stage =>
          determineUserStage [msg] getJourneyStages = Returns stage)
       (sliceLast 3 history) stages /\
     length stages = Nat.min 3 (length history) /\
     (status = "stuck" <-> allEqual stages) /\
     (status = "progressing" <-> ~ allEqual stages) /\
     (direction = "forward" \/ direction = "backward") /\
     (status = "stuck" -> direction = "forward")).
Proof.
  destruct (analyzeProgression_cases history)
    as [[Hlt Hr] | (Hge & status & stages & direction & Hr & H)].
  - split; [intros _; exact Hr|].
    intros status stages direction H. rewrite Hr in H. discriminate.
  - split; [intros Hlt; lia|].
    intros status' stages' direction' H'. rewrite Hr in H'.
    injection H' as <- <- <-. split; [exact Hge | exact H].
Qed.

Lemma analyzeUserJourney_returns (history : list string) :
  exists journey,
    analyzeUserJourney history = Returns journey /\
    (journey = NewUser <-> history = []) /\
    (history <> [] ->
     exists stage progression,
       journey = Journey stage progression (calculateEngagement history)
                         (identifyUserNeeds history) /\
       StageIsLatestBest history stage /\
       analyzeProgression history = Returns progression).
Proof.
  unfold analyzeUserJourney.
  destruct history as [|m history].
  - exists NewUser. repeat split. congruence.
  - cbn [length Nat.eqb].
    destruct (determineUserStage_spec (m :: history) journeyStages)
      as (entry & -> & Hmax);
      [exact journeyStages_nodup | discriminate |].
    destruct (analyzeProgression_returns (m :: history)) as (p & Hp).
    rewrite bind_returns, Hp, bind_returns.
    eexists. split; [reflexivity|]. split; [split; discriminate|].
    intros _. exists (fst entry), p. repeat split.
    now exists entry.
Qed.

(** X11. The journey of the empty history is "new user". A journey that is
    returned is "new user" only for the empty history; for every other
    history it reports the stage with the most keyword hits over the last
    three messages (the later stage on a tie), the progression, the
    engagement and the needs of the whole history. *)
Theorem analyzeUserJourney_journey (history : list string) :
  (history = [] -> analyzeUserJourney history = Returns NewUser) /\
  (forall journey,
     analyzeUserJourney history = Returns journey ->
     (journey = NewUser <-> history = []) /\
     (history = [] \/
      exists stage progression,
        journey = Journey stage progression (calculateEngagement history)
                          (identifyUserNeeds history) /\
        StageIsLatestBest history stage /\
        analyzeProgression history = Returns progression)).
Proof.
  split; [intros ->; reflexivity|].
  intros journey Hjourney.
  destruct (analyzeUserJourney_returns history) as (j & Hr & Hnew & Hj).
  rewrite Hr in Hjourney. injection Hjourney as <-.
  split; [exact Hnew|].
  destruct history as [|m history]; [now left|].
  right. apply Hj. discriminate.
Qed.

Lemma length_sum_loop (l : list string) (q : Q) :
  (fold_left (fun sum msg => (sum + num (String.length msg))%Q) l q
   == q + num (list_sum (map String.length l)))%Q.
Proof.
  revert q. induction l as [|m l IH]; intros q; cbn [fold_left map].
  - change (num (list_sum [])) with 0%Q. lra.
  - rewrite IH.
    change (list_sum (String.length m :: map String.length l))
      with (String.length m + list_sum (map String.length l)).
    rewrite num_add. lra.
Qed.

(** X12. The engagement counts every message of the history; the first message
    is never counted as a follow-up question, so the follow-up count stays
    below the message count of a non-empty history. The average message
    length of the empty history is undefined (NaN); an average that is a
    number is the total length over the count. *)
Theorem calculateEngagement_bounds (history : list string) :
  let e := calculateEngagement history in
  Engagement.messageCount e = length history /\
  Engagement.followUpQuestions e <= length history - 1 /\
  (history = [] -> Engagement.avgMessageLength e = None) /\
  (forall avg,
     Engagement.avgMessageLength e = Some avg ->
     (avg == num (list_sum (map String.length history))
             / num (length history))%Q) /\
  (Engagement.engagement e = "high" <-> 5 < length history) /\
  (Engagement.engagement e = "low" <-> length history <= 2).
Proof.
  intros e. subst e. unfold calculateEngagement.
  cbn [Engagement.messageCount Engagement.followUpQuestions
       Engagement.avgMessageLength Engagement.engagement].
  split; [reflexivity|]. split.
  { pose proof (filter_length_le
      (fun msg => negb (String.eqb (classifyQuestionType msg) "statement"))
      (tl history)) as H.
    destruct history; cbn [tl length] in *; lia. }
  unfold average. split.
  { intros ->. reflexivity. }
  split.
  { intros avg. destruct (length history =? 0); [discriminate|].
    intros [= <-]. now rewrite length_sum_loop, Qplus_0_l. }
  destruct (Nat.ltb_spec 5 (length history));
    [|destruct (Nat.ltb_spec 2 (length history))];
    repeat split; try discriminate; try lia; reflexivity.
Qed.

(** ** Conversation topic *)

Lemma counter_increment (obj : list (string * nat)) (key name : string) :
  counter (increment obj key) name
  = counter obj name + (if String.eqb key name then 1 else 0).
Proof.
  unfold counter, increment. rewrite get_set.
  destruct (String.eqb_spec key name) as [->|_]; lia.
Qed.

Lemma sum_increment (obj : list (string * nat)) (key : string) :
  list_sum (map snd (increment obj key)) = list_sum (map snd obj) + 1.
Proof.
  unfold increment.
  induction obj as [|[k w] obj IH]; [reflexivity|].
  cbn [get set]. destruct (String.eqb k key).
  - change (list_sum (map snd ((k, w) :: obj)))
      with (w + list_sum (map snd obj)).
    change (list_sum (map snd ((k, w + 1) :: obj)))
      with (w + 1 + list_sum (map snd obj)).
    lia.
  - change (list_sum (map snd ((k, w) :: set obj key
              (match get obj key with Some v => v | None => 0 end + 1))))
      with (w + list_sum (map snd (set obj key
              (match get obj key with Some v => v | None => 0 end + 1)))).
    rewrite IH.
    change (list_sum (map snd ((k, w) :: obj)))
      with (w + list_sum (map snd obj)).
    lia.
Qed.

Lemma topics_loop (msgs : list string) (topics : list (string * nat)) :
  let topics' :=
    fold_left
      (fun topics content =>
         match category (analyzeSemanticContext content []) with
         | Some c => increment topics c
         | None => topics
         end)
      msgs topics in
  (forall name,
     counter topics' name
     = counter topics name
       + length
           (filter
              (fun msg =>
                 match category (analyzeSemanticContext msg []) with
                 | Some c => String.eqb c name
                 | None => false
                 end)
              msgs)) /\
  list_sum (map snd topics') <= list_sum (map snd topics) + length msgs.
Proof.
  cbv zeta. revert topics.
  induction msgs as [|msg msgs IH]; intros topics.
  - cbn [fold_left filter length]. split; [intros name|]; lia.
  - cbn [fold_left filter length].
    destruct (category (analyzeSemanticContext msg [])) as [c|].
    + destruct (IH (increment topics c)) as [Hcount Hsum]. split.
      * intros name. rewrite Hcount, counter_increment.
        destruct (String.eqb c name); cbn [length]; lia.
      * rewrite sum_increment in Hsum. lia.
    + destruct (IH topics) as [Hcount Hsum]. split; [exact Hcount | lia].
Qed.

Lemma mathMax_le_sum (values : list nat) : mathMax values <= list_sum values.
Proof.
  unfold mathMax.
  induction values as [|v values IH]; [reflexivity|].
  cbn [fold_right list_sum]. fold (list_sum values). lia.
Qed.

Lemma category_frequency_outside (history : list string) (name : string) :
  ~ In name (map fst semanticCategories) -> categoryFrequency history name = 0.
Proof.
  intros Hout. unfold categoryFrequency.
  induction (sliceLast 5 history) as [|msg msgs IH]; [reflexivity|].
  cbn [filter].
  destruct (category (analyzeSemanticContext msg [])) as [c|] eqn:Ec;
    [|exact IH].
  destruct (String.eqb_spec c name) as [->|_]; [|exact IH].
  apply category_in_table in Ec. contradiction.
Qed.

Lemma identifyConversationTopic_cases (history : list string) :
  (history = [] /\
   identifyConversationTopic history = Returns NewConversation) \/
  (history <> [] /\
   exists primary distribution consistency,
     identifyConversationTopic history
     = Returns (Topic primary distribution consistency) /\
     (forall name,
        counter distribution name = categoryFrequency history name) /\
     get distribution "application" = Some 0 /\
     get distribution "support" = Some 0 /\
     get distribution "technical" = Some 0 /\
     list_sum (map snd distribution) <= Nat.min 5 (length history) /\
     (0 <= consistency <= 1)%Q).
Proof.
  destruct history as [|m history]; [left; split; reflexivity|].
  right. split; [discriminate|].
  destruct (identifyConversationTopic_primary_is_last (m :: history))
    as (distribution & consistency & Hr); [discriminate|].
  pose proof Hr as Hr'.
  unfold identifyConversationTopic in Hr'.
  cbn [length Nat.eqb] in Hr'. cbv zeta in Hr'.
  destruct (topics_loop (sliceLast 5 (m :: history)) initialTopics)
    as [Hcount Hsum].
  cbv zeta in Hcount, Hsum.
  set (topics := fold_left _ (sliceLast 5 (m :: history)) initialTopics) in *.
  destruct (reduce _ topics) as [mainTopic|e]; [|discriminate].
  injection Hr' as _ Hd Hc.
  exists (last distribution ("", 0)), distribution, consistency.
  split; [exact Hr|].
  assert (Hfreq : forall name,
            counter distribution name
            = categoryFrequency (m :: history) name).
  { intros name. rewrite <- Hd, Hcount. unfold categoryFrequency.
    assert (H0 : counter initialTopics name = 0).
    { unfold counter, initialTopics. cbn [get].
      repeat match goal with
             | |- context [String.eqb ?a name] => destruct (String.eqb a name)
             end; reflexivity. }
    rewrite H0. reflexivity. }
  assert (Hzero : forall name,
            ~ In name (map fst semanticCategories) ->
            In name (map fst initialTopics) ->
            get distribution name = Some 0).
  { intros name Hout Hin.
    pose proof (Hfreq name) as Hn.
    rewrite (category_frequency_outside _ _ Hout) in Hn.
    unfold counter in Hn.
    assert (Hsome : get topics name <> None).
    { clear - Hin. unfold topics.
      generalize (sliceLast 5 (m :: history)).
      assert (Hinit : get initialTopics name <> None).
      { cbn in Hin.
        repeat (destruct Hin as [<-|Hin]; [discriminate|]). destruct Hin. }
      revert Hinit. generalize initialTopics.
      intros obj Hobj msgs. revert obj Hobj.
      induction msgs as [|msg msgs IH]; intros obj Hobj; [exact Hobj|].
      cbn [fold_left]. apply IH.
      destruct (category _) as [c|]; [|exact Hobj].
      unfold increment. rewrite get_set.
      destruct (String.eqb c name); [discriminate | exact Hobj]. }
    rewrite Hd in Hsome.
    destruct (get distribution name) as [v|]; [now subst v | congruence]. }
  split; [exact Hfreq|].
  split; [apply Hzero; [cbn; intuition discriminate | cbn; tauto]|].
  split; [apply Hzero; [cbn; intuition discriminate | cbn; tauto]|].
  split; [apply Hzero; [cbn; intuition discriminate | cbn; tauto]|].
  assert (Hlen : length (sliceLast 5 (m :: history))
                 = Nat.min 5 (length (m :: history)))
    by apply length_sliceLast.
  assert (Hsum' : list_sum (map snd distribution)
                  <= Nat.min 5 (length (m :: history))).
  { rewrite <- Hd, <- Hlen. exact Hsum. }
  split; [exact Hsum'|].
  rewrite <- Hc, Hd, Hlen.
  pose proof (mathMax_le_sum (map snd distribution)) as Hmax.
  set (n := Nat.min 5 (length (m :: history))) in *.
  assert (Hn : 1 <= n) by (unfold n; cbn [length]; lia).
  assert (Hq : (1 <= num n)%Q) by (change 1%Q with (num 1); now apply num_le).
  assert (Hm : (num (mathMax (map snd distribution)) <= num n)%Q)
    by (apply num_le; lia).
  split.
  - apply num_div_nonneg.
  - apply Qle_shift_div_r; lra.
Qed.

(** X13. The topic of the empty history is "new conversation". In a topic
    that is returned for another history, each counter of the distribution
    holds the number of the last five messages that the category matcher
    puts under its key; the initial keys "application", "support" and
    "technical" name no category and stay at 0; the counters add up to at
    most the number of these messages, and the consistency lies between 0
    and 1. *)
Theorem identifyConversationTopic_distribution (history : list string) :
  (history = [] ->
   identifyConversationTopic history = Returns NewConversation) /\
  (forall primary distribution consistency,
     identifyConversationTopic history
     = Returns (Topic primary distribution consistency) ->
     history <> [] /\
     (forall name,
        counter distribution name = categoryFrequency history name) /\
     get distribution "application" = Some 0 /\
     get distribution "support" = Some 0 /\
     get distribution "technical" = Some 0 /\
     list_sum (map snd distribution) <= Nat.min 5 (length history) /\
     (0 <= consistency <= 1)%Q).
Proof.
  destruct (identifyConversationTopic_cases history)
    as [[Hnil Hr] | (Hne & primary & distribution & consistency & Hr & H)].
  - split; [intros _; exact Hr|].
    intros primary distribution consistency H. rewrite Hr in H.
    discriminate.
  - split; [intros Hnil; contradiction|].
    intros primary' distribution' consistency' H'. rewrite Hr in H'.
    injection H' as <- <- <-. split; [exact Hne | exact H].
Qed.

(** ** The context analysis as a whole *)

Lemma extractEntities_returns {compromise : CompromiseLibrary}
    (message : string) :
  exists entities, extractEntities message = Returns entities.
Proof.
  unfold extractEntities.
  destruct (nlp message) as [doc|error]; [|eexists; reflexivity].
  rewrite bind_returns. cbv zeta.
  rewrite (guarded_call (doc_values doc) (Entities.setAmounts Entities.empty)).
  rewrite bind_returns.
  set (e1 := Entities.setAmounts _ _).
  set (found := fold_left _ datePatterns []).
  rewrite (guarded_method (doc_dates doc) found (Entities.setDates e1)).
  rewrite bind_returns.
  set (e2 := Entities.setDates _ _).
  rewrite (guarded_method (doc_organizations doc) []
             (Entities.setOrganizations e2)).
  rewrite bind_returns.
  set (e3 := Entities.setOrganizations _ _).
  rewrite (guarded_method (doc_places doc) [] (Entities.setLocations e3)).
  rewrite bind_returns.
  eexists. reflexivity.
Qed.

Section Returning.

Context {natural : TfIdfLibrary} {compromise : CompromiseLibrary}.

Lemma Returning_ret {A} (a : A) (P : A -> Prop) :
  P a -> Returning (ret a) P.
Proof. intros H this. now exists a, this. Qed.

Lemma Returning_pure {A} (c : Outcome A) (P : A -> Prop) :
  (exists a, c = Returns a /\ P a) -> Returning (pure c) P.
Proof. intros (a & -> & H) this. now exists a, this. Qed.

Lemma Returning_bind {A B} (c : Method A) (k : A -> Method B)
    (P : A -> Prop) (Q : B -> Prop) :
  Returning c P -> (forall a, P a -> Returning (k a) Q) ->
  Returning (a <- c ;; k a) Q.
Proof.
  intros Hc Hk this. destruct (Hc this) as (a & this' & Hrun & Ha).
  cbn [bind MethodMonad]. rewrite Hrun. apply (Hk a Ha).
Qed.

Lemma Returning_recognizeIntent (message : string) :
  Returning (recognizeIntent message) (fun _ => True).
Proof.
  intros this. unfold recognizeIntent.
  destruct (tfidfs (tfidf this) (toLowerCase message)) as [calls tfidf'].
  destruct (fold_left bestIntentStep _ _) as [bestIntent bestScore].
  now eexists _, _.
Qed.

Lemma Returning_mapMethod {A B} (f : A -> Method B) (arr : list A) :
  (forall a, Returning (f a) (fun _ => True)) ->
  Returning (mapMethod f arr) (fun bs => length bs = length arr).
Proof.
  intros Hf. induction arr as [|a arr IH]; cbn [mapMethod].
  - now apply Returning_ret.
  - eapply Returning_bind; [apply Hf|]. intros b _.
    eapply Returning_bind; [apply IH|]. intros bs Hbs.
    apply Returning_ret. cbn [length]. now rewrite Hbs.
Qed.

Lemma understandContext_returns (message : string) (history : list string) :
  Returning (understandContext message history)
    (fun context =>
       Context.conversationLength context = length history /\
       Context.isFollowUp context = negb (length history =? 0) /\
       length (Context.previousIntents context)
       = Nat.min 3 (length history) /\
       Context.semanticContext context
       = analyzeSemanticContext message history /\
       Context.questionType context = classifyQuestionType message /\
       Context.complexity context = assessComplexity message /\
       Context.urgency context
       = assessUrgency message (Context.sentiment context) /\
       analyzeSentiment message = Returns (Context.sentiment context) /\
       extractEntities message = Returns (Context.entities context) /\
       extractKeywords message 5 = Returns (Context.keywords context) /\
       analyzeUserJourney history = Returns (Context.userJourney context) /\
       identifyConversationTopic history
       = Returns (Context.conversationTopic context) /\
       In (Context.userMood context) ["positive"; "negative"; "neutral"]).
Proof.
  unfold understandContext.
  eapply Returning_bind; [apply Returning_recognizeIntent|].
  intros intent _.
  eapply Returning_bind.
  { apply Returning_pure
      with (P := fun e => extractEntities message = Returns e).
    destruct (extractEntities_returns message) as [e He]. now exists e. }
  intros entities Hentities.
  eapply Returning_bind.
  { apply Returning_pure
      with (P := fun s => analyzeSentiment message = Returns s).
    destruct (analyzeSentiment_returns message) as [s Hs]. now exists s. }
  intros sentiment Hsentiment.
  eapply Returning_bind.
  { apply Returning_pure
      with (P := fun k => extractKeywords message 5 = Returns k).
    destruct (extractKeywords_returns message 5) as [k Hk]. now exists k. }
  intros keywords Hkeywords. cbv zeta.
  eapply Returning_bind.
  { apply Returning_mapMethod. intros m. apply Returning_recognizeIntent. }
  intros previousIntents Hprevious.
  eapply Returning_bind.
  { apply Returning_pure
      with (P := fun mood => In mood ["positive"; "negative"; "neutral"]).
    destruct (analyzeUserMood_returns sentiment history)
      as (mood & Hmood & Hin & _).
    exists mood. split; assumption. }
  intros userMood HuserMood.
  eapply Returning_bind.
  { apply Returning_pure
      with (P := fun t => identifyConversationTopic history = Returns t).
    destruct history as [|m history]; [now eexists|].
    destruct (identifyConversationTopic_primary_is_last (m :: history))
      as (d & c & Hr); [discriminate|].
    eexists. split; exact Hr. }
  intros conversationTopic Htopic.
  eapply Returning_bind.
  { apply Returning_pure
      with (P := fun j => analyzeUserJourney history = Returns j).
    destruct (analyzeUserJourney_returns history) as (j & Hj & _).
    now exists j. }
  intros userJourney Hjourney.
  apply Returning_ret.
  cbn [Context.conversationLength Context.isFollowUp Context.previousIntents
       Context.semanticContext Context.questionType Context.complexity
       Context.urgency Context.sentiment Context.entities Context.keywords
       Context.userJourney Context.conversationTopic Context.userMood].
  repeat split; try assumption.
  - now destruct history.
  - rewrite Hprevious. apply length_sliceLast.
Qed.

End Returning.

(** X14. A context that the context analysis returns holds the length of
    the history, the follow-up flag (set exactly for a non-empty history),
    one previous intent for each of the last three messages at most, and
    the results of the single analyses of the message; its keywords are the
    extracted ones for a message without a word that names an inherited
    property. The journey is "new user" and the topic "new conversation"
    exactly for the empty history. *)
Theorem understandContext_context
    {natural : TfIdfLibrary} {compromise : CompromiseLibrary}
    (message : string) (history : list string) (this : NLPService)
    (context : Context.t) :
  fst (understandContext message history this) = Returns context ->
  Context.conversationLength context = length history /\
  Context.isFollowUp context = negb (length history =? 0) /\
  length (Context.previousIntents context) = Nat.min 3 (length history) /\
  Context.semanticContext context
  = analyzeSemanticContext message history /\
  Context.questionType context = classifyQuestionType message /\
  Context.complexity context = assessComplexity message /\
  Context.urgency context
  = assessUrgency message (Context.sentiment context) /\
  analyzeSentiment message = Returns (Context.sentiment context) /\
  extractEntities message = Returns (Context.entities context) /\
  (plainMessage message = true ->
   extractKeywords message 5 = Returns (Context.keywords context)) /\
  (Context.userJourney context = NewUser <-> history = []) /\
  (Context.conversationTopic context = NewConversation <-> history = []).
Proof.
  intros Hcontext.
  destruct (understandContext_returns message history this)
    as (context' & this' & Hrun & H).
  rewrite Hrun in Hcontext. cbn [fst] in Hcontext.
  injection Hcontext as <-.
  destruct H as (H1 & H2 & H3 & H4 & H5 & H6 & H7 & H8 & H9 & H10 & H11
                 & H12 & _).
  repeat (split; [first [reflexivity | assumption]|]).
  split; [intros _; exact H10|].
  split.
  - destruct (analyzeUserJourney_returns history) as (j & Hj & Hnew & _).
    rewrite Hj in H11. injection H11 as <-. exact Hnew.
  - destruct history as [|m history].
    + cbn in H12. injection H12 as <-. split; reflexivity.
    + destruct (identifyConversationTopic_primary_is_last (m :: history))
        as (d & c & Hr); [discriminate|].
      rewrite Hr in H12. injection H12 as <-. split; discriminate.
Qed.

Lemma understandContext_context_witness :
  match
    fst (@understandContext Reference.index Reference.parser
           "hello" [] (@newNLPService Reference.index))
  with
  | Returns context => Context.conversationLength context = 0
  | Throws _ => False
  end.
Proof.
  destruct (fst (@understandContext Reference.index Reference.parser
                   "hello" [] (@newNLPService Reference.index)))
    as [context|error] eqn:E.
  - exact (proj1 (@understandContext_context
                    Reference.index Reference.parser "hello" []
                    (@newNLPService Reference.index) context E)).
  - vm_compute in E. discriminate E.
Defined.

(** ** Ranking and selection of the response patterns *)

Lemma scorePattern_fields (messageLower pattern : string) (index : nat) :
  Score.pattern (scorePattern messageLower pattern index) = pattern /\
  Score.index (scorePattern messageLower pattern index) = index.
Proof.
  unfold scorePattern.
  destruct (exactMatch messageLower pattern) as [t0 k0].
  destruct (fold_left _ _ (t0, k0)) as [t1 k1].
  split; reflexivity.
Qed.

Lemma scorePattern_score (messageLower pattern : string) (index : nat) :
  let e := scorePattern messageLower pattern index in
  (Score.keywordCount e = 0 /\ Score.score e = Score.totalScore e) \/
  (0 < Score.keywordCount e /\
   Score.score e = (Score.totalScore e / num (Score.keywordCount e))%Q).
Proof.
  cbv zeta. unfold scorePattern.
  destruct (exactMatch messageLower pattern) as [t0 k0].
  destruct (fold_left _ _ (t0, k0)) as [t1 k1].
  cbn [Score.keywordCount Score.score Score.totalScore].
  destruct k1 as [|k1]; [left; now split | right; split; [lia | reflexivity]].
Qed.

Lemma totalScore_nonneg (messageLower pattern : string) (index : nat) :
  ((if questionBonus messageLower then 0.5 else 0)
   <= Score.totalScore (scorePattern messageLower pattern index))%Q.
Proof.
  pose proof (totalScore_decomposition messageLower pattern index) as Hdec.
  cbv zeta in Hdec.
  pose proof (sumQ_nonneg (wordGain (splitWhitespace messageLower))
                (splitWhitespace (toLowerCase pattern))
                (wordGain_nonneg _)) as Hw.
  pose proof (sumQ_nonneg (partialGain (splitWhitespace messageLower))
                (splitWhitespace (toLowerCase pattern))
                (partialGain_nonneg _)) as Hp.
  assert (He : (0 <= fst (exactMatch messageLower pattern))%Q).
  { unfold exactMatch. destruct (includes _ _); cbn [fst]; lra. }
  lra.
Qed.

Lemma scorePattern_nonneg (messageLower pattern : string) (index : nat) :
  (0 <= Score.score (scorePattern messageLower pattern index))%Q.
Proof.
  pose proof (totalScore_nonneg messageLower pattern index) as Ht.
  assert (Ht' : (0 <= Score.totalScore
                         (scorePattern messageLower pattern index))%Q)
    by (destruct (questionBonus messageLower); lra).
  destruct (scorePattern_score messageLower pattern index)
    as [[_ ->] | [Hk ->]]; [exact Ht'|].
  apply Qle_shift_div_l; [|lra].
  destruct (Score.keywordCount _); [lia | apply num_pos].
Qed.

Lemma scoreFrom_nth (messageLower : string) (patterns : list string)
    (index : nat) (e : Score.t) :
  In e (scoreFrom messageLower patterns index) ->
  exists j,
    nth_error patterns j = Some (Score.pattern e) /\
    Score.index e = index + j /\
    e = scorePattern messageLower (Score.pattern e) (Score.index e).
Proof.
  revert index. induction patterns as [|p ps IH]; intros index;
    cbn [scoreFrom]; [intros []|].
  destruct (scorePattern_fields messageLower p index) as [Hp Hi].
  intros [<- | He].
  - exists 0. rewrite Hp, Hi. repeat split. lia.
  - destruct (IH _ He) as (j & Hj & Hidx & Heq).
    exists (S j). repeat split; [exact Hj | lia | exact Heq].
Qed.

Lemma length_scoreFrom (messageLower : string) (patterns : list string)
    (index : nat) :
  length (scoreFrom messageLower patterns index) = length patterns.
Proof.
  revert index. induction patterns as [|p ps IH]; intros index;
    cbn [scoreFrom length]; [reflexivity | now rewrite IH].
Qed.

Lemma insertByScore_perm (a : Score.t) (sorted : list Score.t) :
  Permutation (insertByScore a sorted) (a :: sorted).
Proof.
  induction sorted as [|b rest IH]; cbn [insertByScore]; [reflexivity|].
  destruct (Qle_bool _ _); [reflexivity|].
  rewrite IH. apply perm_swap.
Qed.

Lemma sortByScore_perm (scores : list Score.t) :
  Permutation (sortByScore scores) scores.
Proof.
  induction scores as [|a scores IH]; cbn [sortByScore fold_right];
    [reflexivity|].
  fold (sortByScore scores). rewrite insertByScore_perm. now constructor.
Qed.

Lemma insertByScore_sorted (a : Score.t) (sorted : list Score.t) :
  StronglySorted (fun x y => (Score.score y <= Score.score x)%Q) sorted ->
  StronglySorted (fun x y => (Score.score y <= Score.score x)%Q)
                 (insertByScore a sorted).
Proof.
  induction sorted as [|b rest IH]; intros Hsorted; cbn [insertByScore].
  - repeat constructor.
  - apply StronglySorted_inv in Hsorted as [Hrest Hb].
    destruct (Qle_bool (Score.score b - Score.score a) 0) eqn:E.
    + apply Qle_bool_iff in E.
      constructor; [now constructor|].
      constructor; [lra|].
      eapply Forall_impl; [|exact Hb]. cbv beta. intros x Hx. lra.
    + assert (Hlt : (Score.score a < Score.score b)%Q).
      { apply Qnot_le_lt. intros Hle.
        assert (Qle_bool (Score.score b - Score.score a) 0 = true)
          by (apply Qle_bool_iff; lra).
        congruence. }
      constructor; [now apply IH|].
      apply Forall_forall. intros x Hx.
      apply insertByScore_In in Hx as [-> | Hx]; [lra|].
      rewrite Forall_forall in Hb. now apply Hb.
Qed.

Lemma sortByScore_sorted (scores : list Score.t) :
  StronglySorted (fun x y => (Score.score y <= Score.score x)%Q)
                 (sortByScore scores).
Proof.
  induction scores as [|a scores IH]; cbn [sortByScore fold_right];
    [constructor|].
  now apply insertByScore_sorted.
Qed.

(** X15. The scorer returns one entry for every pattern of the list, each with
    the pattern's place in the list and a score that is not negative, and
    the entries are ordered by falling score. *)
Theorem calculateResponseScore_sorted
    (message : string) (patterns : list string) :
  plainPatterns patterns = true ->
  let scores := calculateResponseScore message patterns in
  Permutation scores (scoreFrom (toLowerCase message) patterns 0) /\
  length scores = length patterns /\
  StronglySorted (fun x y => (Score.score y <= Score.score x)%Q) scores /\
  (forall e,
     In e scores ->
     nth_error patterns (Score.index e) = Some (Score.pattern e) /\
     e = scorePattern (toLowerCase message) (Score.pattern e)
                      (Score.index e) /\
     (0 <= Score.score e)%Q).
Proof.
  intros _ scores. subst scores. unfold calculateResponseScore. cbv zeta.
  pose proof (sortByScore_perm (scoreFrom (toLowerCase message) patterns 0))
    as Hperm.
  split; [exact Hperm|]. split.
  { rewrite (Permutation_length Hperm). apply length_scoreFrom. }
  split; [apply sortByScore_sorted|].
  intros e He. apply sortByScore_In in He.
  destruct (scoreFrom_nth _ _ _ _ He) as (j & Hj & Hidx & Heq).
  cbn [Nat.add] in Hidx. rewrite Hidx. split; [exact Hj|].
  rewrite <- Hidx. split; [exact Heq|].
  rewrite Heq. apply scorePattern_nonneg.
Qed.

Lemma calculateResponseScore_sorted_witness :
  plainPatterns chatPatterns = true /\
  length (calculateResponseScore "what is the loan amount" chatPatterns)
  = length chatPatterns.
Proof.
  assert (Hplain : plainPatterns chatPatterns = true)
    by (vm_compute; reflexivity).
  exact (conj Hplain
           (proj1 (proj2 (calculateResponseScore_sorted
                            "what is the loan amount" chatPatterns Hplain)))).
Defined.

Lemma selectBestResponse_cases (message : string) (patterns : list string)
    (threshold : Q) :
  (patterns = [] /\ selectBestResponse message patterns threshold = None) \/
  (exists first rest,
     calculateResponseScore message patterns = first :: rest /\
     FirstMax Score.score (scoreFrom (toLowerCase message) patterns 0) first /\
     selectBestResponse message patterns threshold
     = if geb (Score.score first) threshold
       then Some (Best.mk (Score.pattern first) (Score.score first)
                          (mathMin (Score.score first / 3.0) 1.0)%Q
                          (first :: rest))
       else None).
Proof.
  destruct patterns as [|p ps]; [left; now split|]. right.
  destruct (sortByScore_head (scoreFrom (toLowerCase message) (p :: ps) 0))
    as (first & rest & Hsort & Hmax); [discriminate|].
  exists first, rest.
  unfold selectBestResponse, calculateResponseScore. cbv zeta.
  rewrite Hsort. repeat split. exact Hmax.
Qed.

(** X16. A result of [selectBestResponse] that is not null names a pattern
    of the list; its score reaches the threshold and is the greatest of all
    scores, its confidence lies between 0 and 1 and is 1 exactly from a
    score of 3 on, and it carries one score entry per pattern, ordered by
    falling score. *)
Theorem selectBestResponse_result
    (message : string) (patterns : list string) (threshold : Q)
    (best : Best.t) :
  plainPatterns patterns = true ->
  selectBestResponse message patterns threshold = Some best ->
  In (Best.pattern best) patterns /\
  (threshold <= Best.score best)%Q /\
  (0 <= Best.confidence best <= 1)%Q /\
  ((Best.confidence best == 1)%Q <-> (3 <= Best.score best)%Q) /\
  Permutation (Best.allScores best)
              (scoreFrom (toLowerCase message) patterns 0) /\
  StronglySorted (fun x y => (Score.score y <= Score.score x)%Q)
                 (Best.allScores best) /\
  (exists entry,
     In entry (Best.allScores best) /\
     Best.pattern best = Score.pattern entry /\
     Best.score best = Score.score entry) /\
  (forall e,
     In e (Best.allScores best) ->
     (Score.score e <= Best.score best)%Q).
Proof.
  intros _ Hbest.
  destruct (selectBestResponse_cases message patterns threshold)
    as [[-> Hnone] | (first & rest & Hsort & Hmax & Hsel)];
    [congruence|].
  rewrite Hsel in Hbest.
  assert (Hfirst : In first (scoreFrom (toLowerCase message) patterns 0)).
  { destruct Hmax as (b & a & -> & _). apply in_or_app. right. now left. }
  destruct (geb (Score.score first) threshold) eqn:E; [|discriminate].
  apply Qle_bool_iff in E. injection Hbest as <-.
  cbn [Best.pattern Best.score Best.confidence Best.allScores].
  destruct (scoreFrom_In _ _ _ _ Hfirst) as (p & i & Hp & Heq).
  assert (Hnn : (0 <= Score.score first)%Q)
    by (rewrite Heq; apply scorePattern_nonneg).
  assert (Hdiv : (Score.score first / 3.0 == Score.score first * (1 # 3))%Q)
    by field.
  split.
  { rewrite Heq. now rewrite (proj1 (scorePattern_fields _ _ _)). }
  split; [exact E|]. split.
  { destruct (mathMin_spec (Score.score first / 3.0) 1.0)
      as [[Hle ->] | [Hlt ->]]; lra. }
  split.
  { destruct (mathMin_spec (Score.score first / 3.0) 1.0)
      as [[Hle ->] | [Hlt ->]]; split; intros H; lra. }
  rewrite <- Hsort. unfold calculateResponseScore.
  split; [apply sortByScore_perm|]. split; [apply sortByScore_sorted|].
  split.
  { exists first. fold (calculateResponseScore message patterns).
    rewrite Hsort. repeat split. now left. }
  intros e He. apply sortByScore_In in He.
  exact (FirstMax_all _ _ _ _ Hmax He).
Qed.

Lemma selectBestResponse_result_witness :
  plainPatterns chatPatterns = true /\
  match selectBestResponse "i am ok" chatPatterns 0.3 with
  | Some best => (0.3 <= Best.score best)%Q
  | None => False
  end.
Proof.
  assert (Hplain : plainPatterns chatPatterns = true)
    by (vm_compute; reflexivity).
  split; [exact Hplain|].
  destruct (selectBestResponse "i am ok" chatPatterns 0.3) as [best|] eqn:E.
  - exact (proj1 (proj2 (selectBestResponse_result
                           "i am ok" chatPatterns 0.3%Q best Hplain E))).
  - vm_compute in E. discriminate E.
Defined.

Lemma importantKeywords_floor (word : string) (weight : Q) :
  get importantKeywords word = Some weight -> (0.8 <= weight)%Q.
Proof.
  intros H. apply get_some_In in H.
  assert (F : forallb (fun e => geb (snd e) 0.8) importantKeywords = true)
    by (vm_compute; reflexivity).
  rewrite forallb_forall in F. apply F in H. now apply Qle_bool_iff in H.
Qed.

Lemma wordMatch_floor (messageWords : list string) (word : string)
    (t : Q) (k : nat) :
  (0.8 * num k <= t)%Q ->
  (0.8 * num (snd (wordMatch messageWords (t, k) word))
   <= fst (wordMatch messageWords (t, k) word))%Q.
Proof.
  intros H. unfold wordMatch.
  destruct (arrayIncludes messageWords word); [|exact H].
  destruct (get importantKeywords word) as [w|] eqn:E.
  - apply importantKeywords_floor in E. cbn [fst snd]. rewrite num_S. lra.
  - destruct (get commonWords word) as [w|] eqn:E'; cbn [fst snd].
    + apply commonWords_pos in E'. lra.
    + rewrite num_S. lra.
Qed.

Lemma word_pass_floor (messageWords patternWords : list string)
    (t : Q) (k : nat) :
  (0.8 * num k <= t)%Q ->
  (0.8 * num (snd (fold_left (wordMatch messageWords) patternWords (t, k)))
   <= fst (fold_left (wordMatch messageWords) patternWords (t, k)))%Q.
Proof.
  revert t k. induction patternWords as [|w ws IH]; intros t k H;
    cbn [fold_left]; [exact H|].
  pose proof (wordMatch_floor messageWords w t k H) as Hw.
  destruct (wordMatch messageWords (t, k) w) as [t' k'].
  now apply IH.
Qed.

(** Every keyword that a pattern counts brings at least 0.8 to its total,
    so a normalized score is never below the question bonus. *)
Lemma scorePattern_question (messageLower pattern : string) (index : nat) :
  questionBonus messageLower = true ->
  (0.5 <= Score.score (scorePattern messageLower pattern index))%Q.
Proof.
  intros Hq. unfold scorePattern.
  assert (H0 : (0.8 * num (snd (exactMatch messageLower pattern))
                <= fst (exactMatch messageLower pattern))%Q).
  { unfold exactMatch. destruct (includes _ _); cbn [fst snd].
    - change (num 1) with 1%Q. lra.
    - change (num 0) with 0%Q. lra. }
  destruct (exactMatch messageLower pattern) as [t0 k0].
  cbn [fst snd] in H0.
  pose proof (word_pass_floor (splitWhitespace messageLower)
                (splitWhitespace (toLowerCase pattern)) t0 k0 H0) as H1.
  destruct (fold_left (wordMatch _) _ (t0, k0)) as [t1 k1].
  cbn [fst snd] in H1.
  pose proof (partial_pass_sum (splitWhitespace messageLower)
                (splitWhitespace (toLowerCase pattern)) t1) as H2.
  pose proof (sumQ_nonneg (partialGain (splitWhitespace messageLower))
                (splitWhitespace (toLowerCase pattern))
                (partialGain_nonneg _)) as Hp.
  rewrite Hq. cbn [Score.score].
  pose proof (num_nonneg k1) as Hk.
  destruct k1 as [|k1]; cbn [Nat.ltb Nat.leb].
  - lra.
  - pose proof (num_pos k1) as Hpos.
    apply Qle_shift_div_l; [exact Hpos|]. lra.
Qed.

(** X17. A message that contains one of the question words "what", "how", "why",
    "when", "where", "who", "which", "can", "could", "would", "should"
    anywhere, also inside another word, gives every pattern a score of at
    least 0.5; so at a threshold up to 0.5 [selectBestResponse] never
    returns null for it on a non-empty pattern list. *)
Theorem question_word_selects_a_pattern
    (message : string) (patterns : list string) (threshold : Q) :
  plainPatterns patterns = true ->
  patterns <> [] ->
  questionBonus (toLowerCase message) = true ->
  (threshold <= 0.5)%Q ->
  (forall e,
     In e (calculateResponseScore message patterns) ->
     (0.5 <= Score.score e)%Q) /\
  exists best,
    selectBestResponse message patterns threshold = Some best /\
    (0.5 <= Best.score best)%Q.
Proof.
  intros _ Hne Hq Hthreshold.
  assert (Hall : forall e,
            In e (scoreFrom (toLowerCase message) patterns 0) ->
            (0.5 <= Score.score e)%Q).
  { intros e He. destruct (scoreFrom_In _ _ _ _ He) as (p & i & _ & ->).
    now apply scorePattern_question. }
  split.
  { intros e He. unfold calculateResponseScore in He.
    apply sortByScore_In in He. now apply Hall. }
  destruct (selectBestResponse_cases message patterns threshold)
    as [[-> _] | (first & rest & Hsort & Hmax & ->)]; [congruence|].
  assert (Hfirst : In first (scoreFrom (toLowerCase message) patterns 0)).
  { destruct Hmax as (b & a & -> & _). apply in_or_app. right. now left. }
  apply Hall in Hfirst.
  assert (Hge : geb (Score.score first) threshold = true)
    by (apply Qle_bool_iff; lra).
  rewrite Hge. eexists. split; [reflexivity|]. exact Hfirst.
Qed.

Lemma question_word_selects_a_pattern_witness :
  plainPatterns chatPatterns = true /\
  chatPatterns <> [] /\
  questionBonus (toLowerCase "I scanned it") = true /\
  exists best,
    selectBestResponse "I scanned it" chatPatterns 0.3 = Some best /\
    (0.5 <= Best.score best)%Q.
Proof.
  assert (Hplain : plainPatterns chatPatterns = true)
    by (vm_compute; reflexivity).
  assert (Hne : chatPatterns <> []) by discriminate.
  assert (Hq : questionBonus (toLowerCase "I scanned it") = true)
    by (vm_compute; reflexivity).
  assert (Hthreshold : (0.3 <= 0.5)%Q) by (vm_compute; discriminate).
  exact (conj Hplain (conj Hne (conj Hq
           (proj2 (question_word_selects_a_pattern
                     "I scanned it" chatPatterns 0.3%Q
                     Hplain Hne Hq Hthreshold))))).
Defined.

(** ** The pattern fallback of the chat route *)

Lemma responsePatterns_texts (row : ResponsePattern) :
  In row responsePatterns ->
  response row <> defaultResponse /\ response row <> "".
Proof.
  intros Hin.
  assert (F : forallb
                (fun rp =>
                   negb (String.eqb (response rp) defaultResponse)
                   && negb (String.eqb (response rp) ""))
                responsePatterns = true) by (vm_compute; reflexivity).
  rewrite forallb_forall in F. apply F in Hin.
  apply andb_true_iff in Hin as [H1 H2].
  apply negb_true_iff in H1, H2. now rewrite String.eqb_neq in H1, H2.
Qed.

Lemma find_selected_row (selected : string) :
  In selected chatPatterns ->
  exists row,
    arrayFind (fun rp => String.eqb (pattern rp) selected) responsePatterns
    = Some row /\
    In row responsePatterns /\ pattern row = selected.
Proof.
  intros Hin. unfold arrayFind.
  destruct (find _ responsePatterns) as [row|] eqn:E.
  - exists row. split; [reflexivity|].
    apply find_some in E as [Hrow Heq]. now apply String.eqb_eq in Heq.
  - exfalso. unfold chatPatterns in Hin. apply in_map_iff in Hin
      as (rp & Hrp & Hin).
    apply (find_none _ _ E) in Hin. rewrite Hrp, String.eqb_refl in Hin.
    discriminate.
Qed.

Lemma generatePatternBasedResponse_returns (message : string) :
  exists response,
    generatePatternBasedResponse message = Returns response /\
    response <> "" /\
    ((response = defaultResponse /\
      selectBestResponse message chatPatterns 0.3 = None) \/
     (response <> defaultResponse /\
      exists best row,
        selectBestResponse message chatPatterns 0.3 = Some best /\
        arrayFind (fun rp => String.eqb (pattern rp) (Best.pattern best))
                  responsePatterns = Some row /\
        In row responsePatterns /\
        pattern row = Best.pattern best /\
        response = Chat.response row)).
Proof.
  unfold generatePatternBasedResponse. cbv zeta. fold chatPatterns.
  destruct (selectBestResponse_cases message chatPatterns 0.3%Q)
    as [[Hnil _] | (first & rest & Hsort & Hmax & Hsel)]; [discriminate|].
  rewrite Hsel.
  destruct (geb (Score.score first) 0.3) eqn:E.
  - assert (Hfirst : In first (scoreFrom (toLowerCase message) chatPatterns 0)).
    { destruct Hmax as (b & a & -> & _). apply in_or_app. right. now left. }
    destruct (scoreFrom_In _ _ _ _ Hfirst) as (p & i & Hp & Heq).
    assert (Hpat : In (Score.pattern first) chatPatterns).
    { rewrite Heq. now rewrite (proj1 (scorePattern_fields _ _ _)). }
    cbn [Best.pattern].
    destruct (find_selected_row _ Hpat) as (row & Hfind & Hrow & Hname).
    rewrite Hfind.
    destruct (responsePatterns_texts row Hrow) as [Hd He].
    exists (response row). split; [reflexivity|]. split; [exact He|].
    right. split; [exact Hd|].
    eexists _, row. split; [reflexivity|]. cbn [Best.pattern].
    repeat split; assumption.
  - exists defaultResponse. split; [reflexivity|].
    split; [discriminate|]. left. now split.
Qed.

Lemma scorePattern_index (messageLower pattern : string) (i j : nat) :
  Score.score (scorePattern messageLower pattern i)
  = Score.score (scorePattern messageLower pattern j).
Proof.
  unfold scorePattern.
  destruct (exactMatch messageLower pattern) as [t0 k0].
  destruct (fold_left _ _ (t0, k0)) as [t1 k1].
  reflexivity.
Qed.

Lemma patternScore_entry (messageLower : string) (entry : Score.t) :
  In entry (scoreFrom messageLower chatPatterns 0) ->
  Score.score entry = patternScore messageLower (Score.pattern entry).
Proof.
  intros Hin. destruct (scoreFrom_In _ _ _ _ Hin) as (p & i & _ & ->).
  rewrite (proj1 (scorePattern_fields _ _ _)). apply scorePattern_index.
Qed.

Lemma patternScore_bound (messageLower : string) (first : Score.t)
    (row : ResponsePattern) :
  FirstMax Score.score (scoreFrom messageLower chatPatterns 0) first ->
  In row responsePatterns ->
  (patternScore messageLower (pattern row) <= Score.score first)%Q.
Proof.
  intros Hmax Hrow.
  assert (Hpat : In (pattern row) chatPatterns) by now apply in_map.
  destruct (scoreFrom_pattern_In messageLower chatPatterns 0 _ Hpat)
    as (i & Hi).
  pose proof (FirstMax_all _ _ _ _ Hmax Hi) as Hle.
  unfold patternScore.
  now rewrite (scorePattern_index messageLower (pattern row) 0 i).
Qed.

Lemma generatePatternBasedResponse_answer (message : string) :
  exists response,
    generatePatternBasedResponse message = Returns response /\
    response <> "" /\
    PatternAnswer message response /\
    ((forall row,
        In row responsePatterns ->
        (patternScore (toLowerCase message) (pattern row) < 0.3)%Q) ->
     response = defaultResponse) /\
    ((exists row,
        In row responsePatterns /\
        (0.3 < patternScore (toLowerCase message) (pattern row))%Q) ->
     response <> defaultResponse).
Proof.
  unfold generatePatternBasedResponse. cbv zeta. fold chatPatterns.
  destruct (selectBestResponse_cases message chatPatterns 0.3%Q)
    as [[Hnil _] | (first & rest & Hsort & Hmax & Hsel)]; [discriminate|].
  rewrite Hsel.
  assert (Hfirst : In first
                      (scoreFrom (toLowerCase message) chatPatterns 0)).
  { destruct Hmax as (b & a & -> & _). apply in_or_app. right. now left. }
  pose proof (patternScore_entry _ _ Hfirst) as Hscore.
  destruct (geb (Score.score first) 0.3) eqn:E.
  - apply Qle_bool_iff in E.
    destruct (scoreFrom_In _ _ _ _ Hfirst) as (p & i & Hp & Heq).
    assert (Hpat : In (Score.pattern first) chatPatterns).
    { rewrite Heq. now rewrite (proj1 (scorePattern_fields _ _ _)). }
    cbn [Best.pattern].
    destruct (find_selected_row _ Hpat) as (row & Hfind & Hrow & Hname).
    rewrite Hfind.
    destruct (responsePatterns_texts row Hrow) as [Hd He].
    exists (response row). split; [reflexivity|]. split; [exact He|].
    split; [|split].
    + right. exists row. cbv zeta. rewrite Hname, <- Hscore.
      split; [exact Hrow|]. split; [reflexivity|]. split; [exact E|].
      intros other Hother. now apply patternScore_bound.
    + intros Hall. specialize (Hall row Hrow).
      rewrite Hname, <- Hscore in Hall. lra.
    + intros _. exact Hd.
  - assert (Hlt : (Score.score first < 0.3)%Q).
    { apply Qnot_le_lt. intros H. apply Qle_bool_iff in H.
      unfold geb in E. congruence. }
    exists defaultResponse. split; [reflexivity|].
    split; [discriminate|]. split; [now left|]. split; [reflexivity|].
    intros (row & Hrow & Hgt).
    pose proof (patternScore_bound _ _ row Hmax Hrow). lra.
Qed.

(** X18. The pattern fallback never throws and never answers with an empty
    text: the selected pattern is always found in the table. Its answer is
    the generic text or the response of a table row whose pattern scores at
    least 0.3 and no less than any other pattern of the table. It is the
    generic text when every pattern scores below 0.3 and a row's response
    when some pattern scores above 0.3; for a message that contains a
    question word anywhere it is never the generic text. *)
Theorem generatePatternBasedResponse_never_throws (message : string) :
  exists response,
    generatePatternBasedResponse message = Returns response /\
    response <> "" /\
    PatternAnswer message response /\
    ((forall row,
        In row responsePatterns ->
        (patternScore (toLowerCase message) (pattern row) < 0.3)%Q) ->
     response = defaultResponse) /\
    ((exists row,
        In row responsePatterns /\
        (0.3 < patternScore (toLowerCase message) (pattern row))%Q) ->
     response <> defaultResponse) /\
    (questionBonus (toLowerCase message) = true ->
     response <> defaultResponse).
Proof.
  destruct (generatePatternBasedResponse_answer message)
    as (response & Hr & Hne & Hanswer & Hlow & Hhigh).
  exists response. repeat (split; [assumption|]).
  intros Hq. apply Hhigh.
  destruct responsePatterns as [|row rows] eqn:Etable; [discriminate|].
  exists row. split; [now left|].
  pose proof (scorePattern_question (toLowerCase message) (pattern row) 0 Hq)
    as Hfloor.
  unfold patternScore. lra.
Qed.

(** ** Keyword matching *)

Section MatchingFacts.

Context {similarity : SimilarityLibrary}.

Lemma keywordFloor_mono (threshold : Q) (messageLower keyword : string)
    (c c' : Q) :
  (c <= c')%Q -> keywordFloor threshold messageLower keyword c ->
  keywordFloor threshold messageLower keyword c'.
Proof.
  intros Hle (H1 & H2 & H3). repeat split; intros.
  - specialize (H1 ltac:(assumption)). lra.
  - specialize (H2 ltac:(assumption)). lra.
  - specialize (H3 ltac:(assumption) ltac:(assumption) ltac:(assumption)).
    lra.
Qed.

Lemma matchKeyword_step (threshold : Q) (messageLower : string)
    (pattern : Pattern) (best : option Pattern * Q) (keyword : string) :
  let best' := matchKeyword threshold messageLower pattern best keyword in
  (snd best <= snd best')%Q /\
  keywordFloor threshold messageLower keyword (snd best') /\
  (best' = best \/ (fst best' = Some pattern /\ (snd best < snd best')%Q)).
Proof.
  cbv zeta. unfold matchKeyword, keywordFloor.
  destruct best as [bestMatch bestScore].
  destruct (includes messageLower (toLowerCase keyword)) eqn:Ei.
  { destruct (gtb 1.0 bestScore) eqn:E;
      [apply gtb_true_iff in E | apply gtb_false_iff in E]; cbn [fst snd];
      (split; [lra|]); (split; [repeat split; intros; try discriminate; lra|]);
      [right; split; [reflexivity | lra] | now left]. }
  destruct (hasWordBoundaryMatch messageLower (toLowerCase keyword)) eqn:Ew.
  { destruct (gtb 0.9 bestScore) eqn:E;
      [apply gtb_true_iff in E | apply gtb_false_iff in E]; cbn [fst snd];
      (split; [lra|]); (split; [repeat split; intros; try discriminate; lra|]);
      [right; split; [reflexivity | lra] | now left]. }
  set (s := compareTwoStrings messageLower (toLowerCase keyword)).
  destruct (gtb s bestScore) eqn:E1;
    [apply gtb_true_iff in E1 | apply gtb_false_iff in E1];
    (destruct (geb s threshold) eqn:E2; cbn [andb fst snd]);
    (split; [lra|]);
    (split; [repeat split; intros; try discriminate; try lra|]);
    try (now left); try (right; split; [reflexivity | lra]).
  exfalso. unfold geb in E2.
  assert (Qle_bool threshold s = true) by now apply Qle_bool_iff.
  congruence.
Qed.

Lemma keywords_loop (threshold : Q) (messageLower : string)
    (pattern : Pattern) (keywords : list string) (best : option Pattern * Q) :
  let best' :=
    fold_left (matchKeyword threshold messageLower pattern) keywords best in
  (snd best <= snd best')%Q /\
  (forall keyword,
     In keyword keywords ->
     keywordFloor threshold messageLower keyword (snd best')) /\
  (best' = best \/ (fst best' = Some pattern /\ (snd best < snd best')%Q)).
Proof.
  cbv zeta. revert best.
  induction keywords as [|kw kws IH]; intros best; cbn [fold_left].
  - split; [lra|]. split; [intros k []|now left].
  - destruct (matchKeyword_step threshold messageLower pattern best kw)
      as (Hle & Hfloor & Hcase).
    cbv zeta in Hle, Hfloor, Hcase.
    destruct (IH (matchKeyword threshold messageLower pattern best kw))
      as (Hle' & Hall & Hcase').
    split; [lra|]. split.
    + intros k [<- | Hk]; [|now apply Hall].
      eapply keywordFloor_mono; [exact Hle' | exact Hfloor].
    + destruct Hcase' as [-> | [Hp Hlt]].
      * exact Hcase.
      * right. split; [exact Hp | lra].
Qed.

Lemma patterns_loop (threshold : Q) (messageLower : string)
    (patterns : list Pattern) (best : option Pattern * Q) :
  let best' :=
    fold_left
      (fun best pattern =>
         fold_left (matchKeyword threshold messageLower pattern)
                   (keywordsOf pattern) best)
      patterns best in
  (snd best <= snd best')%Q /\
  (forall pattern keyword,
     In pattern patterns -> In keyword (keywordsOf pattern) ->
     keywordFloor threshold messageLower keyword (snd best')) /\
  (best' = best \/
   (exists pattern,
      In pattern patterns /\ fst best' = Some pattern /\
      (snd best < snd best')%Q)).
Proof.
  cbv zeta. revert best.
  induction patterns as [|p ps IH]; intros best; cbn [fold_left].
  - split; [lra|]. split; [intros p k []|now left].
  - destruct (keywords_loop threshold messageLower p (keywordsOf p) best)
      as (Hle & Hfloor & Hcase).
    cbv zeta in Hle, Hfloor, Hcase.
    set (b1 := fold_left (matchKeyword threshold messageLower p)
                         (keywordsOf p) best) in *.
    destruct (IH b1) as (Hle' & Hall & Hcase').
    split; [lra|]. split.
    + intros q k [<- | Hq] Hk; [|now apply (Hall q)].
      eapply keywordFloor_mono; [exact Hle' | now apply Hfloor].
    + destruct Hcase' as [-> | (q & Hq & Hfst & Hlt)].
      * destruct Hcase as [-> | [Hfst Hlt]]; [now left|].
        right. exists p. split; [now left|]. now split.
      * right. exists q. split; [now right|]. split; [exact Hfst | lra].
Qed.

Lemma findBestMatch_fields (message : string) (patterns : list Pattern)
    (threshold : Q) :
  let result := findBestMatch message patterns threshold in
  PatternMatch.matchedVariation result = None /\
  ((PatternMatch.matched result = None /\
    PatternMatch.confidence result = 0%Q) \/
   (exists pattern,
      In pattern patterns /\
      PatternMatch.matched result = Some pattern /\
      (0 < PatternMatch.confidence result)%Q)) /\
  (forall pattern keyword,
     In pattern patterns -> In keyword (keywordsOf pattern) ->
     keywordFloor threshold (toLowerCase message) keyword
           (PatternMatch.confidence result)).
Proof.
  cbv zeta. unfold findBestMatch.
  destruct (patterns_loop threshold (toLowerCase message) patterns (None, 0%Q))
    as (_ & Hfloor & Hcase).
  cbv zeta in Hfloor, Hcase.
  destruct (fold_left _ patterns (None, 0%Q)) as [bestMatch bestScore].
  cbn [PatternMatch.matchedVariation PatternMatch.matched
       PatternMatch.confidence fst snd] in *.
  split; [reflexivity|]. split; [|exact Hfloor].
  destruct Hcase as [[= -> ->] | (p & Hp & -> & Hlt)].
  - left. now split.
  - right. now exists p.
Qed.

(** X19. [findBestMatch] reports no match exactly when its confidence is 0, and
    a match is always one of the given patterns, with a positive
    confidence. A keyword that the lower-cased message contains brings the
    confidence to at least 1, one that matches word by word to at least 0.9,
    and any other keyword whose similarity reaches the threshold to at least
    that similarity. *)
Theorem findBestMatch_confidence (message : string) (patterns : list Pattern)
    (threshold : Q) :
  let result := findBestMatch message patterns threshold in
  let messageLower := toLowerCase message in
  PatternMatch.matchedVariation result = None /\
  (PatternMatch.matched result = None <->
   (PatternMatch.confidence result == 0)%Q) /\
  (0 <= PatternMatch.confidence result)%Q /\
  (forall pattern,
     PatternMatch.matched result = Some pattern -> In pattern patterns) /\
  (forall pattern keyword,
     In pattern patterns -> In keyword (keywordsOf pattern) ->
     (includes messageLower (toLowerCase keyword) = true ->
      (1 <= PatternMatch.confidence result)%Q) /\
     (hasWordBoundaryMatch messageLower (toLowerCase keyword) = true ->
      (0.9 <= PatternMatch.confidence result)%Q) /\
     (includes messageLower (toLowerCase keyword) = false ->
      hasWordBoundaryMatch messageLower (toLowerCase keyword) = false ->
      (threshold <= compareTwoStrings messageLower (toLowerCase keyword))%Q ->
      (compareTwoStrings messageLower (toLowerCase keyword)
       <= PatternMatch.confidence result)%Q)).
Proof.
  intros result messageLower.
  destruct (findBestMatch_fields message patterns threshold)
    as (Hvar & Hcase & Hfloor).
  cbv zeta in Hvar, Hcase, Hfloor. fold result in Hvar, Hcase, Hfloor.
  split; [exact Hvar|].
  destruct Hcase as [[Hm Hc] | (p & Hp & Hm & Hc)].
  - rewrite Hm.
    split; [split; [intros _; rewrite Hc; reflexivity | reflexivity]|].
    split; [rewrite Hc; lra|]. split; [discriminate | exact Hfloor].
  - rewrite Hm.
    split; [split; [discriminate | intros H; lra]|].
    split; [lra|]. split; [intros q [= <-]; exact Hp | exact Hfloor].
Qed.

Lemma includes_empty (s : string) : includes s "" = true.
Proof. destruct s; reflexivity. Qed.

Lemma hasWordBoundaryMatch_blank (message keyword : string) :
  In "" (splitWhitespace message) ->
  hasWordBoundaryMatch message keyword = true.
Proof.
  intros Hin. unfold hasWordBoundaryMatch.
  apply forallb_forall. intros kw _.
  apply existsb_exists. exists "". split; [exact Hin|].
  rewrite includes_empty. apply orb_true_r.
Qed.

End MatchingFacts.

Lemma splitRuns_leading (sep : ascii -> bool) (c : ascii) (s : string) :
  sep c = true -> exists rest, splitRuns sep (String c s) = "" :: rest.
Proof.
  revert c. induction s as [|c' s IH]; intros c Hc.
  - cbn [splitRuns]. rewrite Hc. now eexists.
  - change (splitRuns sep (String c (String c' s)))
      with (if sep c
            then if sep c' then splitRuns sep (String c' s)
                 else "" :: splitRuns sep (String c' s)
            else match splitRuns sep (String c' s) with
                 | w :: ws => String c w :: ws
                 | [] => [String c ""]
                 end).
    rewrite Hc. destruct (sep c') eqn:Hc'; [|now eexists].
    apply (IH c' Hc').
Qed.

Lemma splitRuns_trailing (sep : ascii -> bool) (front : string) (c : ascii) :
  sep c = true ->
  exists init,
    init <> [] /\
    splitRuns sep (String.append front (String c "")) = init ++ [""].
Proof.
  intros Hc. induction front as [|a front IH].
  - exists [""]. split; [discriminate|]. cbn. now rewrite Hc.
  - destruct IH as (init & Hne & Hinit).
    change (String.append (String a front) (String c ""))
      with (String a (String.append front (String c ""))).
    cbn [splitRuns]. destruct (sep a).
    + destruct (String.append front (String c "")) as [|c' r] eqn:E.
      { destruct front; discriminate E. }
      destruct (sep c').
      * exists init. now split.
      * exists ("" :: init). split; [discriminate|]. now rewrite Hinit.
    + rewrite Hinit. destruct init as [|w init]; [congruence|].
      exists (String a w :: init). split; [discriminate | reflexivity].
Qed.

Lemma isSpace_lowerChar (c : ascii) : isSpace (lowerChar c) = isSpace c.
Proof.
  destruct c as [[] [] [] [] [] [] [] []]; vm_compute; reflexivity.
Qed.

Lemma toLowerCase_append (s1 s2 : string) :
  toLowerCase (String.append s1 s2)
  = String.append (toLowerCase s1) (toLowerCase s2).
Proof.
  induction s1 as [|c s1 IH]; [reflexivity|].
  cbn [String.append toLowerCase]. now rewrite IH.
Qed.

(** X20. A message that is empty, or begins or ends with white space, has an
    empty word after splitting, and the empty word is part of every
    keyword: such a message matches every keyword word by word, so
    [findBestMatch] reports a match with a confidence of at least 0.9 as
    soon as some pattern has a keyword. *)
Theorem findBestMatch_blank_edge {similarity : SimilarityLibrary}
    (message : string) (patterns : list Pattern) (threshold : Q)
    (pattern : Pattern) (keyword : string) :
  (message = "" \/
   (exists c rest, message = String c rest /\ isSpace c = true) \/
   (exists front c,
      message = String.append front (String c "") /\ isSpace c = true)) ->
  In pattern patterns ->
  In keyword (keywordsOf pattern) ->
  (forall keyword',
     hasWordBoundaryMatch (toLowerCase message) keyword' = true) /\
  (0.9 <= PatternMatch.confidence (findBestMatch message patterns threshold))%Q
  /\
  PatternMatch.matched (findBestMatch message patterns threshold) <> None.
Proof.
  intros Hblank Hp Hk.
  assert (Hin : In "" (splitWhitespace (toLowerCase message))).
  { destruct Hblank as [-> | [(c & rest & -> & Hc) | (front & c & -> & Hc)]].
    - now left.
    - cbn [toLowerCase]. unfold splitWhitespace.
      destruct (splitRuns_leading isSpace (lowerChar c) (toLowerCase rest))
        as (r & ->); [now rewrite isSpace_lowerChar | now left].
    - rewrite toLowerCase_append. cbn [toLowerCase]. unfold splitWhitespace.
      destruct (splitRuns_trailing isSpace (toLowerCase front) (lowerChar c))
        as (init & _ & ->); [now rewrite isSpace_lowerChar|].
      apply in_or_app. right. now left. }
  assert (Hall : forall keyword',
            hasWordBoundaryMatch (toLowerCase message) keyword' = true).
  { intros keyword'. now apply hasWordBoundaryMatch_blank. }
  split; [exact Hall|].
  destruct (findBestMatch_fields message patterns threshold)
    as (_ & Hcase & Hfloor).
  cbv zeta in Hcase, Hfloor.
  destruct (Hfloor pattern keyword Hp Hk) as (_ & Hw & _).
  specialize (Hw (Hall _)).
  split; [exact Hw|].
  destruct Hcase as [[_ Hc] | (q & _ & -> & _)]; [|discriminate].
  rewrite Hc in Hw. lra.
Qed.

Lemma findBestMatch_blank_edge_witness :
  In (Keyword "interest") [Keyword "documents"; Keyword "interest"] /\
  (0.9 <= PatternMatch.confidence
            (@findBestMatch Reference.similarity "zzz "
               [Keyword "documents"; Keyword "interest"] 0.6))%Q.
Proof.
  assert (Hblank :
    "zzz " = "" \/
    (exists c rest, "zzz " = String c rest /\ isSpace c = true) \/
    (exists front c,
       "zzz " = String.append front (String c "") /\ isSpace c = true)).
  { right. right. exists "zzz", " "%char. split; reflexivity. }
  assert (Hp : In (Keyword "interest")
                  [Keyword "documents"; Keyword "interest"])
    by (right; now left).
  assert (Hk : In "interest" (keywordsOf (Keyword "interest")))
    by now left.
  exact (conj Hp
           (proj1 (proj2 (@findBestMatch_blank_edge Reference.similarity
                            "zzz " _ 0.6%Q _ _ Hblank Hp Hk)))).
Defined.

Lemma firstVariation_spec (messageLower : string)
    (groups : list (string * list string)) :
  match firstVariation messageLower groups with
  | Some (pattern, variation) =>
      exists before patternVariations after,
        groups = before ++ (pattern, patternVariations) :: after /\
        In variation patternVariations /\
        includes messageLower (toLowerCase variation) = true /\
        (forall group v,
           In group before -> In v (snd group) ->
           includes messageLower (toLowerCase v) = false)
  | None =>
      forall group v,
        In group groups -> In v (snd group) ->
        includes messageLower (toLowerCase v) = false
  end.
Proof.
  induction groups as [|[pattern patternVariations] rest IH];
    cbn [firstVariation]; [intros group v []|].
  destruct (find _ patternVariations) as [variation|] eqn:E.
  - apply find_some in E as [Hin Hinc].
    exists [], patternVariations, rest. repeat split; try assumption.
    intros group v [].
  - assert (Hnone : forall v, In v patternVariations ->
              includes messageLower (toLowerCase v) = false).
    { intros v Hv. exact (find_none _ _ E v Hv). }
    destruct (firstVariation messageLower rest) as [[p v]|].
    + destruct IH as (before & pv & after & -> & Hin & Hinc & Hbefore).
      exists ((pattern, patternVariations) :: before), pv, after.
      repeat split; try assumption.
      intros group w [<- | Hg] Hw;
        [now apply Hnone | now apply (Hbefore group)].
    + intros group w [<- | Hg] Hw; [now apply Hnone | now apply (IH group)].
Qed.

(** X21. When the lower-cased message contains one of the listed variations,
    [findPatternMatch] does not look at the patterns it is given: it
    answers with the key of the first variation group that has such a
    variation, at confidence 0.95. Only a message that contains no
    variation at all is matched against the given patterns, by
    [findBestMatch] at the threshold 0.6. *)
Theorem findPatternMatch_variations {similarity : SimilarityLibrary}
    (message : string) (patterns : list Pattern) :
  (exists group variation before patternVariations after,
     findPatternMatch message patterns
     = PatternMatch.mk (Some (Keyword group)) 0.95%Q (Some variation) /\
     variations = before ++ (group, patternVariations) :: after /\
     In variation patternVariations /\
     includes (toLowerCase message) (toLowerCase variation) = true /\
     (forall earlier v,
        In earlier before -> In v (snd earlier) ->
        includes (toLowerCase message) (toLowerCase v) = false) /\
     (forall patterns',
        findPatternMatch message patterns'
        = findPatternMatch message patterns)) \/
  ((forall group v,
      In group variations -> In v (snd group) ->
      includes (toLowerCase message) (toLowerCase v) = false) /\
   findPatternMatch message patterns = findBestMatch message patterns 0.6).
Proof.
  unfold findPatternMatch.
  pose proof (firstVariation_spec (toLowerCase message) variations) as Hspec.
  destruct (firstVariation (toLowerCase message) variations)
    as [[group variation]|].
  - left. destruct Hspec as (before & pv & after & Heq & Hin & Hinc & Hbefore).
    exists group, variation, before, pv, after.
    repeat split; assumption.
  - right. now split.
Qed.

(** ** Substrings *)

Lemma startsWith_iff (s p : string) :
  startsWith s p = true <-> exists q, s = String.append p q.
Proof.
  revert s. induction p as [|a p IH]; intros s; cbn [startsWith].
  - split; [intros _; now exists s | reflexivity].
  - destruct s as [|b s].
    + split; [discriminate | intros [q Hq]; discriminate Hq].
    + rewrite andb_true_iff, Ascii.eqb_eq, IH. split.
      * intros [-> [q ->]]. now exists q.
      * intros [q [= -> ->]]. split; [reflexivity | now exists q].
Qed.

Lemma includes_iff (s sub : string) :
  includes s sub = true <->
  exists p q, s = String.append p (String.append sub q).
Proof.
  induction s as [|c s IH].
  - cbn [includes]. rewrite orb_false_r, startsWith_iff. split.
    + intros [q Hq]. now exists "", q.
    + intros (p & q & Hq). destruct p; [now exists q | discriminate Hq].
  - change (includes (String c s) sub)
      with (startsWith (String c s) sub || includes s sub).
    rewrite orb_true_iff, startsWith_iff, IH. split.
    + intros [[q Hq] | (p & q & ->)].
      * now exists "", q.
      * now exists (String c p), q.
    + intros (p & q & Hq). destruct p as [|a p].
      * left. now exists q.
      * right. injection Hq as -> ->. now exists p, q.
Qed.

Lemma append_assoc (a b c : string) :
  String.append (String.append a b) c = String.append a (String.append b c).
Proof. induction a as [|x a IH]; cbn [String.append]; now rewrite ?IH. Qed.

Lemma includes_trans (a b c : string) :
  includes a b = true -> includes b c = true -> includes a c = true.
Proof.
  rewrite !includes_iff. intros (p & q & ->) (p' & q' & ->).
  exists (String.append p p'), (String.append q' q).
  now rewrite !append_assoc.
Qed.

(** ** Contextual responses of the chat route *)

Lemma no_category_no_keyword (message : string) (history : list string)
    (name : string) (data : SemanticCategory) (keyword : string) :
  category (analyzeSemanticContext message history) = None ->
  In (name, data) semanticCategories ->
  In keyword (keywords data) ->
  includes (toLowerCase message) keyword = false.
Proof.
  intros Hnone Hin Hkw.
  unfold analyzeSemanticContext in Hnone.
  destruct (best_category_loop message)
    as [[_ Hall] | (x & Hfold & _)];
    [|rewrite Hfold in Hnone; discriminate Hnone].
  specialize (Hall _ Hin). cbv beta in Hall. cbn [snd] in Hall.
  unfold categoryConfidence in Hall.
  destruct (includes (toLowerCase message) keyword) eqn:E; [|reflexivity].
  exfalso.
  assert (Hhit : 0 < keywordHits (toLowerCase message) (keywords data)).
  { unfold keywordHits.
    assert (Hf : In keyword (filter (includes (toLowerCase message))
                                    (keywords data)))
      by (apply filter_In; now split).
    destruct (filter _ _); [destruct Hf | cbn; lia]. }
  assert (Hlen : 0 < length (keywords data))
    by (destruct (keywords data); [destruct Hkw | cbn; lia]).
  apply num_lt in Hhit, Hlen. change (num 0) with 0%Q in Hhit, Hlen.
  assert (Hpos : (0 < num (keywordHits (toLowerCase message) (keywords data))
                      / num (length (keywords data)))%Q)
    by (apply Qlt_shift_div_l; lra).
  lra.
Qed.

Lemma emi_has_category (message : string) (history : list string) :
  category (analyzeSemanticContext message history) = None ->
  includes (toLowerCase message) "emi"
  || includes (toLowerCase message) "installment"
  || includes (toLowerCase message) "monthly payment" = false.
Proof.
  intros Hnone.
  assert (Hrep : In ("repayment",
                     mkCategory
                       ["repay"; "payment"; "emi"; "installment"; "due date";
                        "pay back"; "repayment"]
                       "user wants to understand repayment terms")
                    semanticCategories)
    by (cbn; tauto).
  assert (Hk : forall keyword,
            In keyword ["payment"; "emi"; "installment"] ->
            includes (toLowerCase message) keyword = false).
  { intros keyword Hin.
    apply (no_category_no_keyword message history _ _ keyword Hnone Hrep).
    cbn in Hin |- *. tauto. }
  rewrite (Hk "emi"), (Hk "installment") by (cbn; tauto).
  destruct (includes (toLowerCase message) "monthly payment") eqn:E;
    [|reflexivity].
  assert (Hp : includes (toLowerCase message) "payment" = true).
  { apply includes_trans with "monthly payment"; [exact E|].
    vm_compute. reflexivity. }
  rewrite Hk in Hp by (cbn; tauto). discriminate Hp.
Qed.

Ltac closed_eqb :=
  repeat match goal with
         | |- context [String.eqb ?a ?b] =>
             let v := eval vm_compute in (String.eqb a b) in
             match v with
             | true => change (String.eqb a b) with true
             | false => change (String.eqb a b) with false
             end
         end.

Lemma category_has_handler (userMessage : string) (context : Context.t)
    (messageHistory : list string) (c : string) :
  handledQuestion (Context.questionType context) = false ->
  category (Context.semanticContext context) = Some c ->
  In c (map fst semanticCategories) ->
  generateContextualResponse userMessage context messageHistory <> None.
Proof.
  intros Hq Hc Hin.
  unfold handledQuestion in Hq.
  apply orb_false_iff in Hq as [Hq Hwhy].
  apply orb_false_iff in Hq as [Hq Hcould].
  apply orb_false_iff in Hq as [Hq Hcan].
  apply orb_false_iff in Hq as [Hwhat Hhow].
  unfold generateContextualResponse, categoryIs. cbv zeta.
  rewrite Hwhat, Hhow, Hcan, Hcould, Hwhy, Hc. cbn [orb].
  cbn [map fst semanticCategories] in Hin.
  repeat (destruct Hin as [<- | Hin]; [closed_eqb; cbv iota; discriminate|]).
  destruct Hin.
Qed.

Ltac text_not_empty :=
  let H := fresh in
  intros H; injection H as H;
  apply (f_equal String.length) in H; vm_compute in H; discriminate H.

Lemma generateContextualResponse_not_empty (userMessage : string)
    (context : Context.t) (messageHistory : list string) :
  generateContextualResponse userMessage context messageHistory <> Some "".
Proof.
  unfold generateContextualResponse, handleWhatQuestions, handleHowQuestions,
    handleCapabilityQuestions, handleWhyQuestions, handleLoanInquiry,
    handleApplicationProcess, handleEligibility, handleDocuments,
    handleRepayment, handleInterestCharges, handleCompanyInfo,
    handleSupportContact, handleTechnicalIssues, handleLoanStatus.
  cbv zeta.
  repeat match goal with
         | |- (if ?c then _ else _) <> _ => destruct c
         | |- Some (if ?c then _ else _) <> _ => destruct c
         end;
    first [discriminate | text_not_empty].
Qed.

(** X22. A message that opens with "what", "how", "can", "could" or "why" is
    answered by the handler of its question type alone, whatever its
    category; any other message gets a contextual response exactly when
    the category matcher finds a category for it. The test for EMI after the
    category handlers never fires, since its three phrases are keywords of
    the category repayment; and a contextual response is never the empty
    text. *)
Theorem generateContextualResponse_cases (userMessage : string)
    (context : Context.t) (messageHistory history : list string) :
  Context.semanticContext context
  = analyzeSemanticContext userMessage history ->
  let questionType := Context.questionType context in
  let response :=
    generateContextualResponse userMessage context messageHistory in
  (handledQuestion questionType = true ->
   response = questionHandler questionType userMessage context) /\
  (handledQuestion questionType = false ->
   (response = None <->
    category (analyzeSemanticContext userMessage history) = None)) /\
  (category (analyzeSemanticContext userMessage history) = None ->
   includes (toLowerCase userMessage) "emi"
   || includes (toLowerCase userMessage) "installment"
   || includes (toLowerCase userMessage) "monthly payment" = false) /\
  response <> Some "".
Proof.
  intros Hsem questionType response.
  split; [|split; [|split]].
  - intros Hq. subst response questionType.
    unfold generateContextualResponse, questionHandler, handledQuestion in *.
    cbv zeta.
    destruct (String.eqb (Context.questionType context) "what");
      [reflexivity|].
    destruct (String.eqb (Context.questionType context) "how");
      [reflexivity|].
    destruct (String.eqb (Context.questionType context) "can");
      [reflexivity|].
    destruct (String.eqb (Context.questionType context) "could");
      [reflexivity|].
    destruct (String.eqb (Context.questionType context) "why");
      [reflexivity | discriminate Hq].
  - intros Hq. rewrite <- Hsem. split.
    + intros Hnone.
      destruct (category (Context.semanticContext context)) as [c|] eqn:Ec;
        [|reflexivity].
      exfalso.
      apply (category_has_handler userMessage context messageHistory c Hq Ec);
        [|exact Hnone].
      rewrite Hsem in Ec. now apply category_in_table in Ec.
    + intros Hnone. subst response.
      pose proof Hnone as Hemi. rewrite Hsem in Hemi.
      apply emi_has_category in Hemi.
      unfold handledQuestion in Hq. subst questionType.
      apply orb_false_iff in Hq as [Hq Hwhy].
      apply orb_false_iff in Hq as [Hq Hcould].
      apply orb_false_iff in Hq as [Hq Hcan].
      apply orb_false_iff in Hq as [Hwhat Hhow].
      unfold generateContextualResponse, categoryIs. cbv zeta.
      rewrite Hwhat, Hhow, Hcan, Hcould, Hwhy, Hnone, Hemi. reflexivity.
  - apply emi_has_category.
  - apply generateContextualResponse_not_empty.
Qed.

Lemma generateContextualResponse_cases_witness :
  Context.semanticContext (fallbackContext "Is EMI available")
  = analyzeSemanticContext "Is EMI available" [] /\
  generateContextualResponse "Is EMI available"
    (fallbackContext "Is EMI available") [] <> Some "".
Proof.
  exact (conj eq_refl
           (proj2 (proj2 (proj2
              (generateContextualResponse_cases "Is EMI available"
                 (fallbackContext "Is EMI available") [] [] eq_refl))))).
Defined.

(** ** The response of the chat route *)

Section RouteFacts.

Context {natural : TfIdfLibrary} {compromise : CompromiseLibrary}.

Lemma generateFundobabaResponse_returns (message : string)
    (history : list string) :
  Returning (generateFundobabaResponse message history)
    (fun response =>
       exists context,
         response <> "" /\
         Context.semanticContext context
         = analyzeSemanticContext message history /\
         Context.questionType context = classifyQuestionType message /\
         analyzeUserJourney history = Returns (Context.userJourney context) /\
         analyzeSentiment message = Returns (Context.sentiment context) /\
         Context.urgency context
         = assessUrgency message (Context.sentiment context) /\
         Returns response
         = match generateContextualResponse message context history with
           | Some text => Returns text
           | None => generatePatternBasedResponse message
           end).
Proof.
  unfold generateFundobabaResponse.
  eapply Returning_bind; [apply Returning_recognizeIntent|].
  intros intent _.
  eapply Returning_bind.
  { apply Returning_pure with (P := fun _ => True).
    destruct (extractEntities_returns message) as [e He]. now exists e. }
  intros entities _.
  eapply Returning_bind.
  { apply Returning_pure with (P := fun _ => True).
    destruct (analyzeSentiment_returns message) as [s Hs]. now exists s. }
  intros sentiment _.
  eapply Returning_bind; [apply understandContext_returns|].
  intros context (_ & _ & _ & Hsem & Hq & _ & Hurg & Hsent & _ & _ & Hj & _).
  cbv zeta.
  pose proof (generateContextualResponse_not_empty message context history)
    as Hne.
  destruct (generateContextualResponse message context history)
    as [text|] eqn:E.
  - destruct (String.eqb_spec text "") as [-> | Htext]; [congruence|].
    apply Returning_ret. exists context. rewrite E. repeat split; assumption.
  - apply Returning_pure.
    destruct (generatePatternBasedResponse_returns message)
      as (response & Hr & Hnonempty & _).
    exists response. split; [exact Hr|].
    exists context. rewrite E, Hr. repeat split; assumption.
Qed.

End RouteFacts.

(** X23. A response that the response generator of the chat route returns
    is never empty. It is the contextual response for the context of the
    message when there is one, and an answer of the pattern fallback
    otherwise; the context holds the semantic category and the question
    type of the message, the journey of the history, and the urgency for the
    sentiment of the message. *)
Theorem generateFundobabaResponse_response
    {natural : TfIdfLibrary} {compromise : CompromiseLibrary}
    (message : string) (history : list string) (this : NLPService)
    (response : string) :
  fst (generateFundobabaResponse message history this) = Returns response ->
  response <> "" /\
  exists context,
    Context.semanticContext context
    = analyzeSemanticContext message history /\
    Context.questionType context = classifyQuestionType message /\
    analyzeUserJourney history = Returns (Context.userJourney context) /\
    analyzeSentiment message = Returns (Context.sentiment context) /\
    Context.urgency context
    = assessUrgency message (Context.sentiment context) /\
    match generateContextualResponse message context history with
    | Some text => response = text
    | None => PatternAnswer message response
    end.
Proof.
  intros Hrun.
  destruct (generateFundobabaResponse_returns message history this)
    as (r & this' & Hrun' & context & Hne & Hsem & Hq & Hj & Hs & Hu & Hr).
  rewrite Hrun' in Hrun. cbn [fst] in Hrun. injection Hrun as <-.
  split; [exact Hne|]. exists context.
  repeat (split; [assumption|]).
  destruct (generateContextualResponse message context history) as [text|].
  - now injection Hr.
  - destruct (generatePatternBasedResponse_answer message)
      as (r' & Hr' & _ & Hanswer & _).
    rewrite Hr' in Hr. now injection Hr as ->.
Qed.

Lemma generateFundobabaResponse_response_witness :
  fst (@generateFundobabaResponse Reference.index Reference.parser
         "Is EMI available" [] (@newNLPService Reference.index))
  = Returns repaymentDefault /\
  repaymentDefault <> "".
Proof.
  assert (Hrun :
    fst (@generateFundobabaResponse Reference.index Reference.parser
           "Is EMI available" [] (@newNLPService Reference.index))
    = Returns repaymentDefault) by (vm_compute; reflexivity).
  exact (conj Hrun
           (proj1 (@generateFundobabaResponse_response
                     Reference.index Reference.parser "Is EMI available" []
                     (@newNLPService Reference.index) repaymentDefault
                     Hrun))).
Defined.

(** ** Regular expressions and the extracted entities *)

Lemma length_append (a b : string) :
  String.length (String.append a b) = String.length a + String.length b.
Proof. induction a as [|c a IH]; cbn [String.append String.length]; lia. Qed.

Lemma substring_prefix (m rest : string) :
  substring 0
    (String.length (String.append m rest) - String.length rest)
    (String.append m rest) = m.
Proof.
  rewrite length_append.
  replace (String.length m + String.length rest - String.length rest)
    with (String.length m) by lia.
  induction m as [|c m IH]; cbn [String.append String.length substring].
  - now destruct rest.
  - now rewrite IH.
Qed.

Lemma repeatClass_sound (p : ascii -> bool) (s : string) :
  forall (min : nat) (max : option nat) (k : string -> option string)
         (rest : string),
    repeatClass p min max s k = Some rest ->
    exists m s',
      s = String.append m s' /\
      Matches (Rep p min max) m /\
      k s' = Some rest.
Proof.
  induction s as [|c s IH]; intros min max k rest Hrun.
  - assert (Hstop : (if min =? 0 then k "" else None) = Some rest).
    { cbn [repeatClass] in Hrun. destruct max as [[|M]|]; exact Hrun. }
    destruct (Nat.eqb_spec min 0) as [-> | _]; [|discriminate Hstop].
    exists "", "". split; [reflexivity|]. split; [|exact Hstop].
    constructor; [reflexivity | cbn; lia | intros M _; cbn; lia].
  - assert (Hstop : (if min =? 0 then k (String c s) else None) = Some rest ->
              exists m s',
                String c s = String.append m s' /\
                Matches (Rep p min max) m /\ k s' = Some rest).
    { intros Hstop.
      destruct (Nat.eqb_spec min 0) as [-> | _]; [|discriminate Hstop].
      exists "", (String c s). split; [reflexivity|]. split; [|exact Hstop].
      constructor; [reflexivity | cbn; lia | intros M _; cbn; lia]. }
    assert (Hstep :
      max <> Some 0 ->
      (if p c
       then match repeatClass p (pred min) (option_map pred max) s k with
            | Some rest => Some rest
            | None => if min =? 0 then k (String c s) else None
            end
       else if min =? 0 then k (String c s) else None) = Some rest ->
      exists m s',
        String c s = String.append m s' /\
        Matches (Rep p min max) m /\ k s' = Some rest).
    { intros Hmax Hbody. destruct (p c) eqn:Hc; [|now apply Hstop].
      destruct (repeatClass p (pred min) (option_map pred max) s k)
        as [rest'|] eqn:Hrec; [|now apply Hstop].
      injection Hbody as ->.
      destruct (IH _ _ _ _ Hrec) as (m & s' & -> & Hm & Hk).
      exists (String c m), s'. split; [reflexivity|]. split; [|exact Hk].
      inversion Hm as [| | | | | |p' min' max' m' Hall Hmin Hmaxlen]; subst.
      constructor.
      - cbn [list_ascii_of_string forallb]. now rewrite Hc.
      - cbn [String.length]. lia.
      - intros M ->. cbn [String.length].
        destruct M as [|M]; [congruence|].
        specialize (Hmaxlen M eq_refl). lia. }
    cbn [repeatClass] in Hrun.
    destruct max as [[|M]|].
    + now apply Hstop.
    + apply Hstep; [discriminate | exact Hrun].
    + apply Hstep; [discriminate | exact Hrun].
Qed.

Lemma matchHere_sound (r : Regex) :
  forall (s : string) (k : string -> option string) (rest : string),
    matchHere r s k = Some rest ->
    exists m s',
      s = String.append m s' /\ Matches r m /\ k s' = Some rest.
Proof.
  induction r as [|c|p|r1 IH1 r2 IH2|r1 IH1|p min max];
    intros s k rest Hrun; cbn [matchHere] in Hrun.
  - exists "", s. repeat split; [constructor | exact Hrun].
  - destruct s as [|c' s]; [discriminate|].
    destruct (Ascii.eqb_spec c c') as [<- | _]; [|discriminate].
    exists (String c ""), s. repeat split; [constructor | exact Hrun].
  - destruct s as [|c' s]; [discriminate|].
    destruct (p c') eqn:Hc; [|discriminate].
    exists (String c' ""), s. repeat split; [now constructor | exact Hrun].
  - destruct (IH1 _ _ _ Hrun) as (m1 & s1 & -> & Hm1 & Hk1).
    destruct (IH2 _ _ _ Hk1) as (m2 & s2 & -> & Hm2 & Hk2).
    exists (String.append m1 m2), s2. rewrite append_assoc.
    repeat split; [now constructor | exact Hk2].
  - destruct (matchHere r1 s k) as [rest'|] eqn:E.
    + injection Hrun as ->.
      destruct (IH1 _ _ _ E) as (m & s' & -> & Hm & Hk).
      exists m, s'. repeat split; [now constructor | exact Hk].
    + exists "", s. repeat split; [constructor | exact Hrun].
  - now apply repeatClass_sound.
Qed.

Lemma execAt_sound (r : Regex) (s m : string) :
  execAt r s = Some m ->
  Matches r m /\ exists rest, s = String.append m rest.
Proof.
  unfold execAt. destruct (matchHere r s Some) as [rest|] eqn:E;
    [|discriminate].
  destruct (matchHere_sound r s Some rest E) as (m' & s' & -> & Hm & [= ->]).
  rewrite substring_prefix. intros [= <-]. split; [exact Hm | now exists rest].
Qed.

Lemma includes_tail (c : ascii) (s sub : string) :
  includes s sub = true -> includes (String c s) sub = true.
Proof.
  intros H.
  change (includes (String c s) sub)
    with (startsWith (String c s) sub || includes s sub).
  rewrite H. apply orb_true_r.
Qed.

Lemma matchAllFrom_sound (r : Regex) (s : string) :
  forall (skip : nat) (m : string),
    In m (matchAllFrom r s skip) ->
    Matches r m /\ includes s m = true.
Proof.
  induction s as [|c s IH]; intros skip m Hin.
  - destruct skip as [|skip]; cbn [matchAllFrom] in Hin; [|destruct Hin].
    destruct (execAt r "") as [m0|] eqn:E; [|destruct Hin].
    destruct Hin as [<- | []].
    destruct (execAt_sound r "" m0 E) as [Hm [rest Hrest]].
    split; [exact Hm|]. apply includes_iff. now exists "", rest.
  - destruct skip as [|skip]; cbn [matchAllFrom] in Hin.
    + destruct (execAt r (String c s)) as [m0|] eqn:E.
      * destruct Hin as [<- | Hin].
        -- destruct (execAt_sound r _ m0 E) as [Hm [rest Hrest]].
           split; [exact Hm|]. apply includes_iff. now exists "", rest.
        -- destruct (IH _ _ Hin) as [Hm Hinc].
           split; [exact Hm | now apply includes_tail].
      * destruct (IH _ _ Hin) as [Hm Hinc].
        split; [exact Hm | now apply includes_tail].
    + destruct (IH _ _ Hin) as [Hm Hinc].
      split; [exact Hm | now apply includes_tail].
Qed.

Lemma stringMatch_sound (s : string) (r : Regex) (m : string) :
  In m (orEmpty (stringMatch s r)) -> Matches r m /\ includes s m = true.
Proof.
  unfold stringMatch. intros Hin. apply (matchAllFrom_sound r s 0).
  destruct (matchAllFrom r s 0); [destruct Hin | exact Hin].
Qed.

Ltac invert_matches :=
  repeat match goal with
         | H : Matches (Seq _ _) _ |- _ => inversion H; subst; clear H
         | H : Matches (Chr _) _ |- _ => inversion H; subst; clear H
         | H : Matches (Cls _) _ |- _ => inversion H; subst; clear H
         | H : Matches (Rep _ _ _) _ |- _ => inversion H; subst; clear H
         | H : Matches (Opt _) _ |- _ => inversion H; subst; clear H
         end.

Lemma phonePattern_shape (s : string) :
  Matches phonePattern s -> phoneShape s.
Proof.
  unfold phonePattern, phoneShape. intros H. invert_matches;
    match goal with
    | Hmax : forall m, Some 9 = Some m -> _ |- _ =>
        specialize (Hmax 9 eq_refl)
    end.
  - exists "". do 2 eexists. split; [reflexivity|].
    repeat split; try assumption; [now left | lia].
  - exists "+91". do 2 eexists. split; [reflexivity|].
    repeat split; try assumption; [right; now left | lia].
  - match goal with
    | Hspace : isSpace ?c0 = true |- _ =>
        exists (String.append "+91" (String c0 "")); do 2 eexists;
        split; [reflexivity|];
        repeat split; try assumption; [|lia];
        right; right; exists c0; now split
    end.
Qed.

Lemma datePatterns_length (pattern : Regex) (s : string) :
  In pattern datePatterns -> Matches pattern s ->
  8 <= String.length s <= 10.
Proof.
  unfold datePatterns. cbv zeta.
  intros [<- | [<- | [<- | []]]] H; invert_matches;
    rewrite ?length_append; cbn [String.length];
    repeat match goal with
           | Hmax : forall m, Some ?n = Some m -> _ |- _ =>
               specialize (Hmax n eq_refl)
           end;
    lia.
Qed.

Lemma extractEntities_regex_fields {compromise : CompromiseLibrary}
    (message : string) :
  exists entities,
    extractEntities message = Returns entities /\
    (forall contact,
       In contact (Entities.contact_info entities) ->
       In contact (orEmpty (stringMatch message phonePattern)) \/
       In contact (orEmpty (stringMatch message emailPattern))) /\
    (forall date,
       In date (Entities.dates entities) ->
       (exists doc call, nlp message = Returns doc /\
                         doc_dates doc = Some call) \/
       In date (regexDates message)) /\
    (forall doc contact,
       nlp message = Returns doc ->
       In contact (orEmpty (stringMatch message phonePattern)) \/
       In contact (orEmpty (stringMatch message emailPattern)) ->
       In contact (Entities.contact_info entities)).
Proof.
  unfold extractEntities.
  destruct (nlp message) as [doc|error].
  2:{ exists Entities.empty. split; [reflexivity|].
      split; [intros x []|]. split; [intros x []|]. discriminate. }
  rewrite bind_returns. cbv zeta.
  rewrite date_patterns_loop. fold (regexDates message). cbn [app].
  rewrite (guarded_call (doc_values doc) (Entities.setAmounts Entities.empty)).
  rewrite bind_returns.
  set (e1 := Entities.setAmounts _ _).
  rewrite (guarded_method (doc_dates doc) (regexDates message)
             (Entities.setDates e1)).
  rewrite bind_returns.
  set (e2 := Entities.setDates _ _).
  rewrite (guarded_method (doc_organizations doc) []
             (Entities.setOrganizations e2)).
  rewrite bind_returns.
  set (e3 := Entities.setOrganizations _ _).
  rewrite (guarded_method (doc_places doc) [] (Entities.setLocations e3)).
  rewrite bind_returns.
  rewrite documents_loop.
  eexists. split; [reflexivity|].
  subst e1 e2 e3.
  destruct (stringMatch message phonePattern) as [phones|];
    destruct (stringMatch message emailPattern) as [emails|];
    cbn [Entities.amounts Entities.dates Entities.contact_info
         Entities.documents Entities.organizations Entities.locations
         Entities.setAmounts Entities.setDates Entities.setContactInfo
         Entities.setDocuments Entities.setOrganizations
         Entities.setLocations Entities.empty app orEmpty];
    (split;
     [intros contact Hin; rewrite ?app_nil_r in Hin;
      try (apply in_app_or in Hin); tauto
     |split;
      [intros date Hin;
       destruct (doc_dates doc) as [call|] eqn:Ed;
       [left; exists doc, call; split; [reflexivity | exact Ed]
       |right; exact Hin]
      |intros doc' contact _ Hin; cbn [In] in Hin;
       rewrite ?app_nil_r, ?in_app_iff; tauto]]).
Qed.

(** X24. Every contact that [extractEntities] reports occurs verbatim in the
    message and is either a mobile number (ten digits of which the first
    is 7, 8 or 9, after an optional "+91" and an optional white space) or a
    string accepted by the e-mail pattern. When the parser has no dates
    method, every reported date occurs verbatim in the message, is accepted
    by one of the three date patterns and has 8 to 10 characters. *)
Theorem extractEntities_contacts_and_dates {compromise : CompromiseLibrary}
    (message : string) :
  exists entities,
    extractEntities message = Returns entities /\
    (forall contact,
       In contact (Entities.contact_info entities) ->
       includes message contact = true /\
       (phoneShape contact \/ Matches emailPattern contact)) /\
    ((forall doc, nlp message = Returns doc -> doc_dates doc = None) ->
     forall date,
       In date (Entities.dates entities) ->
       includes message date = true /\
       8 <= String.length date <= 10 /\
       exists pattern, In pattern datePatterns /\ Matches pattern date).
Proof.
  destruct (extractEntities_regex_fields message)
    as (entities & Hr & Hcontacts & Hdates & _).
  exists entities. split; [exact Hr|]. split.
  - intros contact Hin.
    destruct (Hcontacts contact Hin) as [Hp | He].
    + apply stringMatch_sound in Hp as [Hm Hinc].
      split; [exact Hinc|]. left. now apply phonePattern_shape.
    + apply stringMatch_sound in He as [Hm Hinc].
      split; [exact Hinc|]. now right.
  - intros Hnone date Hin.
    destruct (Hdates date Hin) as [(doc & call & Hdoc & Hcall) | Hregex].
    { rewrite (Hnone doc Hdoc) in Hcall. discriminate Hcall. }
    unfold regexDates in Hregex. apply in_flat_map in Hregex
      as (pattern & Hpattern & Hmatch).
    apply stringMatch_sound in Hmatch as [Hm Hinc].
    split; [exact Hinc|].
    split; [now apply (datePatterns_length pattern)|].
    now exists pattern.
Qed.

(** ** Fallback keyword extraction *)

Lemma addKey_nodup (keys : list string) (key : string) :
  NoDup keys -> NoDup (addKey keys key).
Proof.
  intros Hnd. unfold addKey.
  destruct (arrayIncludes keys key) eqn:E; [exact Hnd|].
  apply NoDup_app; [exact Hnd | repeat constructor; intros [] |].
  intros x Hx [<- | []].
  apply arrayIncludes_In in Hx. congruence.
Qed.

Lemma addKey_In (keys : list string) (key x : string) :
  In x (addKey keys key) <-> In x keys \/ x = key.
Proof.
  unfold addKey. destruct (arrayIncludes keys key) eqn:E.
  - apply arrayIncludes_In in E. split; [now left|].
    intros [H | ->]; assumption.
  - rewrite in_app_iff. cbn [In]. intuition auto.
Qed.

Lemma word_count_loop (words : list string) (obj : list (string * nat)) :
  NoDup (map fst obj) ->
  let obj' := fold_left increment words obj in
  NoDup (map fst obj') /\
  (forall k, counter obj' k = counter obj k + occurrences words k) /\
  (forall k, In k (map fst obj') <-> In k (map fst obj) \/ In k words).
Proof.
  cbv zeta. revert obj.
  induction words as [|w words IH]; intros obj Hnd; cbn [fold_left].
  - split; [exact Hnd|]. split; [intros k; unfold occurrences; cbn; lia|].
    intros k. cbn [In]. tauto.
  - destruct (IH (increment obj w)) as (Hnd' & Hcount & Hkeys).
    { unfold increment. rewrite set_addKey. now apply addKey_nodup. }
    split; [exact Hnd'|]. split.
    + intros k. rewrite Hcount, counter_increment.
      unfold occurrences. cbn [count_occ].
      destruct (string_dec w k) as [-> | Hne].
      * rewrite String.eqb_refl. lia.
      * apply String.eqb_neq in Hne. rewrite Hne. lia.
    + intros k. rewrite Hkeys. unfold increment.
      rewrite set_addKey, addKey_In. cbn [In].
      split; intros H; repeat destruct H as [H | H]; subst; auto.
Qed.

Lemma insertByCount_perm (a : string * nat) (sorted : list (string * nat)) :
  Permutation (insertByCount a sorted) (a :: sorted).
Proof.
  induction sorted as [|b rest IH]; cbn [insertByCount]; [reflexivity|].
  destruct (snd b <=? snd a); [reflexivity|].
  rewrite IH. apply perm_swap.
Qed.

Lemma sortByCount_perm (entries : list (string * nat)) :
  Permutation (fold_right insertByCount [] entries) entries.
Proof.
  induction entries as [|a entries IH]; cbn [fold_right]; [reflexivity|].
  rewrite insertByCount_perm. now constructor.
Qed.

Lemma insertByCount_sorted (a : string * nat) (sorted : list (string * nat)) :
  StronglySorted (fun x y => snd y <= snd x) sorted ->
  StronglySorted (fun x y => snd y <= snd x) (insertByCount a sorted).
Proof.
  induction sorted as [|b rest IH]; intros Hsorted; cbn [insertByCount].
  - repeat constructor.
  - apply StronglySorted_inv in Hsorted as [Hrest Hb].
    destruct (Nat.leb_spec (snd b) (snd a)) as [Hle | Hlt].
    + constructor; [now constructor|].
      constructor; [exact Hle|].
      eapply Forall_impl; [|exact Hb]. cbv beta. intros x Hx. lia.
    + constructor; [now apply IH|].
      apply Forall_forall. intros x Hx.
      apply (Permutation_in _ (insertByCount_perm a rest)) in Hx.
      destruct Hx as [<- | Hx]; [lia|].
      rewrite Forall_forall in Hb. now apply Hb.
Qed.

Lemma sortByCount_sorted (entries : list (string * nat)) :
  StronglySorted (fun x y => snd y <= snd x)
                 (fold_right insertByCount [] entries).
Proof.
  induction entries as [|a entries IH]; cbn [fold_right]; [constructor|].
  now apply insertByCount_sorted.
Qed.

Lemma StronglySorted_app_inv {A} (R : A -> A -> Prop) (l1 l2 : list A) :
  StronglySorted R (l1 ++ l2) ->
  StronglySorted R l1 /\
  forall x y, In x l1 -> In y l2 -> R x y.
Proof.
  induction l1 as [|a l1 IH]; cbn [app]; intros H.
  - split; [constructor | intros x y []].
  - apply StronglySorted_inv in H as [Hrest Ha].
    destruct (IH Hrest) as [Hs Hcross]. split.
    + constructor; [exact Hs|].
      apply Forall_forall. intros x Hx. rewrite Forall_forall in Ha.
      apply Ha, in_or_app. now left.
    + intros x y [<- | Hx] Hy; [|now apply Hcross].
      rewrite Forall_forall in Ha. apply Ha, in_or_app. now right.
Qed.

Lemma StronglySorted_map {A B} (R : A -> A -> Prop) (R' : B -> B -> Prop)
    (f : A -> B) (l : list A) :
  (forall x y, In x l -> In y l -> R x y -> R' (f x) (f y)) ->
  StronglySorted R l -> StronglySorted R' (map f l).
Proof.
  induction l as [|a l IH]; intros HR Hs; cbn [map]; [constructor|].
  apply StronglySorted_inv in Hs as [Hrest Ha].
  constructor.
  - apply IH; [|exact Hrest].
    intros x y Hx Hy. apply HR; now right.
  - apply Forall_forall. intros b Hb. apply in_map_iff in Hb as (x & <- & Hx).
    rewrite Forall_forall in Ha.
    apply HR; [now left | now right | now apply Ha].
Qed.

(** X25. For a message without a word that names an inherited property, the
    fallback extraction returns at most [maxKeywords] keywords without
    repetition. Each one is a lower-cased word of the message that has more
    than two characters, all of them letters, and is not a stop word; the
    keywords come by falling number of occurrences, no left-out word occurs
    more often than a returned one, and no word is left out when there are
    at most [maxKeywords] different ones. *)
Theorem fallbackKeywordExtraction_keywords
    (message : string) (maxKeywords : nat)
    (Hplain : plainMessage message = true) :
  let found := fallbackKeywordExtraction message maxKeywords in
  let words := keywordCandidates message in
  NoDup found /\
  length found <= maxKeywords /\
  (forall keyword, In keyword found -> In keyword words) /\
  StronglySorted
    (fun a b => occurrences words b <= occurrences words a) found /\
  (forall keyword word,
     In keyword found -> In word words -> ~ In word found ->
     occurrences words word <= occurrences words keyword) /\
  (length (unique words) <= maxKeywords ->
   forall word, In word words -> In word found).
Proof.
  intros found words. subst found.
  unfold fallbackKeywordExtraction. cbv zeta. fold (keywordCandidates message).
  fold words.
  destruct (word_count_loop words []) as (Hnd & Hcount & Hkeys);
    [constructor|].
  cbv zeta in Hnd, Hcount, Hkeys.
  set (wordCount := fold_left increment words []) in *.
  set (sorted := fold_right insertByCount [] wordCount).
  pose proof (sortByCount_perm wordCount) as Hperm. fold sorted in Hperm.
  pose proof (sortByCount_sorted wordCount) as Hsorted. fold sorted in Hsorted.
  assert (Hvalue : forall e, In e sorted -> snd e = occurrences words (fst e)).
  { intros e He. apply (Permutation_in _ Hperm) in He.
    pose proof (get_in_nodup wordCount e Hnd He) as Hget.
    specialize (Hcount (fst e)). unfold counter in Hcount.
    rewrite Hget in Hcount. cbn [get] in Hcount. lia. }
  assert (Hkey : forall k, In k (map fst sorted) <-> In k words).
  { intros k. split.
    - intros Hk. apply (Permutation_in _ (Permutation_map fst Hperm)) in Hk.
      apply Hkeys in Hk as [[] | Hk]. exact Hk.
    - intros Hk.
      apply (Permutation_in _ (Permutation_sym (Permutation_map fst Hperm))).
      apply Hkeys. now right. }
  assert (Hnd' : NoDup (map fst sorted)).
  { apply (Permutation_NoDup (Permutation_sym (Permutation_map fst Hperm))).
    exact Hnd. }
  rewrite <- (firstn_skipn maxKeywords sorted) in Hsorted, Hnd'.
  apply StronglySorted_app_inv in Hsorted as [Hfirst Hcross].
  rewrite map_app in Hnd'.
  assert (Hsub : forall e, In e (firstn maxKeywords sorted) -> In e sorted).
  { intros e He. rewrite <- (firstn_skipn maxKeywords sorted).
    apply in_or_app. now left. }
  split; [eapply NoDup_app_remove_r; exact Hnd'|].
  split; [rewrite length_map, length_firstn; lia|].
  split.
  { intros keyword Hk. apply in_map_iff in Hk as (e & <- & He).
    apply Hkey, in_map, Hsub, He. }
  split.
  { apply (StronglySorted_map (fun x y : string * nat => snd y <= snd x));
      [|exact Hfirst].
    intros x y Hx Hy Hle.
    now rewrite <- (Hvalue x (Hsub x Hx)), <- (Hvalue y (Hsub y Hy)). }
  split.
  { intros keyword word Hk Hw Hout.
    apply in_map_iff in Hk as (e & <- & He).
    apply Hkey in Hw. apply in_map_iff in Hw as (e' & <- & He').
    rewrite <- (firstn_skipn maxKeywords sorted) in He'.
    apply in_app_or in He' as [He' | He'].
    - exfalso. apply Hout. now apply in_map.
    - rewrite <- (Hvalue e (Hsub e He)).
      rewrite <- (Hvalue e').
      + now apply Hcross.
      + rewrite <- (firstn_skipn maxKeywords sorted).
        apply in_or_app. now right. }
  intros Hfew word Hw.
  assert (Hlen : length sorted <= maxKeywords).
  { rewrite (Permutation_length Hperm), <- (length_map fst wordCount).
    assert (Hsame : Permutation (map fst wordCount) (unique words)).
    { apply NoDup_Permutation; [exact Hnd | |].
      - clear. induction words as [|x l IH]; cbn [unique]; constructor.
        + rewrite filter_In. intros [_ H].
          apply negb_true_iff in H. now rewrite String.eqb_refl in H.
        + now apply NoDup_filter.
      - intros k. rewrite unique_In, Hkeys. cbn [map In]. tauto. }
    now rewrite (Permutation_length Hsame). }
  rewrite firstn_all2 by exact Hlen. now apply Hkey.
Qed.

Lemma fallbackKeywordExtraction_keywords_witness :
  plainMessage "Loan apply loan" = true /\
  fallbackKeywordExtraction "Loan apply loan" 1 = ["loan"] /\
  NoDup (fallbackKeywordExtraction "Loan apply loan" 1).
Proof.
  split; [reflexivity|]. split; [reflexivity|].
  exact (proj1 (fallbackKeywordExtraction_keywords
                  "Loan apply loan" 1 eq_refl)).
Defined.

(** ** What the response depends on *)

Lemma sliceLast_app {A} (n : nat) (old recent : list A) :
  n <= length recent -> sliceLast n (old ++ recent) = sliceLast n recent.
Proof.
  intros Hn. unfold sliceLast. rewrite length_app, skipn_app.
  replace (length old + length recent - n - length old)
    with (length recent - n) by lia.
  rewrite skipn_all2 by lia. reflexivity.
Qed.

(** X26. Only the end of the history is looked at: messages before the last
    three have no influence on the journey stage and the progression, and
    messages before the last five none on the conversation topic and the
    mood. *)
Theorem history_window {compromise : CompromiseLibrary}
    (old recent : list string) :
  (3 <= length recent ->
   (forall table,
      determineUserStage (old ++ recent) table
      = determineUserStage recent table) /\
   analyzeProgression (old ++ recent) = analyzeProgression recent) /\
  (5 <= length recent ->
   identifyConversationTopic (old ++ recent)
   = identifyConversationTopic recent /\
   (forall sentiment,
      analyzeUserMood sentiment (old ++ recent)
      = analyzeUserMood sentiment recent)).
Proof.
  split.
  - intros Hlen. split.
    + intros table. unfold determineUserStage. cbv zeta.
      now rewrite sliceLast_app.
    + unfold analyzeProgression. rewrite sliceLast_app by exact Hlen.
      rewrite length_app.
      destruct (Nat.ltb_spec (length old + length recent) 2); [lia|].
      destruct (Nat.ltb_spec (length recent) 2); [lia|]. reflexivity.
  - intros Hlen. split.
    + unfold identifyConversationTopic. cbv zeta.
      rewrite sliceLast_app by exact Hlen. rewrite length_app.
      destruct (Nat.eqb_spec (length old + length recent) 0); [lia|].
      destruct (Nat.eqb_spec (length recent) 0); [lia|]. reflexivity.
    + intros sentiment. unfold analyzeUserMood.
      now rewrite sliceLast_app.
Qed.

Lemma analyzeUserJourney_stage (history : list string) :
  history <> [] ->
  exists stage progression,
    analyzeUserJourney history
    = Returns (Journey stage progression (calculateEngagement history)
                       (identifyUserNeeds history)) /\
    determineUserStage history journeyStages = Returns stage.
Proof.
  intros Hne. unfold analyzeUserJourney.
  destruct history as [|m history]; [congruence|].
  cbn [length Nat.eqb].
  destruct (determineUserStage_spec (m :: history) journeyStages)
    as (entry & Hstage & _);
    [exact journeyStages_nodup | discriminate |].
  destruct (analyzeProgression_returns (m :: history)) as (p & Hp).
  rewrite Hstage, bind_returns, Hp, bind_returns.
  now exists (fst entry), p.
Qed.

Lemma generateContextualResponse_fields (userMessage : string)
    (context1 context2 : Context.t) (history1 history2 : list string) :
  category (Context.semanticContext context1)
  = category (Context.semanticContext context2) ->
  Context.questionType context1 = Context.questionType context2 ->
  Urgency.level (Context.urgency context1)
  = Urgency.level (Context.urgency context2) ->
  (forall stage,
     stageIs (Context.userJourney context1) stage
     = stageIs (Context.userJourney context2) stage) ->
  generateContextualResponse userMessage context1 history1
  = generateContextualResponse userMessage context2 history2.
Proof.
  intros Hc Hq Hu Hs.
  unfold generateContextualResponse, categoryIs, handleLoanInquiry,
    handleApplicationProcess, handleEligibility, handleDocuments,
    handleRepayment, handleInterestCharges, handleCompanyInfo,
    handleSupportContact, handleTechnicalIssues, handleLoanStatus,
    handleWhatQuestions, handleHowQuestions, handleCapabilityQuestions,
    handleWhyQuestions.
  cbv zeta. rewrite Hc, Hq, Hu, !Hs. reflexivity.
Qed.

(** X27. The response of the chat route is a function of the message, the last
    three messages of the history and the parser: the TF-IDF library, the
    state of the service object and, once the history has three messages,
    everything before them have no influence on it. *)
Theorem generateFundobabaResponse_dependencies
    (natural1 natural2 : TfIdfLibrary) {compromise : CompromiseLibrary}
    (message : string) (history : list string)
    (this1 : @NLPService natural1) (this2 : @NLPService natural2) :
  fst (@generateFundobabaResponse natural1 compromise message history this1)
  = fst (@generateFundobabaResponse natural2 compromise message history
           this2) /\
  (3 <= length history ->
   forall old,
     fst (@generateFundobabaResponse natural1 compromise message
            (old ++ history) this1)
     = fst (@generateFundobabaResponse natural2 compromise message history
              this2)).
Proof.
  assert (Hgen : forall history1 history2,
    (history1 = history2 \/
     (history1 <> [] /\ history2 <> [] /\
      determineUserStage history1 journeyStages
      = determineUserStage history2 journeyStages)) ->
    fst (@generateFundobabaResponse natural1 compromise message history1
           this1)
    = fst (@generateFundobabaResponse natural2 compromise message history2
             this2)).
  { intros history1 history2 Hsame.
    destruct (@generateFundobabaResponse_returns natural1 compromise
                message history1 this1)
      as (r1 & s1 & Hrun1 & c1 & _ & Hsem1 & Hq1 & Hj1 & Hsent1 & Hu1 & Hr1).
    destruct (@generateFundobabaResponse_returns natural2 compromise
                message history2 this2)
      as (r2 & s2 & Hrun2 & c2 & _ & Hsem2 & Hq2 & Hj2 & Hsent2 & Hu2 & Hr2).
    rewrite Hrun1, Hrun2. cbn [fst]. rewrite Hr1, Hr2.
    rewrite (generateContextualResponse_fields message c1 c2
               history1 history2); [reflexivity | | | |].
    - now rewrite Hsem1, Hsem2.
    - now rewrite Hq1, Hq2.
    - rewrite Hu1, Hu2. rewrite Hsent1 in Hsent2. now injection Hsent2 as ->.
    - intros stage. destruct Hsame as [<- | (Hne1 & Hne2 & Hstage)].
      + rewrite Hj1 in Hj2. now injection Hj2 as ->.
      + destruct (analyzeUserJourney_stage history1 Hne1)
          as (stage1 & p1 & Ha1 & Hd1).
        destruct (analyzeUserJourney_stage history2 Hne2)
          as (stage2 & p2 & Ha2 & Hd2).
        rewrite Ha1 in Hj1. rewrite Ha2 in Hj2.
        injection Hj1 as <-. injection Hj2 as <-.
        rewrite Hd1, Hd2 in Hstage. injection Hstage as ->.
        reflexivity. }
  split; [apply Hgen; now left|].
  intros Hlen old. apply Hgen. right.
  split; [destruct old, history; cbn in *; try discriminate; lia|].
  split; [destruct history; cbn in *; try discriminate; lia|].
  unfold determineUserStage. cbv zeta. now rewrite sliceLast_app.
Qed.

Lemma repeatClass_exact (p : ascii -> bool) (cs rest : string) :
  forallb p (list_ascii_of_string cs) = true ->
  repeatClass p (String.length cs) (Some (String.length cs))
              (String.append cs rest) Some
  = Some rest.
Proof.
  induction cs as [|c cs IH]; intros Hall.
  - destruct rest; reflexivity.
  - cbn [list_ascii_of_string forallb] in Hall.
    apply andb_true_iff in Hall as [Hc Hall].
    cbn [String.append String.length repeatClass pred option_map].
    rewrite Hc, (IH Hall). reflexivity.
Qed.

Lemma execAt_phone (d : ascii) (digits rest : string) :
  inRange 55 57 d = true ->
  String.length digits = 9 ->
  forallb isDigit (list_ascii_of_string digits) = true ->
  execAt phonePattern (String d (String.append digits rest))
  = Some (String d digits).
Proof.
  intros Hd Hlen Hall. unfold execAt, phonePattern.
  assert (Hplus : Ascii.eqb "+" d = false).
  { destruct (Ascii.eqb_spec "+"%char d) as [<- | _]; [|reflexivity].
    vm_compute in Hd. discriminate Hd. }
  cbn [matchHere]. rewrite Hplus, Hd.
  pose proof (repeatClass_exact isDigit digits rest Hall) as Hrep.
  rewrite Hlen in Hrep. rewrite Hrep.
  exact (f_equal Some (substring_prefix (String d digits) rest)).
Qed.

Lemma matchAllFrom_finds (r : Regex) (prefix s : string) :
  execAt r s <> None -> matchAllFrom r (String.append prefix s) 0 <> [].
Proof.
  intros Hexec. induction prefix as [|c prefix IH]; cbn [String.append].
  - destruct s; cbn [matchAllFrom];
      destruct (execAt r _); [discriminate | congruence
                             |discriminate | congruence].
  - cbn [matchAllFrom].
    destruct (execAt r (String c (String.append prefix s)));
      [discriminate | exact IH].
Qed.

(** X28. Ten consecutive digits of which the first is 7, 8 or 9 are always taken
    for a mobile number, wherever they stand in the message, also inside a
    longer number: for a message that contains them the phone pattern finds
    a match, and when the parser accepts the message the extracted contacts
    are not empty. *)
Theorem ten_digits_are_a_contact {compromise : CompromiseLibrary}
    (message prefix digits suffix : string) (d : ascii) :
  message
  = String.append prefix (String d (String.append digits suffix)) ->
  inRange 55 57 d = true ->
  String.length digits = 9 ->
  forallb isDigit (list_ascii_of_string digits) = true ->
  stringMatch message phonePattern <> None /\
  (forall doc,
     nlp message = Returns doc ->
     exists entities,
       extractEntities message = Returns entities /\
       Entities.contact_info entities <> []).
Proof.
  intros -> Hd Hlen Hall.
  set (message := String.append prefix _).
  assert (Hfound : matchAllFrom phonePattern message 0 <> []).
  { apply matchAllFrom_finds.
    rewrite (execAt_phone d digits suffix Hd Hlen Hall). discriminate. }
  assert (Hmatch : stringMatch message phonePattern <> None).
  { unfold stringMatch. destruct (matchAllFrom phonePattern message 0);
      [congruence | discriminate]. }
  split; [exact Hmatch|].
  intros doc Hdoc.
  destruct (extractEntities_regex_fields message)
    as (entities & Hr & _ & _ & Hconv).
  exists entities. split; [exact Hr|].
  destruct (stringMatch message phonePattern) as [[|phone phones]|] eqn:E;
    [|specialize (Hconv doc phone Hdoc (or_introl (or_introl eq_refl)));
      intros Hnil; rewrite Hnil in Hconv; destruct Hconv
     |congruence].
  unfold stringMatch in E.
  destruct (matchAllFrom phonePattern message 0); [congruence | discriminate].
Qed.

Lemma ten_digits_are_a_contact_witness :
  inRange 55 57 "9" = true /\
  stringMatch "my aadhaar is 987654321012" phonePattern <> None.
Proof.
  assert (Hd : inRange 55 57 "9" = true) by reflexivity.
  exact (conj Hd
           (proj1 (@ten_digits_are_a_contact Reference.parser
                     "my aadhaar is 987654321012" "my aadhaar is "
                     "876543210" "12" "9"%char eq_refl Hd eq_refl eq_refl))).
Defined.

(** ** Related topics *)

Lemma keyword_category (keyword : string) :
  In keyword
     ["loan"; "borrow"; "money"; "apply"; "process"; "steps"; "documents";
      "papers"; "kyc"; "repay"; "payment"; "emi"; "interest"; "rate";
      "charges"; "company"; "fundobaba"; "about"] ->
  exists name data,
    In (name, data) semanticCategories /\ In keyword (keywords data).
Proof.
  intros Hin.
  assert (F : forallb
                (fun keyword =>
                   existsb
                     (fun entry =>
                        arrayIncludes (keywords (snd entry)) keyword)
                     semanticCategories)
                ["loan"; "borrow"; "money"; "apply"; "process"; "steps";
                 "documents"; "papers"; "kyc"; "repay"; "payment"; "emi";
                 "interest"; "rate"; "charges"; "company"; "fundobaba";
                 "about"] = true) by (vm_compute; reflexivity).
  rewrite forallb_forall in F. apply F in Hin.
  apply existsb_exists in Hin as ([name data] & Hentry & Hkw).
  exists name, data. split; [exact Hentry|].
  now apply arrayIncludes_In.
Qed.

(** X29. Related topics are only reported for a message that has a semantic
    category: every word that triggers them is a keyword of some category.
    They depend on the message alone, not on the history, and on its
    lower-case form only. *)
Theorem findRelatedTopics_needs_category
    (message : string) (history : list string) :
  (category (analyzeSemanticContext message history) = None ->
   relatedTopics (analyzeSemanticContext message history) = []) /\
  (forall history',
     findRelatedTopics message history' = findRelatedTopics message history) /\
  findRelatedTopics (toLowerCase message) history
  = findRelatedTopics message history.
Proof.
  split; [|split; [reflexivity|]].
  - intros Hnone.
    assert (Hk : forall keyword,
              In keyword
                 ["loan"; "borrow"; "money"; "apply"; "process"; "steps";
                  "documents"; "papers"; "kyc"; "repay"; "payment"; "emi";
                  "interest"; "rate"; "charges"; "company"; "fundobaba";
                  "about"] ->
              includes (toLowerCase message) keyword = false).
    { intros keyword Hin.
      destruct (keyword_category keyword Hin) as (name & data & He & Hkw).
      exact (no_category_no_keyword message history name data keyword
               Hnone He Hkw). }
    assert (Hrel : relatedTopics (analyzeSemanticContext message history)
                   = findRelatedTopics message history).
    { unfold analyzeSemanticContext.
      now destruct (fold_left _ semanticCategories (None, 0%Q)). }
    rewrite Hrel. unfold findRelatedTopics. cbv zeta.
    rewrite !Hk by (cbn; tauto). reflexivity.
  - unfold findRelatedTopics. now rewrite toLowerCase_idempotent.
Qed.
